(** * PLink link editor: the diagram engine of [plink_src/editor.py]

    A shallow embedding of the editing core of [LinkEditor]: the lists
    [Vertices], [Arrows], [Crossings] and [CrossPoints], the mode flags, the
    three interactive states, and the handlers [single_click],
    [shift_click], [double_click], [move_active] and [end_dragging_state]
    with the helpers they call.

    Conventions of the embedding.
    - Python objects have identity: vertices and arrows live in two stores
      (finite maps) and the lists hold their handles.  A [Crossing] is only
      ever reached through [self.Crossings], so the list holds it by value.
    - Coordinates are Python floats in the source; here they are exact
      rationals.  No statement below depends on rounding.
    - [vertex.py], [arrow.py], [crossings.py], [colors.py] and [manager.py]
      are not part of the sources at hand.  What the editor needs from them
      is gathered in the class [Collaborators]; every general theorem holds
      for all instances.  One instance, written from the specification,
      is used to run the editor on concrete diagrams.
    - Drawing on the canvas (expose, hide, erase, draw, the live preview
      lines, the lock-error marker, the info line) leaves no trace in the
      model; alerts and warning boxes are recorded in [ui_log].
    - Loops that follow [out_arrow] links need not terminate; they take
      fuel, and running out of it is a result of its own. *)

From Stdlib Require Import QArith Sorted.
From stdpp Require Import gmap list strings.

Local Open Scope bool_scope.

(** ** Data model *)

Abbreviation VId := nat (only parsing).
Abbreviation AId := nat (only parsing).
Definition Color := string.
Definition Pt : Type := Q * Q.
Definition Seg : Type := Pt * Pt.

Record Vertex := mkVertex {
  vx : Q;
  vy : Q;
  vcolor : Color;
  in_arrow : option AId;
  out_arrow : option AId;
  vfrozen : bool;
  vdelta : Z
}.

Record Arrow := mkArrow {
  astart : VId;
  aend : VId;
  acolor : Color;
  afrozen : bool
}.

Record Crossing := mkCrossing {
  over : AId;
  under : AId;
  cloc : option Pt;
  is_virtual : bool
}.

#[global] Instance Vertex_inhabited : Inhabited Vertex :=
  populate (mkVertex 0 0 "black" None None false 2).
#[global] Instance Arrow_inhabited : Inhabited Arrow :=
  populate (mkArrow 0 0 "black" false).

(** The part of the editor that is the link diagram. *)
Record Diagram := mkDiagram {
  vstore : gmap nat Vertex;
  astore : gmap nat Arrow;
  Vertices : list VId;
  Arrows : list AId;
  Crossings : list Crossing
}.

Inductive EditorState := start_state | drawing_state | dragging_state.
Inductive Style := style_pl | style_smooth | style_both.

Inductive UiEvent :=
| Alert
| ShowWarning (title message : string).

Inductive Exn :=
| ValueError | AttributeError | IndexError | UnboundLocalError | AssertionError.

(** ** Vertices, arrows and crossings *)

Definition vertex (d : Diagram) (v : VId) : Vertex := vstore d !!! v.
Definition arrow (d : Diagram) (a : AId) : Arrow := astore d !!! a.

(** [Vertex.point] *)
Definition point (d : Diagram) (v : VId) : Pt := (vx (vertex d v), vy (vertex d v)).

Definition segment (d : Diagram) (a : AId) : Seg :=
  (point d (astart (arrow d a)), point d (aend (arrow d a))).

Definition set_vertex (v : VId) (f : Vertex -> Vertex) (d : Diagram) : Diagram :=
  mkDiagram (<[v := f (vertex d v)]> (vstore d)) (astore d)
            (Vertices d) (Arrows d) (Crossings d).

Definition set_arrow (a : AId) (f : Arrow -> Arrow) (d : Diagram) : Diagram :=
  mkDiagram (vstore d) (<[a := f (arrow d a)]> (astore d))
            (Vertices d) (Arrows d) (Crossings d).

Definition set_Vertices (l : list VId) (d : Diagram) : Diagram :=
  mkDiagram (vstore d) (astore d) l (Arrows d) (Crossings d).

Definition set_Arrows (l : list AId) (d : Diagram) : Diagram :=
  mkDiagram (vstore d) (astore d) (Vertices d) l (Crossings d).

Definition set_Crossings (l : list Crossing) (d : Diagram) : Diagram :=
  mkDiagram (vstore d) (astore d) (Vertices d) (Arrows d) l.

Definition with_in_arrow (a : option AId) (v : Vertex) : Vertex :=
  mkVertex (vx v) (vy v) (vcolor v) a (out_arrow v) (vfrozen v) (vdelta v).
Definition with_out_arrow (a : option AId) (v : Vertex) : Vertex :=
  mkVertex (vx v) (vy v) (vcolor v) (in_arrow v) a (vfrozen v) (vdelta v).
Definition with_xy (p : Pt) (v : Vertex) : Vertex :=
  mkVertex (fst p) (snd p) (vcolor v) (in_arrow v) (out_arrow v) (vfrozen v) (vdelta v).
Definition with_vcolor (c : Color) (v : Vertex) : Vertex :=
  mkVertex (vx v) (vy v) c (in_arrow v) (out_arrow v) (vfrozen v) (vdelta v).
Definition with_vfrozen (b : bool) (v : Vertex) : Vertex :=
  mkVertex (vx v) (vy v) (vcolor v) (in_arrow v) (out_arrow v) b (vdelta v).
Definition with_vdelta (z : Z) (v : Vertex) : Vertex :=
  mkVertex (vx v) (vy v) (vcolor v) (in_arrow v) (out_arrow v) (vfrozen v) z.

Definition with_aend (v : VId) (a : Arrow) : Arrow :=
  mkArrow (astart a) v (acolor a) (afrozen a).
Definition with_acolor (c : Color) (a : Arrow) : Arrow :=
  mkArrow (astart a) (aend a) c (afrozen a).
Definition with_afrozen (b : bool) (a : Arrow) : Arrow :=
  mkArrow (astart a) (aend a) (acolor a) b.

(** A handle that no store entry uses yet: where a new object is put. *)
Definition fresh_vid (d : Diagram) : VId := fresh (dom (vstore d)).
Definition fresh_aid (d : Diagram) : AId := fresh (dom (astore d)).

(** Modelled from the spec: [Vertex.is_endpoint] of vertex.py, which is not
    among the sources.  An endpoint of an open component lacks its incoming
    or its outgoing arrow. *)
Definition is_endpoint (d : Diagram) (v : VId) : bool :=
  negb (bool_decide (is_Some (in_arrow (vertex d v)))) ||
  negb (bool_decide (is_Some (out_arrow (vertex d v)))).

(** Modelled from the spec: the constructor [Arrow(start, end, color=...)] of
    arrow.py, which is not among the sources.  The new arrow becomes the
    outgoing arrow of its start and the incoming arrow of its end;
    [single_click] relies on this when it later asks for
    [self.ActiveVertex.out_arrow]. *)
Definition new_arrow (s e : VId) (c : Color) (d : Diagram) : AId * Diagram :=
  let a := fresh_aid d in
  (a, set_vertex e (with_in_arrow (Some a))
        (set_vertex s (with_out_arrow (Some a))
           (mkDiagram (vstore d) (<[a := mkArrow s e c false]> (astore d))
                      (Vertices d) (Arrows d) (Crossings d)))).

(** Modelled from the spec: the constructor [Vertex(x, y, color=...)] of
    vertex.py.  A new vertex has no arrows and is not frozen. *)
Definition new_vertex (p : Pt) (c : Color) (d : Diagram) : VId * Diagram :=
  let v := fresh_vid d in
  (v, mkDiagram (<[v := mkVertex (fst p) (snd p) c None None false 2]> (vstore d))
                (astore d) (Vertices d) (Arrows d) (Crossings d)).

(** Modelled from the spec: [Crossing.__contains__] of crossings.py: the
    arrow is one of the two strands. *)
Definition crossing_contains (c : Crossing) (a : AId) : bool :=
  bool_decide (a = over c) || bool_decide (a = under c).

(** Modelled from the spec: [Crossing.__eq__] of crossings.py: a crossing is
    an unordered pair of arrows, so two crossings are equal when they join
    the same two arrows. *)
Definition crossing_eq (c c' : Crossing) : bool :=
  (bool_decide (over c = over c') && bool_decide (under c = under c')) ||
  (bool_decide (over c = under c') && bool_decide (under c = over c')).

(** Modelled from the spec: [Crossing.reverse] of crossings.py, the toggle of
    over and under. *)
Definition crossing_reverse (c : Crossing) : Crossing :=
  mkCrossing (under c) (over c) (cloc c) (is_virtual c).

Definition with_is_virtual (b : bool) (c : Crossing) : Crossing :=
  mkCrossing (over c) (under c) (cloc c) b.
Definition with_cloc (p : option Pt) (c : Crossing) : Crossing :=
  mkCrossing (over c) (under c) p (is_virtual c).

(** ** Python list operations used by the editor *)

(** [x in l], [l.index(x)] and [l.remove(x)] for an equality test [eqb]
    applied as [item == x]. *)
Fixpoint py_index {A} (eqb : A -> bool) (l : list A) : option nat :=
  match l with
  | [] => None
  | y :: l' => if eqb y then Some 0%nat else S <$> py_index eqb l'
  end.

Fixpoint py_remove {A} (eqb : A -> bool) (l : list A) : option (list A) :=
  match l with
  | [] => None
  | y :: l' => if eqb y then Some l' else cons y <$> py_remove eqb l'
  end.

Definition py_in {A} (eqb : A -> bool) (l : list A) : bool := existsb eqb l.

Definition arrow_in (a : AId) (l : list AId) : bool := bool_decide (a ∈ l).

(** Results of code that may raise or loop. *)
Inductive Try (A : Type) :=
| Val (a : A)
| Throw (e : Exn)
| Diverge.
Arguments Val {A} a.
Arguments Throw {A} e.
Arguments Diverge {A}.

(** The mode flags that the keys v, u, 1, 2, 3 toggle, and [self.modes],
    which tells that one of them is on. *)
Record Modes := mkModes {
  vertex_mode : bool;
  under_mode : bool;
  r1_mode : bool;
  r2_mode : bool;
  r3_mode : bool;
  modes_on : bool
}.

Inductive ModeKey := key_v | key_u | key_1 | key_2 | key_3.

Definition mode_flag (k : ModeKey) (m : Modes) : bool :=
  match k with
  | key_v => vertex_mode m
  | key_u => under_mode m
  | key_1 => r1_mode m
  | key_2 => r2_mode m
  | key_3 => r3_mode m
  end.

Definition with_mode_flag (k : ModeKey) (b on : bool) (m : Modes) : Modes :=
  match k with
  | key_v => mkModes b (under_mode m) (r1_mode m) (r2_mode m) (r3_mode m) on
  | key_u => mkModes (vertex_mode m) b (r1_mode m) (r2_mode m) (r3_mode m) on
  | key_1 => mkModes (vertex_mode m) (under_mode m) b (r2_mode m) (r3_mode m) on
  | key_2 => mkModes (vertex_mode m) (under_mode m) (r1_mode m) b (r3_mode m) on
  | key_3 => mkModes (vertex_mode m) (under_mode m) (r1_mode m) (r2_mode m) b on
  end.

(** The mode keys of [_key_press], lines 686-805: the key of the mode that
    is on switches it off; any other mode key switches every mode off and
    its own mode on. *)
Definition press_mode_key (k : ModeKey) (m : Modes) : Modes :=
  if mode_flag k m then with_mode_flag k false false m
  else
    let m' := if modes_on m then mkModes false false false false false (modes_on m)
              else m in
    with_mode_flag k true true m'.

Section Editor.

(** The state of [Palette] (colors.py) is opaque to the editor. *)
Context {Palette : Type}.

(** ** What the editor needs from the modules that are not at hand *)

Class Collaborators := {
  (** [Vertex.__eq__]: two vertices coincide within the tolerance *)
  vertex_eq : Pt -> Pt -> bool;
  (** [Arrow.__xor__]: the parameter at which the first segment properly
      crosses the second, [None] when it does not *)
  arrow_xor : Seg -> Seg -> option Q;
  (** [Crossing.locate] for the strands (over, under): the crossing point
      of a proper intersection, [None] when there is none *)
  crossing_locate : Seg -> Seg -> option Pt;
  (** [Arrow.too_close(vertex, tolerance)] *)
  too_close : Seg -> Pt -> option Q -> bool;
  (** [Arrow.epsilon] *)
  Arrow_epsilon : Q;
  (** the colour of a [Vertex] built without one *)
  Vertex_default_color : Color;
  (** [LinkManager.update_crosspoints]: the located crossings and the
      hit points that go with them *)
  relocate_crosspoints : Diagram -> list Crossing * list Pt;
  (** [Palette.new] and [Palette.recycle] *)
  palette_new : Palette -> Color * Palette;
  palette_recycle : Color -> Palette -> Palette;
  (** the colours that [full_redraw] hands to the vertices and arrows, as
      decided by [arrow_components] and the palette *)
  full_redraw_paint :
    Diagram -> Palette -> (VId -> option Color) * (AId -> option Color) * Palette;
  (** [Vertex.reverse_path], [Vertex.recolor_incoming] with a colour or with
      the palette, and [Vertex.swallow] *)
  reverse_path : VId -> Diagram -> Diagram;
  recolor_incoming : VId -> Color -> Diagram -> Diagram;
  recolor_incoming_new : VId -> Diagram -> Palette -> Diagram * Palette;
  swallow : VId -> VId -> Diagram -> Palette -> Diagram * Palette
}.

Context {collab : Collaborators}.

(** ** The editor *)

Record State := mkState {
  diagram : Diagram;
  CrossPoints : list Pt;
  ActiveVertex : option VId;
  state : EditorState;
  style_var : Style;
  lock_var : bool;
  has_focus : bool;
  modes : Modes;
  r2_crossings : list Pt;
  r3_crossings : list Pt;
  r3_helper_tuple : option (bool * list bool);
  saved_crossing_data : option (list nat * list nat);
  cursor_attached : bool;
  cursorx : Q;
  cursory : Q;
  palette : Palette;
  ui_log : list UiEvent
}.

Definition set_diagram (d : Diagram) (s : State) : State :=
  mkState d (CrossPoints s) (ActiveVertex s) (state s) (style_var s) (lock_var s)
    (has_focus s) (modes s) (r2_crossings s) (r3_crossings s) (r3_helper_tuple s)
    (saved_crossing_data s) (cursor_attached s) (cursorx s) (cursory s)
    (palette s) (ui_log s).
Definition set_CrossPoints (l : list Pt) (s : State) : State :=
  mkState (diagram s) l (ActiveVertex s) (state s) (style_var s) (lock_var s)
    (has_focus s) (modes s) (r2_crossings s) (r3_crossings s) (r3_helper_tuple s)
    (saved_crossing_data s) (cursor_attached s) (cursorx s) (cursory s)
    (palette s) (ui_log s).
Definition set_ActiveVertex (v : option VId) (s : State) : State :=
  mkState (diagram s) (CrossPoints s) v (state s) (style_var s) (lock_var s)
    (has_focus s) (modes s) (r2_crossings s) (r3_crossings s) (r3_helper_tuple s)
    (saved_crossing_data s) (cursor_attached s) (cursorx s) (cursory s)
    (palette s) (ui_log s).
Definition set_state (e : EditorState) (s : State) : State :=
  mkState (diagram s) (CrossPoints s) (ActiveVertex s) e (style_var s) (lock_var s)
    (has_focus s) (modes s) (r2_crossings s) (r3_crossings s) (r3_helper_tuple s)
    (saved_crossing_data s) (cursor_attached s) (cursorx s) (cursory s)
    (palette s) (ui_log s).
Definition set_has_focus (b : bool) (s : State) : State :=
  mkState (diagram s) (CrossPoints s) (ActiveVertex s) (state s) (style_var s)
    (lock_var s) b (modes s) (r2_crossings s) (r3_crossings s) (r3_helper_tuple s)
    (saved_crossing_data s) (cursor_attached s) (cursorx s) (cursory s)
    (palette s) (ui_log s).
Definition set_modes (m : Modes) (s : State) : State :=
  mkState (diagram s) (CrossPoints s) (ActiveVertex s) (state s) (style_var s)
    (lock_var s) (has_focus s) m (r2_crossings s) (r3_crossings s) (r3_helper_tuple s)
    (saved_crossing_data s) (cursor_attached s) (cursorx s) (cursory s)
    (palette s) (ui_log s).
Definition set_r2_crossings (l : list Pt) (s : State) : State :=
  mkState (diagram s) (CrossPoints s) (ActiveVertex s) (state s) (style_var s)
    (lock_var s) (has_focus s) (modes s) l (r3_crossings s) (r3_helper_tuple s)
    (saved_crossing_data s) (cursor_attached s) (cursorx s) (cursory s)
    (palette s) (ui_log s).
Definition set_r3_crossings (l : list Pt) (s : State) : State :=
  mkState (diagram s) (CrossPoints s) (ActiveVertex s) (state s) (style_var s)
    (lock_var s) (has_focus s) (modes s) (r2_crossings s) l (r3_helper_tuple s)
    (saved_crossing_data s) (cursor_attached s) (cursorx s) (cursory s)
    (palette s) (ui_log s).
Definition set_r3_helper_tuple (t : option (bool * list bool)) (s : State) : State :=
  mkState (diagram s) (CrossPoints s) (ActiveVertex s) (state s) (style_var s)
    (lock_var s) (has_focus s) (modes s) (r2_crossings s) (r3_crossings s) t
    (saved_crossing_data s) (cursor_attached s) (cursorx s) (cursory s)
    (palette s) (ui_log s).
Definition set_saved_crossing_data (x : option (list nat * list nat)) (s : State) : State :=
  mkState (diagram s) (CrossPoints s) (ActiveVertex s) (state s) (style_var s)
    (lock_var s) (has_focus s) (modes s) (r2_crossings s) (r3_crossings s)
    (r3_helper_tuple s) x (cursor_attached s) (cursorx s) (cursory s)
    (palette s) (ui_log s).
Definition set_cursor_attached (b : bool) (s : State) : State :=
  mkState (diagram s) (CrossPoints s) (ActiveVertex s) (state s) (style_var s)
    (lock_var s) (has_focus s) (modes s) (r2_crossings s) (r3_crossings s)
    (r3_helper_tuple s) (saved_crossing_data s) b (cursorx s) (cursory s)
    (palette s) (ui_log s).
Definition set_palette (p : Palette) (s : State) : State :=
  mkState (diagram s) (CrossPoints s) (ActiveVertex s) (state s) (style_var s)
    (lock_var s) (has_focus s) (modes s) (r2_crossings s) (r3_crossings s)
    (r3_helper_tuple s) (saved_crossing_data s) (cursor_attached s) (cursorx s)
    (cursory s) p (ui_log s).
Definition log_event (e : UiEvent) (s : State) : State :=
  mkState (diagram s) (CrossPoints s) (ActiveVertex s) (state s) (style_var s)
    (lock_var s) (has_focus s) (modes s) (r2_crossings s) (r3_crossings s)
    (r3_helper_tuple s) (saved_crossing_data s) (cursor_attached s) (cursorx s)
    (cursory s) (palette s) (e :: ui_log s).

(** [self.alert()] flashes the canvas. *)
Definition alert : State -> State := log_event Alert.

(** Change the diagram inside the editor. *)
Definition on_diagram (f : Diagram -> Diagram) (s : State) : State :=
  set_diagram (f (diagram s)) s.

(** Outcome of a handler: it returns, it raises and leaves the state as it
    was at that moment, or it never comes back. *)
Inductive Res (A : Type) :=
| Ret (a : A) (s : State)
| Raise (e : Exn) (s : State)
| OutOfFuel.
Arguments Ret {A} a s.
Arguments Raise {A} e s.
Arguments OutOfFuel {A}.

Definition bind {A B} (m : Res A) (k : A -> State -> Res B) : Res B :=
  match m with
  | Ret a s => k a s
  | Raise e s => Raise e s
  | OutOfFuel => OutOfFuel
  end.

(** The state a handler leaves behind, if it comes back at all. *)
Definition final {A} (m : Res A) : option State :=
  match m with
  | Ret _ s => Some s
  | Raise _ s => Some s
  | OutOfFuel => None
  end.

(** ** Crossing detector *)

(** [destroy_arrow], lines 2061-2068.  [self.Arrows.remove] raises
    [ValueError] for an arrow that is not listed. *)
Definition destroy_arrow (a : AId) (d : Diagram) : option Diagram :=
  match py_remove (fun b => bool_decide (b = a)) (Arrows d) with
  | None => None
  | Some l =>
    let d1 := set_Arrows l d in
    let d2 := set_vertex (aend (arrow d1 a)) (with_in_arrow None) d1 in
    let d3 := set_vertex (astart (arrow d2 a)) (with_out_arrow None) d2 in
    Some (set_Crossings
            (filter (fun c => negb (crossing_contains c a)) (Crossings d3)) d3)
  end.

(** [self.r3_helper_tuple is not None and self.r3_helper_tuple[0]] *)
Definition r3_helper_active (s : State) : bool :=
  match r3_helper_tuple s with
  | Some (b, _) => b
  | None => false
  end.

(** [Crossing(over, under)] followed by [locate()]. *)
Definition located_crossing (d : Diagram) (o u : AId) : Crossing :=
  mkCrossing o u (crossing_locate (segment d o) (segment d u)) false.

(** Lines 2082-2088: the candidate crossing of [this_arrow] with [arrow]. *)
Definition new_crossing (s : State) (this_arrow arrow : AId) : Crossing :=
  if r3_helper_active s then located_crossing (diagram s) arrow this_arrow
  else if negb (under_mode (modes s)) then located_crossing (diagram s) this_arrow arrow
  else located_crossing (diagram s) arrow this_arrow.

(** [find(new_crossing).locate()]: the stored crossing is kept and only its
    location is refreshed. *)
Fixpoint relocate_found (d : Diagram) (nc : Crossing) (cs : list Crossing)
  : list Crossing :=
  match cs with
  | [] => []
  | c :: cs' =>
    if crossing_eq c nc
    then with_cloc (crossing_locate (segment d (over c)) (segment d (under c))) c :: cs'
    else c :: relocate_found d nc cs'
  end.

(** One round of the loop of [update_crossings], lines 2079-2102.
    [cross_list] is the snapshot taken on entry; the damage list only tells
    which arrows are drawn again, so the look-up [find(new_crossing).under]
    that fills it is left out. *)
Definition update_crossings_step (s : State) (this_arrow : AId)
    (cross_list : list Crossing) (cs : list Crossing) (arrow : AId)
  : list Crossing :=
  if bool_decide (this_arrow = arrow) then cs
  else
    let nc := new_crossing s this_arrow arrow in
    match cloc nc with
    | Some _ =>
      if py_in (fun c => crossing_eq c nc) cross_list
      then relocate_found (diagram s) nc cs
      else cs ++ [nc]
    | None =>
      match py_remove (fun c => crossing_eq c nc) cs with
      | Some cs' => cs'
      | None => cs
      end
    end.

(** [update_crossings], lines 2070-2104. *)
Definition update_crossings (this_arrow : option AId) (s : State) : State :=
  match this_arrow with
  | None => s
  | Some a =>
    let cross_list := filter (fun c => crossing_contains c a) (Crossings (diagram s)) in
    on_diagram
      (set_Crossings
         (fold_left (update_crossings_step s a cross_list)
                    (Arrows (diagram s)) (Crossings (diagram s)))) s
  end.

(** [LinkManager.update_crosspoints] *)
Definition update_crosspoints (s : State) : State :=
  let r := relocate_crosspoints (diagram s) in
  set_CrossPoints (snd r) (on_diagram (set_Crossings (fst r)) s).

(** ** Genericity validator *)

(** [generic_vertex], lines 2025-2032, for the vertex object [self_id] (if it
    is stored at all) at position [p]. *)
Definition generic_vertex (s : State) (self_id : option VId) (p : Pt) : bool :=
  let d := diagram s in
  if py_in (fun v => vertex_eq (point d v) p)
           (filter (fun v => negb (bool_decide (self_id = Some v))) (Vertices d))
  then false
  else negb (existsb (fun a => too_close (segment d a) p (Some (Arrow_epsilon + 2)%Q))
                     (Arrows d)).

(** The loop over the crossings of [generic_arrow], lines 2048-2058. *)
Fixpoint generic_arrow_crossings (s : State) (a : AId) (cs : list Crossing)
  : Try bool :=
  match cs with
  | [] => Val true
  | crossing :: cs' =>
    match py_index (fun c => crossing_eq c crossing) (Crossings (diagram s)) with
    | None => Throw ValueError
    | Some i =>
      match CrossPoints s !! i with
      | None => Throw IndexError
      | Some pt =>
        if negb (crossing_contains crossing a) && too_close (segment (diagram s) a) pt None
        then Val false
        else generic_arrow_crossings s a cs'
      end
    end
  end.

(** [generic_arrow], lines 2034-2059. *)
Definition generic_arrow (s : State) (a : option AId) : Try bool :=
  match a with
  | None => Val true
  | Some a =>
    if existsb (fun v => too_close (segment (diagram s) a) (point (diagram s) v) None)
               (Vertices (diagram s))
    then Val false
    else generic_arrow_crossings s a (Crossings (diagram s))
  end.

(** ** Crossing signature of the dragged vertex *)

(** [sorted] on pairs (parameter, index). *)
Definition pair_leb (x y : Q * nat) : bool :=
  match (fst x ?= fst y)%Q with
  | Lt => true
  | Eq => (snd x <=? snd y)%nat
  | Gt => false
  end.

Fixpoint insert_sorted (x : Q * nat) (l : list (Q * nat)) : list (Q * nat) :=
  match l with
  | [] => [x]
  | y :: l' => if pair_leb x y then x :: l else y :: insert_sorted x l'
  end.

Definition sorted (l : list (Q * nat)) : list (Q * nat) :=
  foldr insert_sorted [] l.

(** The loop of [crossed_arrows] over [enumerate(self.Arrows)]. *)
Fixpoint crosslist (d : Diagram) (a : AId) (ignore_list : list (option AId))
    (n : nat) (arrows : list AId) : list (Q * nat) :=
  match arrows with
  | [] => []
  | diagram_arrow :: rest =>
    if bool_decide (a = diagram_arrow) || bool_decide (Some diagram_arrow ∈ ignore_list)
    then crosslist d a ignore_list (S n) rest
    else match arrow_xor (segment d a) (segment d diagram_arrow) with
         | Some t => (t, n) :: crosslist d a ignore_list (S n) rest
         | None => crosslist d a ignore_list (S n) rest
         end
  end.

(** [crossed_arrows], lines 2106-2121. *)
Definition crossed_arrows (d : Diagram) (a : option AId)
    (ignore_list : list (option AId)) : list nat :=
  match a with
  | None => []
  | Some a => snd <$> sorted (crosslist d a ignore_list 0 (Arrows d))
  end.

(** [active_crossing_data], lines 1800-1809. *)
Definition active_crossing_data (s : State) : Try (list nat * list nat) :=
  match ActiveVertex s with
  | None => Throw AssertionError
  | Some active =>
    let v := vertex (diagram s) active in
    let ignore := [in_arrow v; out_arrow v] in
    Val (crossed_arrows (diagram s) (in_arrow v) ignore,
         crossed_arrows (diagram s) (out_arrow v) ignore)
  end.

(** [move_is_ok], lines 1811-1812. *)
Definition move_is_ok (s : State) : Try bool :=
  match active_crossing_data s with
  | Val data => Val (bool_decide (Some data = saved_crossing_data s))
  | Throw e => Throw e
  | Diverge => Diverge
  end.

(** ** Dragging *)

(** [attach_cursor] and [detach_cursor], lines 1863-1871. *)
Definition attach_cursor (active : VId) (s : State) : State :=
  on_diagram (set_vertex active (with_vdelta 8)) (set_cursor_attached true s).
Definition detach_cursor (active : VId) (s : State) : State :=
  on_diagram (set_vertex active (with_vdelta 2)) (set_cursor_attached false s).

(** [active.x, active.y = x, y] *)
Definition set_active_xy (active : VId) (p : Pt) (s : State) : State :=
  on_diagram (set_vertex active (with_xy p)) s.

Definition lift_try {A} (t : Try A) (s : State) : Res A :=
  match t with
  | Val a => Ret a s
  | Throw e => Raise e s
  | Diverge => OutOfFuel
  end.

(** [verify_drag], lines 1933-1940.  [update_arrows] only refreshes the
    cached direction vectors. *)
Definition verify_drag (s : State) : Res bool :=
  match ActiveVertex s with
  | None => Raise AttributeError s
  | Some active =>
    let s1 := update_crossings (in_arrow (vertex (diagram s) active)) s in
    let s2 := update_crossings (out_arrow (vertex (diagram s1) active)) s1 in
    let s3 := update_crosspoints s2 in
    bind (lift_try (generic_arrow s3 (in_arrow (vertex (diagram s3) active))) s3)
      (fun ok_in s4 =>
         if ok_in
         then lift_try (generic_arrow s4 (out_arrow (vertex (diagram s4) active))) s4
         else Ret false s4)
  end.

(** [move_active], lines 1814-1861. *)
Definition move_active (x y : Q) (s : State) : Res unit :=
  match ActiveVertex s with
  | None => Raise AttributeError s
  | Some active =>
    if lock_var s then
      let p0 := point (diagram s) active in
      let s1 := set_active_xy active (x, y) s in
      bind (lift_try (move_is_ok s1) s1) (fun ok s1 =>
        if ok then
          if negb (generic_vertex s1 (Some active) (point (diagram s1) active)) then
            let s2 := set_active_xy active p0 s1 in
            Ret tt (if cursor_attached s2 then detach_cursor active s2 else s2)
          else
            bind (verify_drag s1) (fun verified s2 =>
              if negb verified then
                let s3 := set_active_xy active p0 s2 in
                Ret tt (if cursor_attached s3 then detach_cursor active s3 else s3)
              else
                Ret tt (if negb (cursor_attached s2) then attach_cursor active s2 else s2))
        else
          let s2 := if cursor_attached s1 then detach_cursor active s1 else s1 in
          Ret tt (set_active_xy active p0 s2))
    else
      Ret tt (set_active_xy active (x, y) s)
  end.

(** ** Leaving and entering the interactive states *)

(** The colours that [full_redraw], lines 290-320, assigns. *)
Definition paint (vc : VId -> option Color) (ac : AId -> option Color)
    (d : Diagram) : Diagram :=
  let d1 :=
    foldr (fun v d' => match vc v with
                       | Some c => set_vertex v (with_vcolor c) d'
                       | None => d'
                       end) d (Vertices d) in
  foldr (fun a d' => match ac a with
                     | Some c => set_arrow a (with_acolor c) d'
                     | None => d'
                     end) d1 (Arrows d).

Definition full_redraw (s : State) : State :=
  let r := full_redraw_paint (diagram s) (palette s) in
  set_palette (snd r) (on_diagram (paint (fst (fst r)) (snd (fst r))) s).

(** [goto_start_state], lines 1907-1920; [set_style] ends in [full_redraw]. *)
Definition goto_start_state (s : State) : State :=
  full_redraw (set_state start_state (update_crosspoints (set_ActiveVertex None s))).

(** [goto_drawing_state], lines 1922-1931. *)
Definition goto_drawing_state (s : State) : Res unit :=
  match ActiveVertex s with
  | None => Raise AttributeError s
  | Some _ => Ret tt (set_state drawing_state s)
  end.

(** [self.destroy_arrow(arrow)] inside a handler. *)
Definition do_destroy_arrow (a : AId) (s : State) : Res unit :=
  match destroy_arrow a (diagram s) with
  | Some d => Ret tt (set_diagram d s)
  | None => Raise ValueError s
  end.

(** [self.Vertices.remove(vert)]: the first listed vertex that equals
    [vert] goes. *)
Definition do_remove_vertex (v : VId) (s : State) : Res unit :=
  let d := diagram s in
  match py_remove (fun w => vertex_eq (point d w) (point d v)) (Vertices d) with
  | Some l => Ret tt (on_diagram (set_Vertices l) s)
  | None => Raise ValueError s
  end.

(** [self.Vertices[self.Vertices.index(v)]] for a vertex at [p]. *)
Definition find_vertex (s : State) (p : Pt) : option VId :=
  let d := diagram s in
  match py_index (fun w => vertex_eq (point d w) p) (Vertices d) with
  | Some i => Vertices d !! i
  | None => None
  end.

(** [self.Crossings[self.CrossPoints.index(start_vertex)]]: the index, and
    the crossing if the list is long enough. *)
Definition crosspoint_index (s : State) (p : Pt) : option nat :=
  py_index (fun cp => vertex_eq cp p) (CrossPoints s).

(** [end_dragging_state], lines 1942-2023. *)
Definition end_dragging_state (s : State) : Res unit :=
  bind (verify_drag s) (fun verified s =>
  if negb verified then Raise ValueError s else
  match ActiveVertex s with
  | None => Raise AttributeError s
  | Some active =>
    let s1 :=
      if lock_var s
      then set_saved_crossing_data None (detach_cursor active s)
      else set_active_xy active (cursorx s, cursory s) s in
    let v1 := vertex (diagram s1) active in
    let c_list :=
      crossed_arrows (diagram s1) (in_arrow v1) [in_arrow v1] ++
      crossed_arrows (diagram s1) (out_arrow v1) [out_arrow v1] in
    if vertex_mode (modes s1) && negb (bool_decide (length c_list = 2%nat))
    then Raise ValueError s1
    else
      let d1 := diagram s1 in
      let other_ends :=
        filter (fun v => is_endpoint d1 v && negb (bool_decide (v = active)))
               (Vertices d1) in
      let found :=
        if is_endpoint d1 active
        then match py_index (fun w => vertex_eq (point d1 w) (point d1 active))
                            other_ends with
             | Some i => other_ends !! i
             | None => None
             end
        else None in
      let s2 :=
        match found with
        | Some endpoint =>
          let r := swallow active endpoint (diagram s1) (palette s1) in
          let d2 := fst r in
          set_palette (snd r)
            (set_diagram
               (set_Vertices
                  (filter (fun v => negb (bool_decide (v = endpoint))) (Vertices d2)) d2)
               s1)
        | None => s1
        end in
      let s3 :=
        if is_endpoint d1 active
        then
          let s' := update_crossings (in_arrow (vertex (diagram s2) active)) s2 in
          update_crossings (out_arrow (vertex (diagram s') active)) s'
        else s2 in
      if negb (bool_decide (is_Some found)) &&
         negb (generic_vertex s3 (Some active) (point (diagram s3) active))
      then Raise ValueError s3
      else Ret tt (goto_start_state s3)
  end).

(** [double_click], lines 1700-1745, for a click at [p]. *)
Definition double_click (p : Pt) (s : State) : Res unit :=
  match style_var s with
  | style_smooth => Ret tt s
  | _ =>
    if lock_var s then Ret tt s else
    match state s with
    | dragging_state =>
      match end_dragging_state s with
      | Raise ValueError s' => Ret tt (alert s')
      | Raise e s' => Raise e s'
      | OutOfFuel => OutOfFuel
      | Ret _ s1 =>
        let d1 := diagram s1 in
        if py_in (fun w => vertex_eq (point d1 w) p) (filter (is_endpoint d1) (Vertices d1))
        then
          match find_vertex s1 p with
          | None => Raise ValueError s1
          | Some v =>
            let s2 :=
              if bool_decide (is_Some (out_arrow (vertex d1 v)))
              then on_diagram (reverse_path v) (update_crosspoints s1)
              else s1 in
            goto_drawing_state (set_ActiveVertex (Some v) s2)
          end
        else if py_in (fun w => vertex_eq (point d1 w) p) (Vertices d1)
        then
          match find_vertex s1 p with
          | None => Raise ValueError s1
          | Some cut_vertex =>
            let r := recolor_incoming_new cut_vertex d1 (palette s1) in
            let s2 := set_palette (snd r) (set_diagram (fst r) s1) in
            match in_arrow (vertex (diagram s2) cut_vertex) with
            | None => Raise AttributeError (on_diagram (set_vertex cut_vertex (with_in_arrow None)) s2)
            | Some cut_arrow =>
              let s3 := on_diagram (set_vertex cut_vertex (with_in_arrow None)) s2 in
              let v := astart (arrow (diagram s3) cut_arrow) in
              let s4 := on_diagram (set_arrow cut_arrow (with_afrozen true)) s3 in
              goto_drawing_state (set_ActiveVertex (Some v) s4)
            end
          end
        else
          let r := new_vertex p Vertex_default_color d1 in
          goto_drawing_state (set_ActiveVertex (Some (fst r)) (set_diagram (snd r) s1))
      end
    | drawing_state =>
      match ActiveVertex s with
      | None => Raise AttributeError s
      | Some active =>
        match out_arrow (vertex (diagram s) active) with
        | Some dead_arrow =>
          bind (do_destroy_arrow dead_arrow s) (fun _ s' => Ret tt (goto_start_state s'))
        | None => Ret tt (goto_start_state s)
        end
      end
    | start_state => Ret tt s
    end
  end.

(** ** Reidemeister moves *)

(** The loop shared by [get_over_arrow_path] and [get_under_arrow_path],
    lines 970-982: follow [end.out_arrow] until [target] is on the path.
    When the path runs off an open end, [None] is appended and the next
    round fails on [None.end]. *)
Fixpoint arrow_path_loop (d : Diagram) (target : AId) (fuel : nat)
    (arrow_path : list AId) : Try (list AId) :=
  if arrow_in target arrow_path then Val arrow_path
  else
    match fuel with
    | O => Diverge
    | S fuel' =>
      match last arrow_path with
      | None => Throw IndexError
      | Some most_recent =>
        match out_arrow (vertex d (aend (arrow d most_recent))) with
        | Some next => arrow_path_loop d target fuel' (arrow_path ++ [next])
        | None => Throw AttributeError
        end
      end
    end.

Definition get_over_arrow_path (d : Diagram) (fuel : nat) (crossing : Crossing)
  : Try (list AId) :=
  arrow_path_loop d (under crossing) fuel [over crossing].

Definition get_under_arrow_path (d : Diagram) (fuel : nat) (crossing : Crossing)
  : Try (list AId) :=
  arrow_path_loop d (over crossing) fuel [under crossing].

(** One round of the loop of [over_under_has_crossings], lines 990-1000. *)
Definition has_crossings_step (over_arrow_path under_arrow_path : list AId)
    (acc : bool * bool) (crossing : Crossing) : bool * bool :=
  if arrow_in (under crossing) over_arrow_path then (false, snd acc)
  else if arrow_in (over crossing) over_arrow_path then (false, snd acc)
  else if arrow_in (under crossing) under_arrow_path then (fst acc, false)
  else if arrow_in (over crossing) under_arrow_path then (fst acc, false)
  else acc.

(** [over_under_has_crossings], lines 984-1001; [None] stands for the
    [ValueError] of removing a crossing that is not stored. *)
Definition over_under_has_crossings (d : Diagram)
    (over_arrow_path under_arrow_path : list AId) (clicked_cross : Crossing)
  : option (bool * bool) :=
  match py_remove (fun c => crossing_eq c clicked_cross) (Crossings d) with
  | None => None
  | Some cross_list_copy =>
    Some (fold_left (has_crossings_step over_arrow_path under_arrow_path)
                    cross_list_copy (true, true))
  end.

(** [all_oriented], lines 1003-1024: (can_reduce, is_under). *)
Definition all_oriented_step (a : AId) (acc : bool * bool) (crossing : Crossing)
  : bool * bool :=
  if bool_decide (a = under crossing) then (fst acc, false)
  else if bool_decide (a = over crossing) then (false, snd acc)
  else acc.

Definition all_oriented (s : State) (a : AId) : bool * option bool :=
  let r := fold_left (all_oriented_step a) (Crossings (diagram s)) (true, true) in
  let no_crossings_over := fst r in
  let no_crossings_under := snd r in
  if no_crossings_over && no_crossings_under then (true, Some (under_mode (modes s)))
  else if no_crossings_over && negb no_crossings_under then (true, Some true)
  else if negb no_crossings_over && no_crossings_under then (true, Some false)
  else (false, None).

(** The loop of [oriented_path], lines 1240-1251. *)
Fixpoint oriented_path_loop (s : State) (default_orientation : option bool)
    (path : list AId) : bool :=
  match path with
  | [] => true
  | a :: rest =>
    let orientation_output := all_oriented s a in
    if negb (fst orientation_output) then false
    else
      match default_orientation with
      | None => oriented_path_loop s (snd orientation_output) rest
      | Some _ =>
        if negb (bool_decide (default_orientation = snd orientation_output))
        then false
        else oriented_path_loop s default_orientation rest
      end
  end.

(** [oriented_path], lines 1237-1251. *)
Definition oriented_path (s : State) (path : list AId) : bool :=
  oriented_path_loop s None path.

(** The loop of [get_path_btwn_verts], lines 1229-1234. *)
Fixpoint path_btwn_loop (d : Diagram) (v2 : VId) (fuel : nat) (path : list AId)
    (most_recent : AId) : Try (list AId) :=
  let next_vert := aend (arrow d most_recent) in
  if vertex_eq (point d next_vert) (point d v2) then Val path
  else
    match fuel with
    | O => Diverge
    | S fuel' =>
      match out_arrow (vertex d next_vert) with
      | Some a => path_btwn_loop d v2 fuel' (path ++ [a]) a
      | None => Throw AttributeError
      end
    end.

(** [get_path_btwn_verts], lines 1226-1235. *)
Definition get_path_btwn_verts (d : Diagram) (fuel : nat) (v1 v2 : VId)
  : Try (list AId) :=
  match out_arrow (vertex d v1) with
  | Some a => path_btwn_loop d v2 fuel [a] a
  | None => Throw AttributeError
  end.

(** [get_vertex_set], lines 1253-1264.  The Python set holds vertex
    objects; it is listed here without repetition, in the order of first
    insertion. *)
Fixpoint vertex_set_loop (d : Diagram) (i len : nat) (path : list AId) : list VId :=
  match path with
  | [] => []
  | a :: rest =>
    (if bool_decide (i = 0%nat) then [aend (arrow d a)]
     else if bool_decide (i = (len - 1)%nat) then [astart (arrow d a)]
     else [astart (arrow d a); aend (arrow d a)])
    ++ vertex_set_loop d (S i) len rest
  end.

Definition get_vertex_set (d : Diagram) (path : list AId) : list VId :=
  remove_dups (vertex_set_loop d 0 (length path) path).

(** [for x in l: body(x)] for a body that may raise. *)
Fixpoint for_each {A} (body : A -> State -> Res unit) (l : list A) (s : State)
  : Res unit :=
  match l with
  | [] => Ret tt s
  | x :: l' => bind (body x s) (fun _ s' => for_each body l' s')
  end.

(** The second R3 click, lines 1287-1301. *)
Definition r3_slide (fuel : nat) (s : State) : Res unit :=
  match r3_crossings s with
  | [c0; c1] =>
    match find_vertex s c0, find_vertex s c1 with
    | Some vert1, Some vert2 =>
      bind (lift_try (get_path_btwn_verts (diagram s) fuel vert1 vert2) s)
        (fun path s =>
           if oriented_path s path then
             let vert_set := get_vertex_set (diagram s) path in
             bind (for_each do_destroy_arrow path s) (fun _ s =>
             bind (for_each do_remove_vertex vert_set s) (fun _ s =>
             goto_drawing_state (set_ActiveVertex (Some vert1) s)))
           else Ret tt s)
    | _, _ => Raise ValueError s
    end
  | _ => Ret tt s
  end.

(** The R3 branch of a click on a vertex, lines 1284-1302. *)
Definition click_r3 (fuel : nat) (p : Pt) (s : State) : Res unit :=
  r3_slide fuel (set_r3_crossings (r3_crossings s ++ [p]) s).

(** The loop that clears the loop of an R1 move, lines 1349-1354 and
    1377-1382. *)
Fixpoint r1_clear_loop (ind len : nat) (path : list AId) (s : State) : Res unit :=
  match path with
  | [] => Ret tt s
  | a :: rest =>
    bind (if negb (bool_decide (ind = (len - 1)%nat))
          then do_remove_vertex (aend (arrow (diagram s) a)) s
          else Ret tt s)
      (fun _ s =>
         bind (do_destroy_arrow a s) (fun _ s => r1_clear_loop (S ind) len rest s))
  end.

(** What both successful branches of R1 do, lines 1345-1371 and 1373-1399:
    clear [path], put the clicked point in as a vertex and join [first] to
    [last] through it. *)
Definition r1_reduce (path : list AId) (first last : VId) (color : Color) (p : Pt)
    (s : State) : Res unit :=
  bind (r1_clear_loop 0 (length path) path s) (fun _ s =>
    let r := new_vertex p color (diagram s) in
    let new_vert := fst r in
    let d1 := set_Vertices (Vertices (snd r) ++ [new_vert]) (snd r) in
    let r1 := new_arrow first new_vert color d1 in
    let r2 := new_arrow new_vert last color (snd r1) in
    let d2 := snd r2 in
    Ret tt (set_diagram (set_Arrows (Arrows d2 ++ [fst r1; fst r2]) d2) s)).

Definition r1_warning : UiEvent :=
  ShowWarning "Not implemented" "Sorry! R1 mode does not work in this setting.".

(** The R1 branch of a click on a crossing, lines 1337-1404. *)
Definition click_r1 (fuel : nat) (p : Pt) (s : State) : Res unit :=
  match crosspoint_index s p with
  | None => Raise ValueError s
  | Some i =>
    match Crossings (diagram s) !! i with
    | None => Raise IndexError s
    | Some crossing =>
      let d := diagram s in
      bind (lift_try (get_over_arrow_path d fuel crossing) s) (fun over_arrow_path s =>
      bind (lift_try (get_under_arrow_path d fuel crossing) s) (fun under_arrow_path s =>
        match over_under_has_crossings d over_arrow_path under_arrow_path crossing with
        | None => Raise ValueError s
        | Some (can_reduce_over, can_reduce_under) =>
          if can_reduce_under then
            r1_reduce under_arrow_path
                      (astart (arrow d (under crossing))) (aend (arrow d (over crossing)))
                      (acolor (arrow d (over crossing))) p s
          else if can_reduce_over then
            r1_reduce over_arrow_path
                      (astart (arrow d (over crossing))) (aend (arrow d (under crossing)))
                      (acolor (arrow d (over crossing))) p s
          else Ret tt (log_event r1_warning s)
        end))
    end
  end.

(** The R2 branch of a click on a crossing, lines 1405-1535.  The first
    click is remembered.  On the second, line 1410 reads [can_reduce_over],
    a local name that only the R1 branch assigns, so the handler stops
    there on either side of the unmerged text that follows. *)
Definition click_r2 (p : Pt) (s : State) : Res unit :=
  let s1 := set_r2_crossings (r2_crossings s ++ [p]) s in
  if bool_decide (length (r2_crossings s1) = 2%nat)
  then Raise UnboundLocalError s1
  else Ret tt s1.

(** ** Clicks on crossings *)

Definition alter_crossing (i : nat) (f : Crossing -> Crossing) (d : Diagram) : Diagram :=
  set_Crossings (alter f i (Crossings d)) d.

(** The last branch of a click on a crossing, lines 1536-1546. *)
Definition click_crossing (p : Pt) (s : State) : Res unit :=
  match crosspoint_index s p with
  | None => Raise ValueError s
  | Some i =>
    match Crossings (diagram s) !! i with
    | None => Raise IndexError s
    | Some crossing =>
      if is_virtual crossing
      then Ret tt (on_diagram (alter_crossing i (with_is_virtual false)) s)
      else Ret tt (on_diagram (alter_crossing i crossing_reverse) s)
    end
  end.

(** [shift_click], lines 944-968. *)
Definition shift_click (p : Pt) (s : State) : Res unit :=
  match style_var s with
  | style_smooth => Ret tt s
  | _ =>
    if lock_var s then Ret tt s
    else
      let focused :=
        match state s with
        | start_state => if has_focus s then Some s else None
        | _ => Some (set_has_focus true s)
        end in
      match focused with
      | None => Ret tt s
      | Some s =>
        match crosspoint_index s p with
        | None => Ret tt s
        | Some i =>
          match Crossings (diagram s) !! i with
          | None => Raise IndexError s
          | Some crossing =>
            Ret tt (on_diagram
                      (alter_crossing i (with_is_virtual (negb (is_virtual crossing)))) s)
          end
        end
      end
  end.

(** ** The click handler *)

(** A click on a vertex outside R3 mode starts a drag, lines 1304-1332. *)
Definition start_dragging (p : Pt) (s : State) : Res unit :=
  let s1 := set_state dragging_state s in
  match find_vertex s1 p with
  | None => Raise ValueError s1
  | Some active =>
    let s2 := on_diagram (set_vertex active (with_vfrozen true))
                         (set_ActiveVertex (Some active) s1) in
    bind (lift_try (active_crossing_data s2) s2) (fun data s2 =>
      let s3 := set_saved_crossing_data (Some data) s2 in
      let v := vertex (diagram s3) active in
      match in_arrow v, out_arrow v with
      | None, None => double_click p s3
      | _, _ =>
        let s4 := match in_arrow v with
                  | Some a => on_diagram (set_arrow a (with_afrozen true)) s3
                  | None => s3
                  end in
        let s5 := match out_arrow v with
                  | Some a => on_diagram (set_arrow a (with_afrozen true)) s4
                  | None => s4
                  end in
        Ret tt (if lock_var s5 then attach_cursor active s5 else s5)
      end)
  end.

(** [clicked_on_arrow], lines 1893-1897. *)
Definition clicked_on_arrow (s : State) (p : Pt) : bool :=
  existsb (fun a => too_close (segment (diagram s) a) p None) (Arrows (diagram s)).

(** A click on an arrow, lines 1547-1584: in vertex mode the arrow is split
    at the clicked point, otherwise its component is reversed. *)
Definition click_arrow (p : Pt) (s : State) : Res unit :=
  let d := diagram s in
  let hits := filter (fun a => too_close (segment d a) p None) (Arrows d) in
  if vertex_mode (modes s) then
    match last hits with
    | None => Raise ValueError s
    | Some selected_arrow =>
      let this_color := acolor (arrow d selected_arrow) in
      let start := astart (arrow d selected_arrow) in
      let end_ := aend (arrow d selected_arrow) in
      bind (do_destroy_arrow selected_arrow s) (fun _ s =>
        let r := new_vertex p this_color (diagram s) in
        let new_vert := fst r in
        let r1 := new_arrow start new_vert this_color (snd r) in
        let r2 := new_arrow new_vert end_ this_color (snd r1) in
        let d2 := snd r2 in
        let d3 := set_Arrows (Arrows d2 ++ [fst r1; fst r2])
                    (set_Vertices (Vertices d2 ++ [new_vert]) d2) in
        let s1 := update_crossings (Some (fst r1)) (set_diagram d3 s) in
        let s2 := update_crossings (Some (fst r2)) s1 in
        Ret tt (update_crosspoints s2))
    end
  else
    match hits with
    | a :: _ => Ret tt (on_diagram (reverse_path (aend (arrow d a))) s)
    | [] => Ret tt s
    end.

(** A click in empty space, lines 1585-1596. *)
Definition click_empty (p : Pt) (s : State) : Res unit :=
  if negb (generic_vertex s None p) then Ret tt (alert s)
  else
    let c := palette_new (palette s) in
    let r := new_vertex p (fst c) (diagram s) in
    let d1 := set_Vertices (Vertices (snd r) ++ [fst r]) (snd r) in
    goto_drawing_state
      (set_ActiveVertex (Some (fst r)) (set_palette (snd c) (set_diagram d1 s))).

(** A click in [start_state], lines 1281-1596. *)
Definition click_start (fuel : nat) (p : Pt) (s : State) : Res unit :=
  let d := diagram s in
  if py_in (fun v => vertex_eq (point d v) p) (Vertices d) then
    if r3_mode (modes s) then click_r3 fuel p s else start_dragging p s
  else if lock_var s then Ret tt s
  else if py_in (fun cp => vertex_eq cp p) (CrossPoints s) then
    if r1_mode (modes s) then click_r1 fuel p s
    else if r2_mode (modes s) then click_r2 p s
    else click_crossing p s
  else if clicked_on_arrow s p then click_arrow p s
  else click_empty p s.

(** Melding the pending arrow into the vertex under the click, lines
    1629-1645 in R3 mode and 1658-1674 otherwise. *)
Definition meld (in_r3 : bool) (active next_arrow : AId) (p : Pt) (s : State)
  : Res unit :=
  bind (lift_try (generic_arrow s (Some next_arrow)) s) (fun ok s =>
    if negb ok then Ret tt (alert s)
    else
      match find_vertex s p with
      | None => Raise ValueError s
      | Some next_vertex =>
        let s1 := if bool_decide (is_Some (in_arrow (vertex (diagram s) next_vertex)))
                  then on_diagram (reverse_path next_vertex) s
                  else s in
        let s2 := on_diagram
                    (fun d => set_vertex next_vertex (with_in_arrow (Some next_arrow))
                                (set_arrow next_arrow (with_aend next_vertex) d)) s1 in
        let next_color := vcolor (vertex (diagram s2) next_vertex) in
        let active_color := vcolor (vertex (diagram s2) active) in
        let s3 := if negb (bool_decide (next_color = active_color))
                  then on_diagram (recolor_incoming next_vertex next_color)
                         (set_palette (palette_recycle active_color (palette s2)) s2)
                  else s2 in
        let s4 := update_crossings (Some next_arrow) s3 in
        if in_r3
        then Ret tt (goto_start_state (set_r3_crossings [] s4))
        else Ret tt (set_r3_helper_tuple None (goto_start_state s4))
      end).

(** Extending the path by the pending arrow, lines 1647-1652, 1677-1682 and
    1684-1692. *)
Definition extend_path (next_vertex : VId) (next_arrow : AId) (p : Pt) (s : State)
  : Res unit :=
  if negb (generic_vertex s (Some next_vertex) p)
  then do_destroy_arrow next_arrow (alert s)
  else
    bind (lift_try (generic_arrow s (Some next_arrow)) s) (fun ok s =>
      if negb ok
      then do_destroy_arrow next_arrow (alert s)
      else
        let s1 := update_crosspoints (update_crossings (Some next_arrow) s) in
        let d1 := diagram s1 in
        Ret tt (set_ActiveVertex (Some next_vertex)
                  (set_diagram (set_Vertices (Vertices d1 ++ [next_vertex]) d1) s1))).

(** Lines 1599 and 1610-1624: the vertex under the click and the pending
    arrow that now ends there; the arrow left over from a failed meld is
    used again, otherwise a new one is made and listed. *)
Definition set_up_arrow (active : VId) (p : Pt) (d : Diagram) : VId * AId * Diagram :=
  let r := new_vertex p Vertex_default_color d in
  let next_vertex := fst r in
  let r' :=
    match out_arrow (vertex d active) with
    | Some next_arrow =>
      (next_arrow,
       set_vertex next_vertex (with_in_arrow (Some next_arrow))
         (set_arrow next_arrow (with_aend next_vertex) (snd r)))
    | None =>
      let na := new_arrow active next_vertex (vcolor (vertex d active)) (snd r) in
      (fst na, set_Arrows (Arrows (snd na) ++ [fst na]) (snd na))
    end in
  let next_arrow := fst r' in
  (next_vertex, next_arrow,
   set_vertex next_vertex (with_vcolor (acolor (arrow (snd r') next_arrow))) (snd r')).

(** A click in [drawing_state], lines 1597-1693. *)
Definition click_drawing (p : Pt) (s : State) : Res unit :=
  match ActiveVertex s with
  | None => Raise AttributeError s
  | Some active =>
    let d := diagram s in
    if vertex_eq p (point d active) then
      match out_arrow (vertex d active) with
      | Some dead_arrow =>
        bind (do_destroy_arrow dead_arrow s) (fun _ s' => Ret tt (goto_start_state s'))
      | None => Ret tt (goto_start_state s)
      end
    else
      let r := set_up_arrow active p d in
      let next_vertex := fst (fst r) in
      let next_arrow := snd (fst r) in
      let s1 := set_diagram (snd r) s in
      if r3_mode (modes s1) then
        match r3_crossings s1 !! 1%nat with
        | None => Raise IndexError s1
        | Some c1 =>
          if vertex_eq p c1 then meld true active next_arrow p s1
          else extend_path next_vertex next_arrow p s1
        end
      else
        if py_in (fun w => vertex_eq (point (diagram s1) w) p)
                 (filter (is_endpoint (diagram s1)) (Vertices (diagram s1)))
        then meld false active next_arrow p s1
        else extend_path next_vertex next_arrow p s1
  end.

(** [single_click], lines 1266-1698, for a click at [p]. *)
Definition single_click (fuel : nat) (p : Pt) (s : State) : Res unit :=
  match style_var s with
  | style_smooth => Ret tt s
  | _ =>
    match state s with
    | start_state => if negb (has_focus s) then Ret tt s else click_start fuel p s
    | drawing_state => click_drawing p (set_has_focus true s)
    | dragging_state =>
      match end_dragging_state (set_has_focus true s) with
      | Raise ValueError s' => Ret tt (alert s')
      | r => r
      end
    end
  end.

(** The mode keys of [_key_press], lines 686-805. *)
Definition key_press_mode (k : ModeKey) (s : State) : State :=
  set_modes (press_mode_key k (modes s)) s.

(** ** Sessions *)

(** What the user does, one event at a time. *)
Inductive Gesture :=
| Click (p : Pt)
| ShiftClick (p : Pt)
| DoubleClick (p : Pt)
| MoveTo (x y : Q)
| ModeKeyPress (k : ModeKey).

Definition gesture (fuel : nat) (g : Gesture) (s : State) : Res unit :=
  match g with
  | Click p => single_click fuel p s
  | ShiftClick p => shift_click p s
  | DoubleClick p => double_click p s
  | MoveTo x y =>
    match state s with
    | dragging_state => move_active x y s
    | _ => Ret tt s
    end
  | ModeKeyPress k => Ret tt (key_press_mode k s)
  end.

(** The event loop goes on after a handler has raised; the state is then
    the one the handler left behind. *)
Fixpoint run (fuel : nat) (gs : list Gesture) (s : State) : option State :=
  match gs with
  | [] => Some s
  | g :: gs' =>
    match final (gesture fuel g s) with
    | Some s' => run fuel gs' s'
    | None => None
    end
  end.

(** Number of stored crossings. *)
Definition crossing_count (s : State) : nat := length (Crossings (diagram s)).

End Editor.

Arguments State Palette : clear implicits.
Arguments Collaborators Palette : clear implicits.
Arguments Res Palette A : clear implicits.
Arguments Ret {Palette A} a s.
Arguments Raise {Palette A} e s.
Arguments OutOfFuel {Palette A}.

(** ** An instance of the collaborators, written from the specification *)

Module SpecModel.

(** Modelled from the spec: the tolerance [epsilon] of vertex.py and
    arrow.py, neither of which is among the sources.  The specification
    leaves its value open; the examples below keep every distance either
    zero or far above it. *)
Definition epsilon : Q := 8.

Definition Qltb (a b : Q) : bool := negb (Qle_bool b a).

Definition sqdist (p q : Pt) : Q :=
  Qred ((fst p - fst q) * (fst p - fst q) + (snd p - snd q) * (snd p - snd q)).

Definition near (tol : Q) (p q : Pt) : bool := Qltb (sqdist p q) (tol * tol).

(** Modelled from the spec: [Vertex.__eq__] of vertex.py: two vertices
    coincide within the tolerance. *)
Definition vertex_eq (p q : Pt) : bool := near epsilon p q.

Definition vec (s : Seg) : Pt :=
  (fst (snd s) - fst (fst s), snd (snd s) - snd (fst s))%Q.

Definition cross (u v : Pt) : Q := (fst u * snd v - snd u * fst v)%Q.

Definition at_param (s : Seg) (t : Q) : Pt :=
  (Qred (fst (fst s) + t * fst (vec s)), Qred (snd (fst s) + t * snd (vec s))).

(** Modelled from the spec: the intersection test of section 4.2.  Both
    arrows are segments; the parameters of the intersection come from the
    determinant parametrization. *)
Definition intersection_params (a b : Seg) : option (Q * Q) :=
  let D := cross (vec a) (vec b) in
  if Qeq_bool D 0 then None
  else
    let w := (fst (fst b) - fst (fst a), snd (fst b) - snd (fst a))%Q in
    Some (Qred (cross w (vec b) / D), Qred (cross w (vec a) / D)).

Definition in_open_unit (t : Q) : bool := Qltb 0 t && Qltb t 1.

(** Modelled from the spec: [Arrow.__xor__] of arrow.py: the parameter along
    the first arrow when both parameters lie in the open unit interval. *)
Definition arrow_xor (a b : Seg) : option Q :=
  match intersection_params a b with
  | Some (s, t) => if in_open_unit s && in_open_unit t then Some s else None
  | None => None
  end.

(** Modelled from the spec: [Crossing.locate] of crossings.py: the crossing
    is proper when both parameters are interior and the point is farther
    than the tolerance from the vertices of the two arrows. *)
Definition crossing_locate (o u : Seg) : option Pt :=
  match arrow_xor o u with
  | Some s =>
    let pt := at_param o s in
    if near epsilon pt (fst o) || near epsilon pt (snd o) ||
       near epsilon pt (fst u) || near epsilon pt (snd u)
    then None
    else Some pt
  | None => None
  end.

Definition clamp01 (t : Q) : Q :=
  if Qltb t 0 then 0 else if Qltb 1 t then 1 else t.

(** Modelled from the spec: [Arrow.too_close] of arrow.py: the arrow passes
    within the tolerance of a vertex that is not one of its own ends. *)
Definition too_close (s : Seg) (p : Pt) (tolerance : option Q) : bool :=
  let e := default epsilon tolerance in
  if near epsilon p (fst s) || near epsilon p (snd s) then false
  else
    let d := vec s in
    let len2 := (fst d * fst d + snd d * snd d)%Q in
    if Qeq_bool len2 0 then near e p (fst s)
    else
      let t := (((fst p - fst (fst s)) * fst d + (snd p - snd (fst s)) * snd d) / len2)%Q in
      near e p (at_param s (clamp01 t)).

(** Modelled from the spec: [LinkManager.update_crosspoints] of manager.py:
    every stored crossing is located again; the hit points are those of the
    crossings that have a location. *)
Definition relocate_crosspoints (d : Diagram) : list Crossing * list Pt :=
  let cs :=
    omap (fun c =>
            match crossing_locate (segment d (over c)) (segment d (under c)) with
            | Some pt => Some (with_cloc (Some pt) c)
            | None => None
            end) (Crossings d) in
  (cs, omap cloc cs).

(** Modelled from the spec: the palette of colors.py, as the list of the
    colours that are free. *)
Definition Palette : Type := list Color.

Definition palette_new (p : Palette) : Color * Palette :=
  match p with
  | c :: p' => (c, p')
  | [] => ("black", [])
  end.

Definition palette_recycle (c : Color) (p : Palette) : Palette := p ++ [c].

(** The arrows of the component of [v]: those met by following [in_arrow]
    backwards and [out_arrow] forwards. *)
Fixpoint walk_back (d : Diagram) (fuel : nat) (v : VId) (acc : list AId) : list AId :=
  match fuel with
  | O => acc
  | S fuel' =>
    match in_arrow (vertex d v) with
    | Some a => if arrow_in a acc then acc
                else walk_back d fuel' (astart (arrow d a)) (a :: acc)
    | None => acc
    end
  end.

Fixpoint walk_forth (d : Diagram) (fuel : nat) (v : VId) (acc : list AId) : list AId :=
  match fuel with
  | O => acc
  | S fuel' =>
    match out_arrow (vertex d v) with
    | Some a => if arrow_in a acc then acc
                else walk_forth d fuel' (aend (arrow d a)) (acc ++ [a])
    | None => acc
    end
  end.

Definition component_arrows (d : Diagram) (v : VId) : list AId :=
  walk_forth d (length (Arrows d)) v (walk_back d (length (Arrows d)) v []).

Definition component_vertices (d : Diagram) (v : VId) : list VId :=
  remove_dups (v :: flat_map (fun a => [astart (arrow d a); aend (arrow d a)])
                             (component_arrows d v)).

(** Modelled from the spec: [Vertex.reverse_path] of vertex.py: every arrow of
    the component changes direction. *)
Definition reverse_path (v : VId) (d : Diagram) : Diagram :=
  let arrows := component_arrows d v in
  let verts := component_vertices d v in
  let d1 := foldr (fun a d' =>
                     set_arrow a (fun x => mkArrow (aend x) (astart x) (acolor x) (afrozen x)) d')
                  d arrows in
  foldr (fun w d' =>
           set_vertex w (fun x => mkVertex (vx x) (vy x) (vcolor x) (out_arrow x)
                                           (in_arrow x) (vfrozen x) (vdelta x)) d')
        d1 verts.

(** Modelled from the spec: [Vertex.recolor_incoming] of vertex.py: the
    vertex and what leads to it take the colour. *)
Definition recolor_incoming (v : VId) (c : Color) (d : Diagram) : Diagram :=
  let arrows := walk_back d (length (Arrows d)) v [] in
  let d1 := foldr (fun a d' => set_arrow a (with_acolor c) d') d arrows in
  foldr (fun w d' => set_vertex w (with_vcolor c) d') d1
        (v :: map (fun a => astart (arrow d a)) arrows).

Definition recolor_incoming_new (v : VId) (d : Diagram) (p : Palette)
  : Diagram * Palette :=
  let c := palette_new p in
  (recolor_incoming v (fst c) d, snd c).

(** Modelled from the spec: [Vertex.swallow] of vertex.py: the dragged
    endpoint takes over the arrow of the endpoint it was dropped on, after
    the other path is reversed if both paths end there. *)
Definition swallow (active other : VId) (d : Diagram) (p : Palette)
  : Diagram * Palette :=
  let d1 :=
    if bool_decide (is_Some (in_arrow (vertex d active)))
    then if bool_decide (is_Some (in_arrow (vertex d other)))
         then reverse_path other d else d
    else if bool_decide (is_Some (out_arrow (vertex d other)))
         then reverse_path other d else d in
  let d2 :=
    match in_arrow (vertex d1 active), out_arrow (vertex d1 other), in_arrow (vertex d1 other) with
    | Some _, Some a, _ =>
      set_vertex active (with_out_arrow (Some a))
        (set_arrow a (fun x => mkArrow active (aend x) (acolor x) (afrozen x)) d1)
    | None, _, Some a =>
      set_vertex active (with_in_arrow (Some a)) (set_arrow a (with_aend active) d1)
    | _, _, _ => d1
    end in
  (d2, p).

(** In this instance a redraw keeps the colours that the vertices and
    arrows have. *)
Definition full_redraw_paint (d : Diagram) (p : Palette)
  : (VId -> option Color) * (AId -> option Color) * Palette :=
  (fun _ => None, fun _ => None, p).

#[global] Instance spec_collaborators : Collaborators Palette :=
  @Build_Collaborators Palette vertex_eq arrow_xor crossing_locate too_close epsilon
    "black" relocate_crosspoints palette_new palette_recycle full_redraw_paint
    reverse_path recolor_incoming recolor_incoming_new swallow.

End SpecModel.

(** ** Concrete sessions *)

Module Scenario.
Import SpecModel.

(** The editor as [__init__] leaves it. *)
Definition initial : State Palette :=
  mkState (mkDiagram ∅ ∅ [] [] []) [] None start_state style_pl false true
          (mkModes false false false false false false) [] [] None None false 0 0
          ["red"; "green"; "blue"; "orange"] [].

Definition pt (x y : Z) : Pt := (inject_Z x, inject_Z y).

(** The state a session ends in. *)
Definition the (o : option (State Palette)) : State Palette := default initial o.

(** The state a handler leaves behind. *)
Definition after (r : Res Palette unit) : State Palette := default initial (final r).

(** A closed curve through (0,0), (400,400), (400,0), (0,400) that crosses
    itself at (200,200), and a second arc from (40,160) to (160,40) across
    its first arrow. *)
Definition draw_figure_eight : list Gesture :=
  [Click (pt 0 0); Click (pt 400 400); Click (pt 400 0); Click (pt 0 400);
   Click (pt 0 0);
   Click (pt 40 160); Click (pt 160 40); Click (pt 160 40)].

Definition figure_eight : option (State Palette) := run 10 draw_figure_eight initial.

(** The same session followed by the key 1 and a click on the
    self-crossing. *)
Definition figure_eight_r1 : option (State Palette) :=
  run 10 (draw_figure_eight ++ [ModeKeyPress key_1; Click (pt 200 200)]) initial.

(** An open path through (0,0), (100,50), (200,0), (300,50) without any
    crossing, then the key 3 and clicks on its two ends. *)
Definition draw_zigzag : list Gesture :=
  [Click (pt 0 0); Click (pt 100 50); Click (pt 200 0); Click (pt 300 50);
   Click (pt 300 50)].

Definition zigzag : option (State Palette) := run 10 draw_zigzag initial.

Definition zigzag_r3 : option (State Palette) :=
  run 10 (draw_zigzag ++ [ModeKeyPress key_3; Click (pt 0 0); Click (pt 300 50)]) initial.

(** Three isolated vertices on a line: (200,0), (100,0) and (0,0); the
    path that starts at (0,0) is then closed onto (200,0), straight
    through (100,0). *)
Definition draw_three_dots : list Gesture :=
  [Click (pt 200 0); Click (pt 200 0); Click (pt 100 0); Click (pt 100 0);
   Click (pt 0 0)].

Definition three_dots : option (State Palette) := run 10 draw_three_dots initial.

Definition three_dots_meld : option (State Palette) :=
  run 10 (draw_three_dots ++ [Click (pt 200 0)]) initial.

(** An arc from (100,-100) to (100,100), and a path (0,0), (200,50),
    (400,0) whose first arrow passes over it. *)
Definition draw_strand : list Gesture :=
  [Click (pt 100 (-100)); Click (pt 100 100); Click (pt 100 100);
   Click (pt 0 0); Click (pt 200 50); Click (pt 400 0); Click (pt 400 0)].

Definition strand : option (State Palette) := run 10 draw_strand initial.




(** A path (0,0), (200,50), (400,0), and then an arc from (100,-100) to
    (100,100) drawn over its first arrow. *)
Definition draw_understrand : list Gesture :=
  [Click (pt 0 0); Click (pt 200 50); Click (pt 400 0); Click (pt 400 0);
   Click (pt 100 (-100)); Click (pt 100 100); Click (pt 100 100)].


(** Key 3 and clicks on the two ends of the path. *)
Definition understrand_r3 : option (State Palette) :=
  run 10 (draw_understrand ++ [ModeKeyPress key_3; Click (pt 0 0); Click (pt 400 0)])
      initial.



(** The zigzag with its first vertex picked up for a drag, and the same
    with "Preserve diagram" ticked in the Tools menu. *)
Definition zigzag_dragging : option (State Palette) :=
  run 10 (draw_zigzag ++ [Click (pt 0 0)]) initial.

Definition with_lock (s : State Palette) : State Palette :=
  mkState (diagram s) (CrossPoints s) (ActiveVertex s) (state s) (style_var s) true
    (has_focus s) (modes s) (r2_crossings s) (r3_crossings s) (r3_helper_tuple s)
    (saved_crossing_data s) (cursor_attached s) (cursorx s) (cursory s)
    (palette s) (ui_log s).

Definition zigzag_locked_drag : option (State Palette) :=
  run 10 [Click (pt 0 0)] (with_lock (the zigzag)).



(** The figure eight in R1 mode. *)
Definition figure_eight_r1_mode : State Palette :=
  key_press_mode key_1 (the figure_eight).

(** The strand after a shift-click on its crossing. *)
Definition strand_virtual : option (State Palette) :=
  run 10 (draw_strand ++ [ShiftClick (pt 100 25)]) initial.

End Scenario.


(** ** Crossings against geometry *)

Section Readings.
Context {Palette : Type} {collab : Collaborators Palette}.

(** Some stored crossing joins the arrows [a] and [b]. *)
Definition joined (cs : list Crossing) (a b : AId) : bool :=
  py_in (fun c => crossing_eq c (mkCrossing a b None false)) cs.

(** The segments of [a] and [b] intersect properly. *)
Definition proper (d : Diagram) (a b : AId) : bool :=
  bool_decide (is_Some (crossing_locate (segment d a) (segment d b))).

(** The stored crossings are exactly the properly intersecting pairs of
    distinct listed arrows. *)
Definition crossings_match_geometry (d : Diagram) : bool :=
  forallb (fun c => arrow_in (over c) (Arrows d) && arrow_in (under c) (Arrows d))
          (Crossings d) &&
  forallb (fun a =>
             forallb (fun b =>
                        bool_decide (joined (Crossings d) a b =
                                     negb (bool_decide (a = b)) && proper d a b))
                     (Arrows d))
          (Arrows d).

(** Whether two segments intersect properly does not depend on which of
    them is taken first. *)
Definition proper_symmetric (d : Diagram) : bool :=
  forallb (fun a =>
             forallb (fun b => bool_decide (proper d a b = proper d b a)) (Arrows d))
          (Arrows d).

(** No two stored crossings join the same pair of arrows. *)
Fixpoint one_crossing_per_pair (cs : list Crossing) : bool :=
  match cs with
  | [] => true
  | c :: cs' => negb (py_in (fun c' => crossing_eq c' c) cs') && one_crossing_per_pair cs'
  end.




(** The crossing joins the arrows [x] and [y], in either role. *)
Definition joins (c : Crossing) (x y : AId) : Prop :=
  (over c = x /\ under c = y) \/ (over c = y /\ under c = x).

(** Some crossing of the list joins [x] and [y]: [joined] as a proposition. *)
Definition pairs (cs : list Crossing) (x y : AId) : Prop :=
  exists c, c ∈ cs /\ joins c x y.

(** [update_crossings], run for [a], finds a crossing point with [b]. *)
Definition meets (s : State Palette) (a b : AId) : bool :=
  bool_decide (is_Some (cloc (new_crossing s a b))).

(** *** The roles of an arrow in the stored crossings *)

Definition occurs_over (s : State Palette) (a : AId) : bool :=
  existsb (fun c => bool_decide (a = over c)) (Crossings (diagram s)).

Definition occurs_under (s : State Palette) (a : AId) : bool :=
  existsb (fun c => bool_decide (a = under c)) (Crossings (diagram s)).





(** ** Saving and loading

    Modelled from the spec: the persistence layer of section 6, which is
    not among the sources ([LinkManager] lives in manager.py).  It stores
    the flat list of vertex positions and colours and the pairs of endpoint
    indices of the arrows, and no crossing. *)

Record SavedLink := mkSavedLink {
  saved_vertices : list (Pt * Color);
  saved_arrows : list (nat * nat)
}.

Definition vertex_index (d : Diagram) (v : VId) : option nat :=
  py_index (fun w => bool_decide (w = v)) (Vertices d).

(** Modelled from the spec: serializing the geometry. *)
Definition save (d : Diagram) : option SavedLink :=
  match mapM (fun a =>
                match vertex_index d (astart (arrow d a)),
                      vertex_index d (aend (arrow d a)) with
                | Some i, Some j => Some (i, j)
                | _, _ => None
                end) (Arrows d) with
  | Some l =>
    Some (mkSavedLink (map (fun v => (point d v, vcolor (vertex d v))) (Vertices d)) l)
  | None => None
  end.

(** Modelled from the spec: loading.  Vertices and arrows are numbered in
    the order of the file; an arrow hangs on the vertices at its two
    indices. *)
Definition load_vertex (arrows : list (nat * nat)) (i : nat) (pc : Pt * Color) : Vertex :=
  mkVertex (fst (fst pc)) (snd (fst pc)) (snd pc)
           (py_index (fun se => bool_decide (snd se = i)) arrows)
           (py_index (fun se => bool_decide (fst se = i)) arrows)
           false 2.

Definition load_arrow (vertices : list (Pt * Color)) (se : nat * nat) : Arrow :=
  mkArrow (fst se) (snd se)
          (match vertices !! fst se with Some pc => snd pc | None => "black" end)
          false.

Fixpoint store_from {B} (n : nat) (l : list B) : gmap nat B :=
  match l with
  | [] => ∅
  | x :: l' => <[n := x]> (store_from (S n) l')
  end.

Definition load (g : SavedLink) : Diagram :=
  mkDiagram
    (store_from 0 (imap (load_vertex (saved_arrows g)) (saved_vertices g)))
    (store_from 0 (map (load_arrow (saved_vertices g)) (saved_arrows g)))
    (seq 0 (length (saved_vertices g)))
    (seq 0 (length (saved_arrows g)))
    [].

(** Modelled from the spec: recomputing every crossing from the geometry,
    by a round of [update_crossings] for each arrow in turn. *)
Definition recompute_crossings (s : State Palette) : State Palette :=
  fold_left (fun s' a => update_crossings (Some a) s') (Arrows (diagram s)) s.

(** The editor after the link was saved, loaded and its crossings were
    computed again. *)
Definition reloaded (s : State Palette) (g : SavedLink) : State Palette :=
  recompute_crossings (set_diagram (load g) s).

(** A crossing as a file would show it: the list positions of its arrows
    and its flag. *)
Definition crossing_record (d : Diagram) (c : Crossing) : option (nat * nat * bool) :=
  match py_index (fun a => bool_decide (a = over c)) (Arrows d),
        py_index (fun a => bool_decide (a = under c)) (Arrows d) with
  | Some i, Some j => Some (i, j, is_virtual c)
  | _, _ => None
  end.

(** ** Notions used in the proofs *)

(** Two diagrams with the same arrows in the same places. *)
Definition same_shape (d d' : Diagram) : Prop :=
  Arrows d = Arrows d' /\
  (forall a, segment d a = segment d' a) /\
  (forall v, in_arrow (vertex d v) = in_arrow (vertex d' v) /\
             out_arrow (vertex d v) = out_arrow (vertex d' v)).

(** The states that differ from [s] in the stored crossings and their hit
    points only. *)
Definition only_crossings (s s' : State Palette) : Prop :=
  exists cs pts, s' = set_CrossPoints pts (on_diagram (set_Crossings cs) s).

(** A property of the state holds wherever the handler leaves it. *)
Definition ends_in {A} (P : State Palette -> Prop) (m : Res Palette A) : Prop :=
  match m with
  | Ret _ s => P s
  | Raise _ s => P s
  | OutOfFuel => True
  end.

(** The one-shot helper of R3 is not set. *)
Definition helper_unset (s : State Palette) : Prop := r3_helper_tuple s = None.

(** The pairs that are stored when [update_crossings], called in state [s]
    for the arrow [a], has dealt with the arrows [done] of the diagram: a
    pair of [a] with one of them is stored exactly when a crossing point
    was found, every other pair is stored exactly when it was before. *)
Definition expected (s : State Palette) (a : AId) (done : list AId) (x y : AId) : Prop :=
  if decide (x = a /\ y <> a /\ y ∈ done) then meets s a y = true
  else if decide (y = a /\ x <> a /\ x ∈ done) then meets s a x = true
  else pairs (Crossings (diagram s)) x y.

(** No stored crossing is virtual. *)
Definition not_virtual (cs : list Crossing) : Prop := Forall (fun c => is_virtual c = false) cs.

(** The pairs stored after the arrows [T] had their round of
    [update_crossings], starting without any crossing. *)
Definition recomputed (d : Diagram) (T : list AId) (x y : AId) : Prop :=
  x <> y /\ x ∈ Arrows d /\ y ∈ Arrows d /\ (x ∈ T \/ y ∈ T) /\ proper d x y = true.

End Readings.

(** ** Notions used for the helpers of the Reidemeister moves *)

(** Each arrow of the list is followed by the outgoing arrow of its end
    vertex. *)
Definition chained (d : Diagram) (path : list AId) : Prop :=
  forall i b c, path !! i = Some b -> path !! S i = Some c ->
                out_arrow (vertex d (aend (arrow d b))) = Some c.

(** ** The label of the mode that is on *)

#[global] Instance ModeKey_eq_dec : EqDecision ModeKey.
Proof. solve_decision. Defined.

(** The text that [_key_press] puts on the canvas for a mode. *)
Definition mode_label (k : ModeKey) : string :=
  match k with
  | key_v => "vertex mode"
  | key_u => "under mode"
  | key_1 => "r1 mode"
  | key_2 => "r2 mode"
  | key_3 => "r3 mode"
  end.

(** The mode keys of [_key_press], lines 686-805, together with
    [self.modes_draw], the canvas items that show the mode, each standing
    here for its text.  [self.modes_draw[0]] raises [IndexError] on the
    empty list. *)
Definition press_mode_key_drawn (k : ModeKey) (md : Modes * list string)
  : Try (Modes * list string) :=
  let m := fst md in
  let modes_draw := snd md in
  if mode_flag k m then
    match modes_draw with
    | [] => Throw IndexError
    | _ :: _ => Val (with_mode_flag k false false m, [])
    end
  else if modes_on m then
    match modes_draw with
    | [] => Throw IndexError
    | _ :: _ =>
      Val (with_mode_flag k true true
             (mkModes false false false false false (modes_on m)),
           [mode_label k])
    end
  else Val (with_mode_flag k true true m, modes_draw ++ [mode_label k]).

(** A run of mode keys. *)
Fixpoint press_mode_keys (ks : list ModeKey) (md : Modes * list string)
  : Try (Modes * list string) :=
  match ks with
  | [] => Val md
  | k :: ks' =>
    match press_mode_key_drawn k md with
    | Val md' => press_mode_keys ks' md'
    | Throw e => Throw e
    | Diverge => Diverge
    end
  end.

(** The flags and the label agree: no mode is on and nothing is shown, or
    one mode is on, alone, and its label is what is shown. *)
Definition mode_display_ok (md : Modes * list string) : Prop :=
  (fst md = mkModes false false false false false false /\ snd md = []) \/
  exists k, fst md = with_mode_flag k true true
                       (mkModes false false false false false false) /\
            snd md = [mode_label k].

Section MoreNotions.
Context {Palette : Type} {collab : Collaborators Palette}.

(** ** The end of a drag *)

(** Lines 1945-1950 of [end_dragging_state]: in locked mode the cursor is
    let go and the saved signature dropped; otherwise the dragged vertex is
    put where the cursor is. *)
Definition settle_drag (active : VId) (s : State Palette) : State Palette :=
  if lock_var s
  then set_saved_crossing_data None (detach_cursor active s)
  else set_active_xy active (cursorx s, cursory s) s.

(** [c_list] of lines 1999-2001: the arrows crossed by the incoming and by
    the outgoing arrow of the dragged vertex. *)
Definition crossed_by_active (active : VId) (s : State Palette) : list nat :=
  let v := vertex (diagram s) active in
  crossed_arrows (diagram s) (in_arrow v) [in_arrow v] ++
  crossed_arrows (diagram s) (out_arrow v) [out_arrow v].

(** ** The Delete key *)


(** ** The Tools menu *)

(** [reflect], lines 908-915: every crossing is reversed. *)
Definition reflect (s : State Palette) : State Palette :=
  on_diagram (fun d => set_Crossings (crossing_reverse <$> Crossings d) d) s.

(** ** Closing the window *)

(** The loop of [_warn_arcs], lines 861-870, over the vertices that are
    left; [answers] are the answers that the user will give to
    [askretrycancel], retry being [true].  The result tells whether 'oops'
    is returned, and which answers have not been asked for. *)
Fixpoint warn_arcs_loop (d : Diagram) (vs : list VId) (answers : list bool)
  : bool * list bool :=
  match vs with
  | [] => (false, answers)
  | vertex :: rest =>
    if is_endpoint d vertex then
      match answers with
      | true :: answers' => (true, answers')
      | false :: answers' => (false, answers')
      | [] => (false, [])
      end
    else warn_arcs_loop d rest answers
  end.

(** [_warn_arcs], lines 859-870. *)
Definition warn_arcs (no_arcs : bool) (d : Diagram) (answers : list bool)
  : bool * list bool :=
  if no_arcs then warn_arcs_loop d (Vertices d) answers else (false, answers).

(** [LinkEditor.done], lines 872-881: whether the window is destroyed. *)
Definition done (no_arcs : bool) (d : Diagram) (answers : list bool) : bool :=
  negb (fst (warn_arcs no_arcs d answers)).

End MoreNotions.

(** ** More sessions *)

Module MoreScenario.
Import SpecModel Scenario.




(** The zigzag in vertex mode, at rest and with its first vertex picked
    up. *)
Definition zigzag_vertex_mode : State Palette := key_press_mode key_v (the zigzag).
Definition zigzag_dragging_vertex_mode : State Palette :=
  key_press_mode key_v (the zigzag_dragging).

(** The state that a handler with a verdict leaves behind. *)
Definition left_by (r : Res Palette bool) : State Palette := default initial (final r).

End MoreScenario.

(** * Properties of the editor *)

Section EditorFacts.
Context {Palette : Type} {collab : Collaborators Palette}.
Implicit Types s : State Palette.

(** ** What the crossing detector leaves alone *)

Lemma update_crossings_diagram a s :
  exists cs, diagram (update_crossings a s) = set_Crossings cs (diagram s) /\
             update_crossings a s = on_diagram (set_Crossings cs) s.
Proof.
  destruct a as [a|]; simpl.
  - eexists; split; reflexivity.
  - exists (Crossings (diagram s)). destruct s as [[]]; split; reflexivity.
Qed.

Lemma update_crosspoints_diagram s :
  diagram (update_crosspoints s) =
  set_Crossings (fst (relocate_crosspoints (diagram s))) (diagram s).
Proof. reflexivity. Qed.


Lemma vertex_update_crossings a s v :
  vertex (diagram (update_crossings a s)) v = vertex (diagram s) v.
Proof. destruct (update_crossings_diagram a s) as (cs & -> & _). reflexivity. Qed.

Lemma vertex_update_crosspoints s v :
  vertex (diagram (update_crosspoints s)) v = vertex (diagram s) v.
Proof. reflexivity. Qed.

Lemma ActiveVertex_update_crossings a s :
  ActiveVertex (update_crossings a s) = ActiveVertex s.
Proof. destruct a; reflexivity. Qed.

Lemma Ret_inj {A} (a b : A) s s' : @Ret Palette A a s = Ret b s' -> s = s'.
Proof. congruence. Qed.

Lemma py_index_py_in {A} (f : A -> bool) (l : list A) i :
  py_index f l = Some i -> py_in f l = true.
Proof.
  revert i; induction l as [|x l IH]; intros i; simpl; [discriminate|].
  destruct (f x); [reflexivity|]. simpl.
  destruct (py_index f l) as [j|] eqn:E; [|discriminate]. intros _. eauto.
Qed.

Lemma py_index_lookup {A} (f : A -> bool) (l : list A) i :
  py_index f l = Some i -> exists x, l !! i = Some x /\ f x = true.
Proof.
  revert i; induction l as [|x l IH]; intros i; simpl; [discriminate|].
  destruct (f x) eqn:Fx.
  - intros [= <-]. eauto.
  - destruct (py_index f l) as [j|] eqn:E; simpl; [|discriminate].
    intros [= <-]. destruct (IH j eq_refl) as (y & ? & ?). eauto.
Qed.

(** ** C9 *)

(** C9.  [generic_arrow] applied to [None] returns [True].  Hence, at a drag
    commit of a vertex without incoming arrow, the verdict of [verify_drag]
    is the verdict of [generic_arrow] on the outgoing arrow alone, and the
    other way round for a vertex without outgoing arrow: the check of the
    absent arrow passes, it neither fails nor raises. *)
Theorem generic_arrow_none_passes :
  (forall s, generic_arrow s None = Val true) /\
  (forall s active,
      ActiveVertex s = Some active ->
      in_arrow (vertex (diagram s) active) = None ->
      let s3 := update_crosspoints
                  (update_crossings (out_arrow (vertex (diagram s) active)) s) in
      verify_drag s =
      lift_try (generic_arrow s3 (out_arrow (vertex (diagram s) active))) s3) /\
  (forall s active,
      ActiveVertex s = Some active ->
      out_arrow (vertex (diagram s) active) = None ->
      let s3 := update_crosspoints
                  (update_crossings (in_arrow (vertex (diagram s) active)) s) in
      verify_drag s =
      lift_try (generic_arrow s3 (in_arrow (vertex (diagram s) active))) s3).
Proof.
  split; [reflexivity|]. split.
  - intros s active Hact Hin s3. unfold verify_drag. rewrite Hact, Hin.
    cbn [update_crossings]. rewrite !vertex_update_crosspoints, !vertex_update_crossings.
    rewrite Hin. cbn [generic_arrow lift_try bind].
    rewrite !vertex_update_crosspoints, !vertex_update_crossings. reflexivity.
  - intros s active Hact Hout s3. unfold verify_drag. rewrite Hact.
    rewrite !vertex_update_crossings, Hout. cbn [update_crossings].
    rewrite !vertex_update_crosspoints, !vertex_update_crossings.
    fold s3. destruct (generic_arrow s3 _) as [[]| |]; cbn [lift_try bind]; try reflexivity.
    subst s3. rewrite !vertex_update_crosspoints, !vertex_update_crossings, Hout.
    reflexivity.
Qed.

(** ** C10 *)

(** C10.  A plain click on a crossing, outside R1 and R2 mode, never sets
    the virtual flag.  On a virtual crossing it only clears [is_virtual] and
    keeps over and under; on any other crossing it only swaps over and
    under, and [is_virtual] stays [False]; no other crossing changes.  A
    shift-click on the same crossing is what turns the flag on. *)
Theorem plain_click_never_sets_virtual (fuel : nat) (p : Pt) s (i : nat) (c : Crossing) :
  style_var s <> style_smooth ->
  state s = start_state ->
  has_focus s = true ->
  lock_var s = false ->
  py_in (fun v => vertex_eq (point (diagram s) v) p) (Vertices (diagram s)) = false ->
  crosspoint_index s p = Some i ->
  Crossings (diagram s) !! i = Some c ->
  r1_mode (modes s) = false ->
  r2_mode (modes s) = false ->
  exists s',
    single_click fuel p s = Ret tt s' /\
    s' = on_diagram (set_Crossings (Crossings (diagram s'))) s /\
    Crossings (diagram s') !! i =
      Some (if is_virtual c
            then mkCrossing (over c) (under c) (cloc c) false
            else mkCrossing (under c) (over c) (cloc c) false) /\
    (forall j, j <> i -> Crossings (diagram s') !! j = Crossings (diagram s) !! j) /\
    (forall j cj, Crossings (diagram s') !! j = Some cj -> is_virtual cj = true ->
                  exists c0, Crossings (diagram s) !! j = Some c0 /\ is_virtual c0 = true) /\
    exists s'',
      shift_click p s = Ret tt s'' /\
      Crossings (diagram s'') !! i =
        Some (mkCrossing (over c) (under c) (cloc c) (negb (is_virtual c))).
Proof.
  intros Hstyle Hstate Hfocus Hlock Hvert Hidx Hc Hr1 Hr2.
  pose proof (py_index_py_in _ _ _ Hidx) as Hin.
  exists (on_diagram
            (alter_crossing i (if is_virtual c then with_is_virtual false
                               else crossing_reverse)) s).
  assert (Hclick : single_click fuel p s =
                   Ret tt (on_diagram
                             (alter_crossing i (if is_virtual c then with_is_virtual false
                                                else crossing_reverse)) s)).
  { unfold single_click. rewrite Hstate, Hfocus. cbn [negb].
    unfold click_start. rewrite Hvert, Hlock, Hin, Hr1, Hr2.
    unfold click_crossing. rewrite Hidx, Hc.
    destruct (style_var s); try congruence; destruct (is_virtual c); reflexivity. }
  split; [exact Hclick|].
  split; [destruct s as [[]]; reflexivity|].
  cbn [diagram on_diagram set_diagram alter_crossing set_Crossings Crossings].
  split.
  { rewrite list_lookup_alter_eq, Hc.
    destruct (is_virtual c) eqn:Ev; simpl; unfold crossing_reverse; rewrite ?Ev; reflexivity. }
  split.
  { intros j Hj. apply list_lookup_alter_ne. congruence. }
  split.
  { intros j cj Hcj Hv. destruct (decide (j = i)) as [->|Hne].
    - rewrite list_lookup_alter_eq, Hc in Hcj.
      destruct (is_virtual c) eqn:Ev; simpl in Hcj; injection Hcj as <-;
        simpl in Hv; congruence.
    - rewrite list_lookup_alter_ne in Hcj by congruence. eauto. }
  exists (on_diagram (alter_crossing i (with_is_virtual (negb (is_virtual c)))) s).
  split.
  { unfold shift_click. rewrite Hlock, Hstate, Hfocus, Hidx, Hc.
    destruct (style_var s); try congruence; reflexivity. }
  cbn [diagram on_diagram set_diagram alter_crossing set_Crossings Crossings].
  rewrite list_lookup_alter_eq, Hc. reflexivity.
Qed.

(** ** C3: dragging in locked mode *)

Lemma same_shape_refl d : same_shape d d.
Proof. repeat split. Qed.

Lemma same_shape_trans d1 d2 d3 :
  same_shape d1 d2 -> same_shape d2 d3 -> same_shape d1 d3.
Proof.
  intros (A1 & S1 & V1) (A2 & S2 & V2). split; [congruence|]. split.
  - intros a. rewrite S1. apply S2.
  - intros v. destruct (V1 v), (V2 v). split; congruence.
Qed.

Lemma same_shape_set_Crossings cs d : same_shape d (set_Crossings cs d).
Proof. repeat split. Qed.

Lemma vertex_set_vertex_eq v f d : vertex (set_vertex v f d) v = f (vertex d v).
Proof. unfold vertex, set_vertex; simpl. apply lookup_total_insert_eq. Qed.

Lemma vertex_set_vertex_ne v w f d : v <> w -> vertex (set_vertex v f d) w = vertex d w.
Proof. intros. unfold vertex, set_vertex; simpl. by apply lookup_total_insert_ne. Qed.

Lemma same_shape_set_vdelta v z d : same_shape d (set_vertex v (with_vdelta z) d).
Proof.
  assert (Hv : forall w, vx (vertex d w) = vx (vertex (set_vertex v (with_vdelta z) d) w) /\
                         vy (vertex d w) = vy (vertex (set_vertex v (with_vdelta z) d) w) /\
                         in_arrow (vertex d w) = in_arrow (vertex (set_vertex v (with_vdelta z) d) w) /\
                         out_arrow (vertex d w) = out_arrow (vertex (set_vertex v (with_vdelta z) d) w)).
  { intros w. destruct (decide (v = w)) as [->|Hne].
    - rewrite vertex_set_vertex_eq. repeat split.
    - rewrite vertex_set_vertex_ne by done. repeat split. }
  split; [reflexivity|]. split.
  - intros a. unfold segment, point, arrow. simpl.
    destruct (Hv (astart (astore d !!! a))) as (-> & -> & _).
    destruct (Hv (aend (astore d !!! a))) as (-> & -> & _). reflexivity.
  - intros w. destruct (Hv w) as (_ & _ & ? & ?). split; assumption.
Qed.

Lemma crosslist_same_shape d d' a ign n l :
  (forall b, segment d b = segment d' b) ->
  crosslist d a ign n l = crosslist d' a ign n l.
Proof.
  intros Hs. revert n. induction l as [|b l IH]; intros n; simpl; [reflexivity|].
  rewrite !Hs, !IH. reflexivity.
Qed.

Lemma crossed_arrows_same_shape d d' a ign :
  same_shape d d' -> crossed_arrows d a ign = crossed_arrows d' a ign.
Proof.
  intros (HA & HS & _). destruct a as [a|]; simpl; [|reflexivity].
  rewrite HA. rewrite (crosslist_same_shape d d') by assumption. reflexivity.
Qed.

Lemma active_crossing_data_same_shape s s' :
  ActiveVertex s = ActiveVertex s' ->
  same_shape (diagram s) (diagram s') ->
  active_crossing_data s = active_crossing_data s'.
Proof.
  intros HA HS. unfold active_crossing_data. rewrite <- HA.
  destruct (ActiveVertex s) as [v|]; [|reflexivity].
  pose proof HS as (H1 & H2 & H3). destruct (H3 v) as [<- <-].
  rewrite !(crossed_arrows_same_shape (diagram s) (diagram s')) by exact HS.
  reflexivity.
Qed.

Lemma only_crossings_refl s : only_crossings s s.
Proof. exists (Crossings (diagram s)), (CrossPoints s). destruct s as [[]]; reflexivity. Qed.

Lemma only_crossings_trans s1 s2 s3 :
  only_crossings s1 s2 -> only_crossings s2 s3 -> only_crossings s1 s3.
Proof. intros (c1 & p1 & ->) (c2 & p2 & ->). exists c2, p2. reflexivity. Qed.

Lemma only_crossings_update_crossings a s : only_crossings s (update_crossings a s).
Proof.
  destruct (update_crossings_diagram a s) as (cs & _ & ->).
  exists cs, (CrossPoints s). destruct s; reflexivity.
Qed.

Lemma only_crossings_update_crosspoints s : only_crossings s (update_crosspoints s).
Proof. eexists _, _. reflexivity. Qed.

Lemma only_crossings_facts s s' :
  only_crossings s s' ->
  ActiveVertex s' = ActiveVertex s /\
  saved_crossing_data s' = saved_crossing_data s /\
  cursor_attached s' = cursor_attached s /\
  same_shape (diagram s) (diagram s') /\
  (forall v, vertex (diagram s') v = vertex (diagram s) v).
Proof. intros (cs & pts & ->). repeat split. Qed.

Lemma generic_arrow_crossings_returns s a cs : generic_arrow_crossings s a cs <> Diverge.
Proof.
  induction cs as [|c cs IH]; simpl; [discriminate|].
  destruct (py_index _ _); [|discriminate].
  destruct (CrossPoints s !! n); [|discriminate].
  destruct (_ && _); [discriminate|assumption].
Qed.

Lemma generic_arrow_returns s a : generic_arrow s a <> Diverge.
Proof.
  destruct a as [a|]; simpl; [|discriminate].
  destruct (existsb _ _); [discriminate|apply generic_arrow_crossings_returns].
Qed.

(** [verify_drag] comes back, and whatever it did was to the crossings. *)
Lemma verify_drag_only_crossings s active :
  ActiveVertex s = Some active ->
  exists s', only_crossings s s' /\
             ((exists b, verify_drag s = Ret b s') \/ (exists e, verify_drag s = Raise e s')).
Proof.
  intros Hact. unfold verify_drag. rewrite Hact.
  set (s1 := update_crossings _ s). set (s2 := update_crossings _ s1).
  set (s3 := update_crosspoints s2).
  assert (H3 : only_crossings s s3).
  { eapply only_crossings_trans; [apply only_crossings_update_crossings|].
    eapply only_crossings_trans; [apply only_crossings_update_crossings|].
    apply only_crossings_update_crosspoints. }
  exists s3. split; [exact H3|].
  pose proof (generic_arrow_returns s3 (in_arrow (vertex (diagram s3) active))) as R1.
  destruct (generic_arrow s3 (in_arrow (vertex (diagram s3) active))) as [[]|e|];
    cbn [lift_try bind]; [| eauto | eauto | congruence].
  pose proof (generic_arrow_returns s3 (out_arrow (vertex (diagram s3) active))) as R2.
  destruct (generic_arrow s3 (out_arrow (vertex (diagram s3) active))) as [b|e|];
    cbn [lift_try]; [eauto | eauto | congruence].
Qed.

Lemma point_set_active_xy v p s : point (diagram (set_active_xy v p s)) v = p.
Proof.
  unfold set_active_xy, point. cbn [diagram on_diagram set_diagram].
  rewrite vertex_set_vertex_eq. destruct p; reflexivity.
Qed.

Lemma point_detach_cursor v w s :
  point (diagram (detach_cursor v s)) w = point (diagram s) w.
Proof.
  unfold detach_cursor, point. cbn [diagram on_diagram set_diagram set_cursor_attached].
  destruct (decide (v = w)) as [->|Hne].
  - rewrite vertex_set_vertex_eq. reflexivity.
  - rewrite vertex_set_vertex_ne by done. reflexivity.
Qed.

(** C3.  In locked mode, whatever the pointer does, [move_active] comes
    back, and afterwards either the crossing signature of the in- and
    out-arrow of the dragged vertex equals the signature saved when the
    drag began, or the vertex is where it was before this step. *)
Theorem locked_drag_keeps_signature (x y : Q) s (active : VId) :
  lock_var s = true ->
  ActiveVertex s = Some active ->
  exists s',
    final (move_active x y s) = Some s' /\
    ((exists data, active_crossing_data s' = Val data /\
                   saved_crossing_data s = Some data) \/
     point (diagram s') active = point (diagram s) active).
Proof.
  intros Hlock Hact. unfold move_active. rewrite Hact, Hlock.
  set (p0 := point (diagram s) active).
  set (s1 := set_active_xy active (x, y) s).
  assert (Hact1 : ActiveVertex s1 = Some active) by exact Hact.
  unfold move_is_ok, active_crossing_data at 1. rewrite Hact1.
  set (data := (crossed_arrows _ _ _, crossed_arrows _ _ _)).
  assert (Hdata : active_crossing_data s1 = Val data).
  { unfold active_crossing_data. rewrite Hact1. reflexivity. }
  cbn [lift_try bind].
  destruct (bool_decide (Some data = saved_crossing_data s1)) eqn:Hok.
  - apply bool_decide_eq_true in Hok.
    destruct (generic_vertex s1 (Some active) (point (diagram s1) active)); cbn [negb].
    + destruct (verify_drag_only_crossings s1 active Hact1)
        as (s2 & Hoc & [[b Hv]|[e Hv]]); rewrite Hv; cbn [bind];
        destruct (only_crossings_facts _ _ Hoc) as (HA & HS & HC & Hshape & Hvx).
      * destruct b; cbn [negb].
        -- eexists; split; [reflexivity|]. left. exists data. split; [|by rewrite Hok].
           rewrite <- Hdata. symmetry. apply active_crossing_data_same_shape.
           ++ destruct (cursor_attached s2); simpl; congruence.
           ++ eapply same_shape_trans; [exact Hshape|].
              destruct (cursor_attached s2); cbn [negb];
                [apply same_shape_refl|apply same_shape_set_vdelta].
        -- eexists; split; [reflexivity|]. right.
           destruct (cursor_attached (set_active_xy active p0 s2));
             rewrite ?point_detach_cursor; apply point_set_active_xy.
      * eexists; split; [reflexivity|]. left. exists data. split; [|by rewrite Hok].
        rewrite <- Hdata. symmetry. apply active_crossing_data_same_shape; congruence.
    + eexists; split; [reflexivity|]. right.
      destruct (cursor_attached (set_active_xy active p0 s1));
        rewrite ?point_detach_cursor; apply point_set_active_xy.
  - eexists; split; [reflexivity|]. right. apply point_set_active_xy.
Qed.

(** ** C4: the oriented-path precondition *)

Lemma in_here {A} (x : A) l : x ∈ x :: l.
Proof. apply elem_of_cons. by left. Qed.

Lemma in_further {A} (x y : A) l : x ∈ l -> x ∈ y :: l.
Proof. intros. apply elem_of_cons. by right. Qed.







(** ** C2: what the Reidemeister moves do to the crossings *)
















(** ** C5: melding the pending arrow into an endpoint *)

Lemma set_up_arrow_Vertices active p d :
  Vertices (snd (set_up_arrow active p d)) = Vertices d.
Proof. unfold set_up_arrow. destruct (out_arrow (vertex d active)); reflexivity. Qed.

Lemma set_up_arrow_listed active p d :
  out_arrow (vertex d active) = None ->
  snd (fst (set_up_arrow active p d)) ∈ Arrows (snd (set_up_arrow active p d)).
Proof.
  intros H. unfold set_up_arrow. rewrite H. simpl.
  apply elem_of_app. right. apply in_here.
Qed.

(** C5, as the code has it.  In Drawing state, outside R3 mode, a click on
    an open endpoint first sets the pending arrow up and then asks
    [generic_arrow].  If the answer is no, the user is alerted and that is
    all: the editor stays in Drawing state with the same active vertex, the
    lists of vertices is as before the click, and no arrow is taken off the
    list of arrows (a pending arrow made by this click is on it).  The
    editor is back in its start state after the click only if
    [generic_arrow] said yes, and if it said yes, it is. *)
Theorem meld_needs_generic_arrow (fuel : nat) (p : Pt) s (active : VId) :
  style_var s <> style_smooth ->
  state s = drawing_state ->
  ActiveVertex s = Some active ->
  vertex_eq p (point (diagram s) active) = false ->
  r3_mode (modes s) = false ->
  let r := set_up_arrow active p (diagram s) in
  let next_arrow := snd (fst r) in
  let s1 := set_diagram (snd r) (set_has_focus true s) in
  py_in (fun w => vertex_eq (point (diagram s1) w) p)
        (filter (is_endpoint (diagram s1)) (Vertices (diagram s1))) = true ->
  (generic_arrow s1 (Some next_arrow) = Val false ->
     single_click fuel p s = Ret tt (alert s1) /\
     state (alert s1) = drawing_state /\
     ActiveVertex (alert s1) = Some active /\
     ui_log (alert s1) = Alert :: ui_log s /\
     Vertices (diagram (alert s1)) = Vertices (diagram s) /\
     Arrows (diagram (alert s1)) = Arrows (snd r) /\
     (out_arrow (vertex (diagram s) active) = None ->
      next_arrow ∈ Arrows (diagram (alert s1)))) /\
  (forall s', single_click fuel p s = Ret tt s' ->
              state s' = start_state ->
              generic_arrow s1 (Some next_arrow) = Val true) /\
  (generic_arrow s1 (Some next_arrow) = Val true ->
   forall s', single_click fuel p s = Ret tt s' ->
              state s' = start_state /\ ActiveVertex s' = None).
Proof.
  intros Hstyle Hstate Hact Hne Hr3 r next_arrow s1 Hend.
  assert (Hclick : single_click fuel p s = meld false active next_arrow p s1).
  { unfold single_click. rewrite Hstate. unfold click_drawing.
    cbn [ActiveVertex set_has_focus diagram]. rewrite Hact, Hne.
    fold r. fold s1. change (modes s1) with (modes s). rewrite Hr3.
    rewrite Hend. destruct (style_var s); [reflexivity|congruence|reflexivity]. }
  rewrite Hclick. unfold meld.
  destruct (generic_arrow s1 (Some next_arrow)) as [ok| |] eqn:Hg; cbn [lift_try bind].
  - destruct ok; cbn [negb].
    + split; [discriminate|]. split; [reflexivity|]. intros _ s'.
      destruct (find_vertex s1 p); [|discriminate]. intros Hs'.
      apply Ret_inj in Hs'. rewrite <- Hs'. split; reflexivity.
    + split.
      * intros _. split; [reflexivity|]. split; [exact Hstate|]. split; [exact Hact|].
        split; [reflexivity|]. split; [apply set_up_arrow_Vertices|].
        split; [reflexivity|]. apply set_up_arrow_listed.
      * split; [|discriminate]. intros s' Hs' Hs. apply Ret_inj in Hs'.
        rewrite <- Hs' in Hs. change (state s = start_state) in Hs. congruence.
  - split; [discriminate|]. split; discriminate.
  - split; [discriminate|]. split; discriminate.
Qed.

(** ** C6: the R3 helper flag *)

Lemma ends_in_bind {A B} P (m : Res Palette A) (k : A -> State Palette -> Res Palette B) :
  ends_in P m -> (forall a s, P s -> ends_in P (k a s)) -> ends_in P (bind m k).
Proof. destruct m; simpl; auto. Qed.

Lemma ends_in_lift_try {A} P (t : Try A) s : P s -> ends_in P (lift_try t s).
Proof. destruct t; simpl; auto. Qed.


Lemma helper_update_crossings a s :
  r3_helper_tuple (update_crossings a s) = r3_helper_tuple s.
Proof. destruct a; reflexivity. Qed.

Ltac helper_simpl :=
  cbn -[update_crossings] in *; rewrite ?helper_update_crossings in *.

Ltac helper_field :=
  unfold helper_unset in *; helper_simpl; helper_simpl;
  repeat (match goal with
          | |- context [match ?x with _ => _ end] => destruct x eqn:?
          end; helper_simpl);
  first [assumption | reflexivity].

Create HintDb helper discriminated.
#[local] Hint Extern 1 (helper_unset _) => helper_field : helper.

Ltac helper_step :=
  match goal with
  | |- ends_in _ (bind _ _) => apply ends_in_bind; [|intros ? ? ?]
  | |- ends_in _ (lift_try _ _) => apply ends_in_lift_try
  | |- ends_in _ (Ret _ _) => unfold ends_in
  | |- ends_in _ (Raise _ _) => unfold ends_in
  | |- ends_in _ OutOfFuel => exact I
  | |- ends_in helper_unset _ => solve [auto with helper nocore]
  | |- ends_in _ (match ?x with _ => _ end) => destruct x eqn:?
  | |- helper_unset _ => helper_field
  end.

Ltac helper_auto := repeat helper_step.

Lemma helper_do_destroy_arrow a s :
  helper_unset s -> ends_in helper_unset (do_destroy_arrow a s).
Proof. intros H. unfold do_destroy_arrow. helper_auto. Qed.

Lemma helper_do_remove_vertex v s :
  helper_unset s -> ends_in helper_unset (do_remove_vertex v s).
Proof. intros H. unfold do_remove_vertex. helper_auto. Qed.

Lemma helper_for_each {A} (body : A -> State Palette -> Res Palette unit) l :
  (forall x s, helper_unset s -> ends_in helper_unset (body x s)) ->
  forall s, helper_unset s -> ends_in helper_unset (for_each body l s).
Proof.
  intros Hb. induction l as [|x l IH]; intros s H; simpl; [exact H|].
  apply ends_in_bind; [by apply Hb|]. intros _ s' H'. by apply IH.
Qed.

Lemma helper_verify_drag s : helper_unset s -> ends_in helper_unset (verify_drag s).
Proof. intros H. unfold verify_drag. helper_auto. Qed.
#[local] Hint Resolve helper_do_destroy_arrow helper_do_remove_vertex
  helper_verify_drag : helper.

Lemma helper_move_active x y s :
  helper_unset s -> ends_in helper_unset (move_active x y s).
Proof. intros H. unfold move_active. helper_auto. Qed.

Lemma helper_goto_drawing_state s :
  helper_unset s -> ends_in helper_unset (goto_drawing_state s).
Proof. intros H. unfold goto_drawing_state. helper_auto. Qed.
#[local] Hint Resolve helper_move_active helper_goto_drawing_state : helper.

Lemma helper_end_dragging_state s :
  helper_unset s -> ends_in helper_unset (end_dragging_state s).
Proof. intros H. unfold end_dragging_state. helper_auto. Qed.
#[local] Hint Resolve helper_end_dragging_state : helper.

Lemma helper_double_click p s :
  helper_unset s -> ends_in helper_unset (double_click p s).
Proof.
  intros H. unfold double_click.
  pose proof (helper_end_dragging_state s H) as He.
  helper_auto.
Qed.
#[local] Hint Resolve helper_double_click : helper.

Lemma helper_start_dragging p s :
  helper_unset s -> ends_in helper_unset (start_dragging p s).
Proof. intros H. unfold start_dragging. helper_auto. Qed.

Lemma helper_click_r3 fuel p s :
  helper_unset s -> ends_in helper_unset (click_r3 fuel p s).
Proof.
  intros H. unfold click_r3, r3_slide. helper_auto.
  all: try (apply helper_for_each; [intros; auto with helper nocore|]); helper_auto.
Qed.

Lemma helper_r1_clear_loop ind len path s :
  helper_unset s -> ends_in helper_unset (r1_clear_loop ind len path s).
Proof.
  revert ind s. induction path as [|a path IH]; intros ind s H; simpl; [exact H|].
  helper_auto.
Qed.
#[local] Hint Resolve helper_r1_clear_loop : helper.

Lemma helper_r1_reduce path first last color p s :
  helper_unset s -> ends_in helper_unset (r1_reduce path first last color p s).
Proof. intros H. unfold r1_reduce. helper_auto. Qed.
#[local] Hint Resolve helper_r1_reduce helper_start_dragging helper_click_r3 : helper.

Lemma helper_click_r1 fuel p s :
  helper_unset s -> ends_in helper_unset (click_r1 fuel p s).
Proof. intros H. unfold click_r1. helper_auto. Qed.

Lemma helper_click_r2 p s : helper_unset s -> ends_in helper_unset (click_r2 p s).
Proof. intros H. unfold click_r2. helper_auto. Qed.

Lemma helper_click_crossing p s :
  helper_unset s -> ends_in helper_unset (click_crossing p s).
Proof. intros H. unfold click_crossing. helper_auto. Qed.

Lemma helper_shift_click p s : helper_unset s -> ends_in helper_unset (shift_click p s).
Proof.
  intros H. unfold shift_click.
  assert (Hf : forall s0,
             match state s with
             | start_state => if has_focus s then Some s else None
             | _ => Some (set_has_focus true s)
             end = Some s0 -> helper_unset s0).
  { intros s0. destruct (state s); [destruct (has_focus s)|..]; intros [= <-]; exact H. }
  helper_auto; specialize (Hf _ eq_refl); helper_field.
Qed.

Lemma helper_click_arrow p s : helper_unset s -> ends_in helper_unset (click_arrow p s).
Proof. intros H. unfold click_arrow. helper_auto. Qed.

Lemma helper_click_empty p s : helper_unset s -> ends_in helper_unset (click_empty p s).
Proof. intros H. unfold click_empty. helper_auto. Qed.
#[local] Hint Resolve helper_click_r1 helper_click_r2 helper_click_crossing
  helper_shift_click helper_click_arrow helper_click_empty : helper.

Lemma helper_click_start fuel p s :
  helper_unset s -> ends_in helper_unset (click_start fuel p s).
Proof. intros H. unfold click_start. helper_auto. Qed.

Lemma helper_meld in_r3 active next_arrow p s :
  helper_unset s -> ends_in helper_unset (meld in_r3 active next_arrow p s).
Proof. intros H. unfold meld. helper_auto. Qed.

Lemma helper_extend_path next_vertex next_arrow p s :
  helper_unset s -> ends_in helper_unset (extend_path next_vertex next_arrow p s).
Proof. intros H. unfold extend_path. helper_auto. Qed.
#[local] Hint Resolve helper_click_start helper_meld helper_extend_path : helper.

Lemma helper_click_drawing p s :
  helper_unset s -> ends_in helper_unset (click_drawing p s).
Proof. intros H. unfold click_drawing. helper_auto. Qed.
#[local] Hint Resolve helper_click_drawing : helper.




End EditorFacts.

(** ** C7: an R1-mode click on the triangle *)

Section Triangle.
Import Scenario.
Context {collab : Collaborators SpecModel.Palette}.



End Triangle.

(** ** The crossing detector against geometry *)

Section Detector.
Context {Palette : Type} {collab : Collaborators Palette}.
Implicit Types s : State Palette.
Implicit Types c nc : Crossing.
Implicit Types cs : list Crossing.

Lemma crossing_eq_joins c c' : crossing_eq c c' = true <-> joins c (over c') (under c').
Proof.
  unfold crossing_eq, joins.
  rewrite orb_true_iff, !andb_true_iff, !bool_decide_eq_true. tauto.
Qed.

Lemma crossing_eq_false_joins c c' :
  crossing_eq c c' = false <-> ~ joins c (over c') (under c').
Proof.
  rewrite <- crossing_eq_joins. destruct (crossing_eq c c'); split; done.
Qed.

Lemma joins_sym c x y : joins c x y <-> joins c y x.
Proof. unfold joins. tauto. Qed.

Lemma joins_same c c' x y :
  joins c x y -> (joins c' x y <-> joins c' (over c) (under c)).
Proof. unfold joins. intros [[<- <-]|[<- <-]]; tauto. Qed.

Lemma pairs_nil x y : ~ pairs [] x y.
Proof. intros (c & Hc & _). by apply not_elem_of_nil in Hc. Qed.

Lemma pairs_cons c cs x y : pairs (c :: cs) x y <-> joins c x y \/ pairs cs x y.
Proof.
  unfold pairs. split.
  - intros (c' & Hc & Hj). apply elem_of_cons in Hc as [->|Hc]; eauto.
  - intros [Hj|(c' & Hc & Hj)]; [exists c|exists c']; split; auto;
      apply elem_of_cons; auto.
Qed.

Lemma pairs_app cs cs' x y : pairs (cs ++ cs') x y <-> pairs cs x y \/ pairs cs' x y.
Proof.
  induction cs as [|c cs IH]; simpl.
  - split; [auto|]. intros [H|H]; [by apply pairs_nil in H|done].
  - rewrite !pairs_cons, IH. tauto.
Qed.

Lemma pairs_sym cs x y : pairs cs x y <-> pairs cs y x.
Proof. unfold pairs. split; intros (c & ? & ?); exists c; split; auto; by apply joins_sym. Qed.

Lemma joined_pairs cs x y : joined cs x y = true <-> pairs cs x y.
Proof.
  unfold joined, py_in. induction cs as [|c cs IH]; simpl.
  - split; [discriminate|]. intros H. by apply pairs_nil in H.
  - rewrite orb_true_iff, pairs_cons, IH, crossing_eq_joins. reflexivity.
Qed.

Lemma py_in_crossing_eq cs c :
  py_in (fun c' => crossing_eq c' c) cs = true <-> pairs cs (over c) (under c).
Proof.
  unfold py_in. induction cs as [|c0 cs IH]; simpl.
  - split; [discriminate|]. intros H. by apply pairs_nil in H.
  - rewrite orb_true_iff, pairs_cons, IH, crossing_eq_joins. reflexivity.
Qed.

(** The candidate crossing joins the two arrows it was made for. *)
Lemma new_crossing_joins s a b : joins (new_crossing s a b) a b.
Proof.
  unfold new_crossing, joins, located_crossing.
  destruct (r3_helper_active s); [|destruct (negb _)]; simpl; tauto.
Qed.

Lemma new_crossing_not_virtual s a b : is_virtual (new_crossing s a b) = false.
Proof.
  unfold new_crossing, located_crossing.
  destruct (r3_helper_active s); [|destruct (negb _)]; reflexivity.
Qed.

Lemma pairs_new_crossing s a b cs :
  pairs cs (over (new_crossing s a b)) (under (new_crossing s a b)) <-> pairs cs a b.
Proof.
  destruct (new_crossing_joins s a b) as [[-> ->]|[-> ->]]; [reflexivity|apply pairs_sym].
Qed.

(** *** The three things a round of the loop can do to the list *)

Lemma relocate_found_pairs d nc cs x y :
  pairs (relocate_found d nc cs) x y <-> pairs cs x y.
Proof.
  induction cs as [|c cs IH]; simpl; [reflexivity|].
  destruct (crossing_eq c nc); rewrite !pairs_cons; [reflexivity|].
  rewrite IH. reflexivity.
Qed.

Lemma relocate_found_one_per_pair d nc cs :
  one_crossing_per_pair (relocate_found d nc cs) = one_crossing_per_pair cs.
Proof.
  induction cs as [|c cs IH]; simpl; [reflexivity|].
  destruct (crossing_eq c nc); simpl; [reflexivity|].
  rewrite IH. f_equal. f_equal.
  apply eq_true_iff_eq. rewrite !py_in_crossing_eq. apply relocate_found_pairs.
Qed.

Lemma relocate_found_virtual d nc cs :
  Forall (fun c => is_virtual c = false) cs ->
  Forall (fun c => is_virtual c = false) (relocate_found d nc cs).
Proof.
  induction 1 as [|c cs Hc Hcs IH]; simpl; [constructor|].
  destruct (crossing_eq c nc); constructor; auto.
Qed.

Lemma one_per_pair_app cs nc :
  one_crossing_per_pair (cs ++ [nc]) = true <->
  one_crossing_per_pair cs = true /\ ~ pairs cs (over nc) (under nc).
Proof.
  induction cs as [|c cs IH]; simpl.
  - split; [intros _; split; [reflexivity|apply pairs_nil]|reflexivity].
  - rewrite !andb_true_iff, !negb_true_iff, IH, pairs_cons.
    rewrite <- !not_true_iff_false, !py_in_crossing_eq, pairs_app, pairs_cons.
    assert (joins nc (over c) (under c) <-> joins c (over nc) (under nc)).
    { unfold joins. intuition congruence. }
    assert (~ pairs [] (over c) (under c)) by apply pairs_nil. tauto.
Qed.

Lemma py_remove_None_pairs cs nc :
  py_remove (fun c => crossing_eq c nc) cs = None -> ~ pairs cs (over nc) (under nc).
Proof.
  induction cs as [|c cs IH]; simpl; [intros _; apply pairs_nil|].
  destruct (crossing_eq c nc) eqn:E; [discriminate|].
  destruct (py_remove _ cs); [discriminate|]. intros _.
  rewrite pairs_cons. apply crossing_eq_false_joins in E. intuition.
Qed.

Lemma py_remove_pairs cs nc cs' :
  one_crossing_per_pair cs = true ->
  py_remove (fun c => crossing_eq c nc) cs = Some cs' ->
  one_crossing_per_pair cs' = true /\
  forall x y, pairs cs' x y <-> pairs cs x y /\ ~ joins nc x y.
Proof.
  revert cs'. induction cs as [|c cs IH]; intros cs'; simpl; [discriminate|].
  rewrite andb_true_iff, negb_true_iff, <- not_true_iff_false, py_in_crossing_eq.
  intros [Hc Hone].
  destruct (crossing_eq c nc) eqn:E.
  - intros [= <-]. split; [exact Hone|]. intros x y. rewrite pairs_cons.
    apply crossing_eq_joins in E. split.
    + intros Hp. split; [auto|]. intros Hn. apply Hc.
      destruct Hp as (c' & Hin & Hj). exists c'. split; [exact Hin|].
      unfold joins in *. intuition congruence.
    + intros [[Hj|Hp] Hn]; [|exact Hp]. exfalso. apply Hn.
      unfold joins in *. intuition congruence.
  - destruct (py_remove _ cs) as [cs0|] eqn:Hr; [|discriminate]. intros [= <-].
    destruct (IH cs0 Hone eq_refl) as [Hone' Hp']. split.
    + simpl. rewrite andb_true_iff, negb_true_iff, <- not_true_iff_false, py_in_crossing_eq.
      split; [|exact Hone']. rewrite Hp'. tauto.
    + intros x y. rewrite !pairs_cons, Hp'. apply crossing_eq_false_joins in E.
      split; [|tauto]. intros [Hj|[Hp Hn]]; [|tauto]. split; [auto|].
      intros Hn. apply E. unfold joins in *. intuition congruence.
Qed.

Lemma py_remove_virtual (f : Crossing -> bool) cs cs' :
  py_remove f cs = Some cs' ->
  Forall (fun c => is_virtual c = false) cs ->
  Forall (fun c => is_virtual c = false) cs'.
Proof.
  revert cs'. induction cs as [|c cs IH]; intros cs'; simpl; [discriminate|].
  intros H Hall. inversion Hall as [|? ? Hc Hcs]; subst.
  destruct (f c); [by injection H as <-|].
  destruct (py_remove f cs) as [cs0|]; [|discriminate]. injection H as <-.
  constructor; auto.
Qed.

(** *** One run of [update_crossings] *)

Lemma joins_new_crossing s a b x y :
  joins (new_crossing s a b) x y <-> (x = a /\ y = b) \/ (x = b /\ y = a).
Proof.
  destruct (new_crossing_joins s a b) as [[Ho Hu]|[Ho Hu]];
    unfold joins; rewrite Ho, Hu; intuition congruence.
Qed.

Lemma cross_list_pairs s a b :
  py_in (fun c => crossing_eq c (new_crossing s a b))
        (filter (fun c => crossing_contains c a) (Crossings (diagram s))) = true <->
  pairs (Crossings (diagram s)) a b.
Proof.
  rewrite py_in_crossing_eq, pairs_new_crossing. unfold pairs. split.
  - intros (c & Hc & Hj). apply list_elem_of_filter in Hc as [_ Hc]. eauto.
  - intros (c & Hc & Hj). exists c. split; [|exact Hj].
    apply list_elem_of_filter. split; [|exact Hc].
    unfold crossing_contains. apply Is_true_true, orb_true_iff.
    rewrite !bool_decide_eq_true. unfold joins in Hj. intuition congruence.
Qed.

Lemma expected_snoc s a done b x y :
  expected s a (done ++ [b]) x y <->
  if decide (b <> a /\ ((x = a /\ y = b) \/ (x = b /\ y = a)))
  then meets s a b = true
  else expected s a done x y.
Proof.
  unfold expected.
  destruct (decide (b <> a /\ ((x = a /\ y = b) \/ (x = b /\ y = a))))
    as [[Hba [[-> ->]|[-> ->]]]|Hn].
  - rewrite decide_True; [reflexivity|].
    split; [reflexivity|]. split; [exact Hba|]. apply elem_of_app. right. apply in_here.
  - rewrite decide_False by (intros [? _]; congruence).
    rewrite decide_True; [reflexivity|].
    split; [reflexivity|]. split; [exact Hba|]. apply elem_of_app. right. apply in_here.
  - assert (H1 : (x = a /\ y <> a /\ y ∈ done ++ [b]) <-> (x = a /\ y <> a /\ y ∈ done)).
    { rewrite elem_of_app, list_elem_of_singleton. split; [|tauto].
      intros (Hx & Hy & [Hd|Hb]); [tauto|]. exfalso. apply Hn. subst. tauto. }
    assert (H2 : (y = a /\ x <> a /\ x ∈ done ++ [b]) <-> (y = a /\ x <> a /\ x ∈ done)).
    { rewrite elem_of_app, list_elem_of_singleton. split; [|tauto].
      intros (Hx & Hy & [Hd|Hb]); [tauto|]. exfalso. apply Hn. subst. tauto. }
    rewrite (decide_ext _ _ _ _ H1), (decide_ext _ _ _ _ H2). reflexivity.
Qed.

Lemma update_crossings_step_spec s a done cs b :
  b ∉ done ->
  one_crossing_per_pair cs = true ->
  not_virtual cs ->
  (forall x y, pairs cs x y <-> expected s a done x y) ->
  let cs' := update_crossings_step s a
               (filter (fun c => crossing_contains c a) (Crossings (diagram s))) cs b in
  one_crossing_per_pair cs' = true /\
  not_virtual cs' /\
  (forall x y, pairs cs' x y <-> expected s a (done ++ [b]) x y).
Proof.
  intros Hb Hone Hvirt Hinv. unfold update_crossings_step.
  destruct (bool_decide (a = b)) eqn:Eab; cbn zeta.
  - apply bool_decide_eq_true in Eab. subst b. split; [exact Hone|]. split; [exact Hvirt|].
    intros x y. rewrite Hinv, expected_snoc.
    rewrite decide_False by (intros [? _]; congruence). reflexivity.
  - apply bool_decide_eq_false in Eab.
    pose proof (cross_list_pairs s a b) as Hcl.
    pose proof (Hinv a b) as Hab. unfold expected in Hab.
    rewrite decide_False in Hab by (intros (_ & _ & ?); contradiction).
    rewrite decide_False in Hab by (intros (? & _ & _); congruence).
    assert (Hexp : forall x y,
               expected s a (done ++ [b]) x y <->
               if decide ((x = a /\ y = b) \/ (x = b /\ y = a))
               then meets s a b = true else expected s a done x y).
    { intros x y. rewrite expected_snoc. apply reflexive_eq, decide_ext.
      split; [tauto|]. intros H. split; [congruence|exact H]. }
    unfold meets in Hexp.
    destruct (cloc (new_crossing s a b)) as [pt|] eqn:Hloc.
    + assert (Hm : bool_decide (is_Some (Some pt)) = true)
        by (apply bool_decide_eq_true; eauto).
      rewrite Hm in Hexp.
      destruct (py_in _ _) eqn:Hin.
      * assert (Hyes : pairs (Crossings (diagram s)) a b) by (by apply Hcl).
        split; [by rewrite relocate_found_one_per_pair|].
        split; [by apply relocate_found_virtual|].
        intros x y. rewrite relocate_found_pairs, Hexp.
        case_decide as Hxy; [|apply Hinv]. split; [done|]. intros _.
        destruct Hxy as [[-> ->]|[-> ->]]; [|apply pairs_sym]; tauto.
      * assert (Hno : ~ pairs (Crossings (diagram s)) a b).
        { intros H. apply Hcl in H. discriminate. }
        split.
        { apply one_per_pair_app. split; [exact Hone|].
          rewrite pairs_new_crossing. tauto. }
        split.
        { apply Forall_app. split; [exact Hvirt|]. constructor; [|constructor].
          apply new_crossing_not_virtual. }
        intros x y. rewrite pairs_app, pairs_cons, joins_new_crossing, Hexp.
        case_decide as Hxy; [tauto|]. rewrite Hinv.
        assert (~ pairs [] x y) by apply pairs_nil. tauto.
    + assert (Hm : bool_decide (is_Some (@None Pt)) = false).
      { apply bool_decide_eq_false. by intros [? ?]. }
      rewrite Hm in Hexp.
      destruct (py_remove _ cs) as [cs0|] eqn:Hr.
      * destruct (py_remove_pairs _ _ _ Hone Hr) as [Hone' Hp'].
        split; [exact Hone'|]. split; [by eapply py_remove_virtual|].
        intros x y. rewrite Hp', joins_new_crossing, Hexp, Hinv.
        case_decide as Hxy; [split; [tauto|discriminate]|tauto].
      * apply py_remove_None_pairs in Hr. rewrite pairs_new_crossing in Hr.
        split; [exact Hone|]. split; [exact Hvirt|].
        intros x y. rewrite Hexp.
        case_decide as Hxy; [|apply Hinv]. split; [|discriminate].
        intros Hp. exfalso. apply Hr.
        destruct Hxy as [[-> ->]|[-> ->]]; [|apply pairs_sym]; exact Hp.
Qed.

Lemma update_crossings_fold_spec s a todo : forall done cs,
  NoDup (done ++ todo) ->
  one_crossing_per_pair cs = true ->
  not_virtual cs ->
  (forall x y, pairs cs x y <-> expected s a done x y) ->
  let cs' := fold_left (update_crossings_step s a
               (filter (fun c => crossing_contains c a) (Crossings (diagram s)))) todo cs in
  one_crossing_per_pair cs' = true /\
  not_virtual cs' /\
  (forall x y, pairs cs' x y <-> expected s a (done ++ todo) x y).
Proof.
  induction todo as [|b todo IH]; intros done cs Hnd Hone Hvirt Hinv; simpl.
  - rewrite app_nil_r. auto.
  - assert (Hb : b ∉ done).
    { apply NoDup_app in Hnd as (_ & Hd & _). intros Hin. apply (Hd b Hin), in_here. }
    destruct (update_crossings_step_spec s a done cs b Hb Hone Hvirt Hinv)
      as (Hone' & Hvirt' & Hinv').
    replace (done ++ b :: todo) with ((done ++ [b]) ++ todo) in *
      by (by rewrite <- app_assoc).
    apply IH; assumption.
Qed.

(** What [update_crossings] establishes for the arrow it is called for: a
    crossing with another listed arrow is stored exactly when a crossing
    point was found; all other stored pairs are as before; no pair is
    stored twice; no new crossing is virtual. *)
Lemma update_crossings_spec s a :
  NoDup (Arrows (diagram s)) ->
  one_crossing_per_pair (Crossings (diagram s)) = true ->
  not_virtual (Crossings (diagram s)) ->
  let cs' := Crossings (diagram (update_crossings (Some a) s)) in
  one_crossing_per_pair cs' = true /\
  not_virtual cs' /\
  (forall x y, pairs cs' x y <-> expected s a (Arrows (diagram s)) x y).
Proof.
  intros Hnd Hone Hvirt.
  apply (update_crossings_fold_spec s a (Arrows (diagram s)) []); try assumption.
  intros x y. unfold expected.
  rewrite decide_False by (intros (_ & _ & H); by apply not_elem_of_nil in H).
  rewrite decide_False by (intros (_ & _ & H); by apply not_elem_of_nil in H).
  reflexivity.
Qed.

End Detector.

(** ** C8: saving, loading and computing the crossings again *)

Section Reload.
Context {Palette : Type} {collab : Collaborators Palette}.
Implicit Types s : State Palette.
Implicit Types cs : list Crossing.

Lemma forallb_elem {A} (f : A -> bool) (l : list A) x :
  forallb f l = true -> x ∈ l -> f x = true.
Proof.
  intros H Hx. rewrite forallb_forall in H. apply H. by apply list_elem_of_In.
Qed.

Lemma meets_proper s a b :
  proper (diagram s) a b = proper (diagram s) b a ->
  meets s a b = proper (diagram s) a b.
Proof.
  intros Hsym. unfold meets, new_crossing, located_crossing.
  destruct (r3_helper_active s); [|destruct (negb _)]; simpl;
    [symmetry; exact Hsym|reflexivity|symmetry; exact Hsym].
Qed.

Lemma recompute_fold s0 todo : forall T cs,
  NoDup (Arrows (diagram s0)) ->
  (forall x y, x ∈ Arrows (diagram s0) -> y ∈ Arrows (diagram s0) ->
               proper (diagram s0) x y = proper (diagram s0) y x) ->
  (forall a, a ∈ todo -> a ∈ Arrows (diagram s0)) ->
  one_crossing_per_pair cs = true ->
  not_virtual cs ->
  (forall x y, pairs cs x y <-> recomputed (diagram s0) T x y) ->
  exists cs',
    fold_left (fun s' a => update_crossings (Some a) s') todo
              (on_diagram (set_Crossings cs) s0) =
    on_diagram (set_Crossings cs') s0 /\
    one_crossing_per_pair cs' = true /\
    not_virtual cs' /\
    (forall x y, pairs cs' x y <-> recomputed (diagram s0) (T ++ todo) x y).
Proof.
  induction todo as [|a todo IH]; intros T cs Hnd Hsym Htodo Hone Hvirt Hinv;
    cbn [fold_left].
  - exists cs. rewrite app_nil_r. auto.
  - set (s := on_diagram (set_Crossings cs) s0).
    destruct (update_crossings_spec s a Hnd Hone Hvirt) as (Hone' & Hvirt' & Hinv').
    set (cs1 := Crossings (diagram (update_crossings (Some a) s))) in *.
    assert (Hst : update_crossings (Some a) s = on_diagram (set_Crossings cs1) s0)
      by reflexivity.
    rewrite Hst.
    replace (T ++ a :: todo) with ((T ++ [a]) ++ todo) by (by rewrite <- app_assoc).
    apply IH; try assumption.
    { intros b Hb. apply Htodo. by apply in_further. }
    assert (Ha : a ∈ Arrows (diagram s0)) by (apply Htodo, in_here).
    intros x y. rewrite Hinv'. unfold expected.
    change (Arrows (diagram s)) with (Arrows (diagram s0)).
    change (Crossings (diagram s)) with cs.
    assert (Hm : forall z, z ∈ Arrows (diagram s0) ->
                           meets s a z = proper (diagram s0) a z).
    { intros z Hz. apply (meets_proper s a z). by apply Hsym. }
    unfold recomputed. rewrite !elem_of_app, !list_elem_of_singleton.
    destruct (decide (x = a /\ y <> a /\ y ∈ Arrows (diagram s0))) as [(-> & Hya & Hy)|H1].
    { rewrite Hm by assumption. intuition congruence. }
    destruct (decide (y = a /\ x <> a /\ x ∈ Arrows (diagram s0))) as [(-> & Hxa & Hx)|H2].
    { rewrite Hm by assumption. rewrite (Hsym a x) by assumption.
      intuition congruence. }
    rewrite Hinv. unfold recomputed. split.
    + intros (? & ? & ? & ? & ?). repeat split; tauto.
    + intros (Hxy & Hx & Hy & HT & Hp). repeat split; try assumption.
      destruct (decide (x = a)) as [->|Hxa]; [exfalso; apply H1; intuition congruence|].
      destruct (decide (y = a)) as [->|Hya]; [exfalso; apply H2; intuition congruence|].
      tauto.
Qed.

Lemma recompute_crossings_spec s :
  Crossings (diagram s) = [] ->
  NoDup (Arrows (diagram s)) ->
  (forall x y, x ∈ Arrows (diagram s) -> y ∈ Arrows (diagram s) ->
               proper (diagram s) x y = proper (diagram s) y x) ->
  not_virtual (Crossings (diagram (recompute_crossings s))) /\
  forall x y,
    pairs (Crossings (diagram (recompute_crossings s))) x y <->
    x <> y /\ x ∈ Arrows (diagram s) /\ y ∈ Arrows (diagram s) /\
    proper (diagram s) x y = true.
Proof.
  intros Hempty Hnd Hsym. unfold recompute_crossings.
  assert (Hs : s = on_diagram (set_Crossings []) s).
  { destruct s as [[]]; simpl in *. by subst. }
  destruct (recompute_fold s (Arrows (diagram s)) [] [] Hnd Hsym)
    as (cs' & Hfold & _ & Hvirt & Hp); auto.
  { constructor. }
  { intros x y. split; [intros H; by apply pairs_nil in H|].
    intros (_ & _ & _ & [H|H] & _); by apply not_elem_of_nil in H. }
  rewrite <- Hs in Hfold. rewrite Hfold.
  change (Crossings (diagram (on_diagram (set_Crossings cs') s))) with cs'.
  split; [exact Hvirt|]. intros x y.
  rewrite Hp. unfold recomputed. simpl. tauto.
Qed.

(** *** What a loaded link looks like *)

Lemma store_from_lookup {B} (l : list B) : forall n k,
  store_from n l !! k = if decide (n <= k)%nat then l !! (k - n)%nat else None.
Proof.
  induction l as [|x l IH]; intros n k; simpl.
  - rewrite lookup_empty. by case_decide.
  - rewrite lookup_insert, IH. repeat case_decide; try lia; subst.
    + by rewrite Nat.sub_diag.
    + replace (k - n)%nat with (S (k - S n)) by lia. reflexivity.
    + reflexivity.
Qed.

Lemma store_from_0 {B} (l : list B) k : store_from 0 l !! k = l !! k.
Proof. rewrite store_from_lookup, decide_True by lia. by rewrite Nat.sub_0_r. Qed.

Lemma save_Some d g :
  save d = Some g ->
  saved_vertices g = map (fun v => (point d v, vcolor (vertex d v))) (Vertices d) /\
  Forall2 (fun a se => vertex_index d (astart (arrow d a)) = Some (fst se) /\
                       vertex_index d (aend (arrow d a)) = Some (snd se))
          (Arrows d) (saved_arrows g).
Proof.
  unfold save. destruct (mapM _ _) as [l|] eqn:Hm; [|discriminate].
  intros [= <-]. split; [reflexivity|]. simpl.
  apply mapM_Some in Hm. eapply Forall2_impl; [exact Hm|].
  intros a se. simpl.
  destruct (vertex_index d (astart (arrow d a))); [|discriminate].
  destruct (vertex_index d (aend (arrow d a))); [|discriminate].
  by intros [= <-].
Qed.

Lemma vertex_index_lookup d v i : vertex_index d v = Some i -> Vertices d !! i = Some v.
Proof.
  intros H. apply py_index_lookup in H as (w & Hw & Heq).
  apply bool_decide_eq_true in Heq. by subst.
Qed.

Lemma load_point d g i v :
  saved_vertices g = map (fun v => (point d v, vcolor (vertex d v))) (Vertices d) ->
  Vertices d !! i = Some v ->
  point (load g) i = point d v.
Proof.
  intros Hv Hi.
  assert (H : vstore (load g) !! i =
              Some (load_vertex (saved_arrows g) i (point d v, vcolor (vertex d v)))).
  { unfold load. simpl.
    rewrite store_from_0, list_lookup_imap, Hv, list_lookup_fmap, Hi. reflexivity. }
  unfold point at 1, vertex. rewrite (lookup_total_correct _ _ _ H). reflexivity.
Qed.

Lemma load_segment d g j a :
  save d = Some g -> Arrows d !! j = Some a -> segment (load g) j = segment d a.
Proof.
  intros Hs Hj. apply save_Some in Hs as [Hv Ha].
  destruct (Forall2_lookup_l _ _ _ _ _ Ha Hj) as (se & Hse & Hs & He).
  apply vertex_index_lookup in Hs, He.
  assert (Harrow : arrow (load g) j = load_arrow (saved_vertices g) se).
  { unfold arrow, load. simpl. apply lookup_total_correct.
    rewrite store_from_0, list_lookup_fmap, Hse. reflexivity. }
  unfold segment at 1. rewrite Harrow. simpl.
  rewrite (load_point d g _ _ Hv Hs), (load_point d g _ _ Hv He). reflexivity.
Qed.

Lemma load_listed d g i :
  save d = Some g -> i ∈ Arrows (load g) <-> exists a, Arrows d !! i = Some a.
Proof.
  intros Hs. apply save_Some in Hs as [_ Ha]. apply Forall2_length in Ha.
  unfold load. simpl. rewrite elem_of_seq, <- Ha. split.
  - intros [_ Hi]. apply lookup_lt_is_Some_2. simpl in Hi. lia.
  - intros [a Hi]. apply lookup_lt_Some in Hi. simpl. lia.
Qed.

Lemma load_proper d g i j a b :
  save d = Some g -> Arrows d !! i = Some a -> Arrows d !! j = Some b ->
  proper (load g) i j = proper d a b.
Proof.
  intros Hs Hi Hj. unfold proper.
  by rewrite (load_segment d g i a), (load_segment d g j b).
Qed.

(** C8, as it holds.  Take a diagram whose arrows are listed once, whose
    stored crossings are exactly the properly intersecting pairs of listed
    arrows, and for which proper intersection does not depend on the order
    of the two arrows.  Save its geometry, load it and compute the
    crossings again.  Then the arrows at positions [i] and [j] of the loaded
    list are joined by a crossing exactly when the arrows at these positions
    of the original list were.  The crossings come back as pairs only:
    every one of them is non-virtual, whatever the original was. *)
Theorem reload_reproduces_crossing_pairs s (g : SavedLink) :
  save (diagram s) = Some g ->
  NoDup (Arrows (diagram s)) ->
  proper_symmetric (diagram s) = true ->
  crossings_match_geometry (diagram s) = true ->
  (forall i j,
      joined (Crossings (diagram (reloaded s g))) i j = true <->
      exists a b, Arrows (diagram s) !! i = Some a /\
                  Arrows (diagram s) !! j = Some b /\
                  joined (Crossings (diagram s)) a b = true) /\
  Forall (fun c => is_virtual c = false) (Crossings (diagram (reloaded s g))).
Proof.
  intros Hsave Hnd Hsym Hmatch.
  set (d := diagram s) in *. set (s0 := set_diagram (load g) s).
  assert (Hsym' : forall a b, a ∈ Arrows d -> b ∈ Arrows d -> proper d a b = proper d b a).
  { intros a b Ha Hb. unfold proper_symmetric in Hsym.
    apply (forallb_elem _ _ a) in Hsym; [|exact Ha].
    apply (forallb_elem _ _ b) in Hsym; [|exact Hb].
    by apply bool_decide_eq_true in Hsym. }
  assert (Hgeo : forall a b, a ∈ Arrows d -> b ∈ Arrows d ->
             joined (Crossings d) a b = negb (bool_decide (a = b)) && proper d a b).
  { intros a b Ha Hb. unfold crossings_match_geometry in Hmatch.
    apply andb_true_iff in Hmatch as [_ Hmatch].
    apply (forallb_elem _ _ a) in Hmatch; [|exact Ha].
    apply (forallb_elem _ _ b) in Hmatch; [|exact Hb].
    by apply bool_decide_eq_true in Hmatch. }
  destruct (recompute_crossings_spec s0) as [Hvirt Hp].
  { reflexivity. }
  { apply NoDup_seq. }
  { intros i j Hi Hj.
    apply (load_listed d g i Hsave) in Hi as [a Ha].
    apply (load_listed d g j Hsave) in Hj as [b Hb].
    change (diagram s0) with (load g).
    rewrite (load_proper d g i j a b), (load_proper d g j i b a) by assumption.
    apply Hsym'; eapply list_elem_of_lookup_2; eassumption. }
  split; [|exact Hvirt].
  intros i j. unfold reloaded. fold s0. rewrite joined_pairs, Hp.
  change (diagram s0) with (load g). split.
  - intros (Hij & Hi & Hj & Hprop).
    apply (load_listed d g i Hsave) in Hi as [a Ha].
    apply (load_listed d g j Hsave) in Hj as [b Hb].
    exists a, b. split; [exact Ha|]. split; [exact Hb|].
    rewrite (load_proper d g i j a b) in Hprop by assumption.
    rewrite Hgeo by (eapply list_elem_of_lookup_2; eassumption).
    rewrite Hprop, andb_true_r. apply negb_true_iff, bool_decide_eq_false.
    intros ->. apply Hij. eapply NoDup_lookup; eassumption.
  - intros (a & b & Ha & Hb & Hj).
    rewrite Hgeo in Hj by (eapply list_elem_of_lookup_2; eassumption).
    apply andb_true_iff in Hj as [Hab Hprop].
    apply negb_true_iff, bool_decide_eq_false in Hab.
    split; [intros ->; congruence|].
    split; [apply (load_listed d g i Hsave); eauto|].
    split; [apply (load_listed d g j Hsave); eauto|].
    by rewrite (load_proper d g i j a b).
Qed.

End Reload.

(** * More of the editor *)

Section MoreFacts.
Context {Palette : Type} {collab : Collaborators Palette}.
Implicit Types s : State Palette.
Implicit Types d : Diagram.

(** ** What [oriented_path] looks at *)

Lemma all_oriented_verdict s a :
  (exists r, all_oriented s a = (true, Some r)) \/ all_oriented s a = (false, None).
Proof.
  unfold all_oriented.
  destruct (fold_left _ _ _) as [[] []]; simpl; eauto.
Qed.

Lemma oriented_path_loop_all s r path :
  oriented_path_loop s (Some r) path = true <->
  forall a, a ∈ path -> all_oriented s a = (true, Some r).
Proof.
  induction path as [|a path IH]; simpl.
  - split; [|reflexivity]. intros _ a Ha. by apply not_elem_of_nil in Ha.
  - destruct (all_oriented_verdict s a) as [[r' Hr]|Hr]; rewrite Hr; simpl.
    + destruct (bool_decide (Some r = Some r')) eqn:Eq; simpl.
      * apply bool_decide_eq_true in Eq. injection Eq as <-.
        rewrite IH. split.
        -- intros H b Hb. apply elem_of_cons in Hb as [->|Hb]; auto.
        -- intros H b Hb. apply H, elem_of_cons. by right.
      * apply bool_decide_eq_false in Eq. split; [discriminate|].
        intros H. exfalso. apply Eq.
        specialize (H a). rewrite Hr in H.
        assert (Ha : a ∈ a :: path) by (apply elem_of_cons; by left).
        specialize (H Ha). congruence.
    + split; [discriminate|]. intros H.
      assert (Ha : a ∈ a :: path) by (apply elem_of_cons; by left).
      specialize (H a Ha). congruence.
Qed.

Lemma oriented_path_all s path :
  oriented_path s path = true <->
  path = [] \/ exists r, forall a, a ∈ path -> all_oriented s a = (true, Some r).
Proof.
  unfold oriented_path. destruct path as [|a path]; simpl.
  - split; [by left|reflexivity].
  - destruct (all_oriented_verdict s a) as [[r Hr]|Hr]; rewrite Hr; simpl.
    + rewrite oriented_path_loop_all. split.
      * intros H. right. exists r. intros b Hb.
        apply elem_of_cons in Hb as [->|Hb]; auto.
      * intros [?|[r' H]]; [discriminate|]. intros b Hb.
        assert (r' = r) as ->.
        { assert (Ha : a ∈ a :: path) by (apply elem_of_cons; by left).
          specialize (H a Ha). congruence. }
        apply H, elem_of_cons. by right.
    + split; [discriminate|]. intros [?|[r H]]; [discriminate|].
      assert (Ha : a ∈ a :: path) by (apply elem_of_cons; by left).
      specialize (H a Ha). congruence.
Qed.

(** [oriented_path] looks at the arrows of the path one by one and at
    nothing else: the empty path is accepted, and with a path every path
    made of some of its arrows, in any order and with any repetition, is
    accepted too. *)
Theorem oriented_path_of_fewer_arrows s (path path' : list AId) :
  (forall a, a ∈ path' -> a ∈ path) ->
  oriented_path s path = true ->
  oriented_path s path' = true /\ oriented_path s [] = true.
Proof.
  intros Hsub H. split; [|reflexivity].
  apply oriented_path_all. apply oriented_path_all in H as [->|[r H]].
  - left. destruct path' as [|a ?]; [reflexivity|].
    exfalso. apply (not_elem_of_nil a), Hsub, elem_of_cons. by left.
  - right. exists r. intros a Ha. apply H, Hsub, Ha.
Qed.


(** ** The arrows crossed by an arrow *)

Lemma insert_sorted_perm x l : insert_sorted x l ≡ₚ x :: l.
Proof.
  induction l as [|y l IH]; simpl; [reflexivity|].
  destruct (pair_leb x y); [reflexivity|].
  rewrite IH. apply Permutation_swap.
Qed.

Lemma sorted_perm l : sorted l ≡ₚ l.
Proof.
  induction l as [|x l IH]; simpl; [reflexivity|].
  rewrite insert_sorted_perm. by rewrite IH.
Qed.

Lemma crosslist_spec d a ign arrows : forall n k,
  k ∈ (snd <$> crosslist d a ign n arrows) <->
  exists i b, k = (n + i)%nat /\ arrows !! i = Some b /\ b <> a /\ (Some b ∉ ign) /\
              is_Some (arrow_xor (segment d a) (segment d b)).
Proof.
  induction arrows as [|b arrows IH]; intros n k; simpl.
  - split; [intros H; by apply not_elem_of_nil in H|].
    intros (i & b & _ & H & _). by rewrite lookup_nil in H.
  - assert (Hrest : k ∈ (snd <$> crosslist d a ign (S n) arrows) <->
              exists i b', k = (n + S i)%nat /\ (b :: arrows) !! S i = Some b' /\
                b' <> a /\ (Some b' ∉ ign) /\
                is_Some (arrow_xor (segment d a) (segment d b'))).
    { rewrite IH. split; intros (i & b' & -> & H); exists i, b';
        (split; [lia|exact H]). }
    assert (Hsplit : (exists i b', k = (n + i)%nat /\ (b :: arrows) !! i = Some b' /\
                b' <> a /\ (Some b' ∉ ign) /\
                is_Some (arrow_xor (segment d a) (segment d b'))) <->
              (k = n /\ b <> a /\ (Some b ∉ ign) /\
               is_Some (arrow_xor (segment d a) (segment d b))) \/
              k ∈ (snd <$> crosslist d a ign (S n) arrows)).
    { rewrite Hrest. split.
      - intros ([|i] & b' & -> & Hl & H).
        + left. simpl in Hl. injection Hl as <-. split; [lia|exact H].
        + right. exists i, b'. auto.
      - intros [(-> & H)|(i & b' & H)].
        + exists 0%nat, b. split; [lia|]. split; [reflexivity|exact H].
        + exists (S i), b'. exact H. }
    rewrite Hsplit. clear Hsplit Hrest.
    destruct (bool_decide (a = b)) eqn:Eab; simpl.
    { apply bool_decide_eq_true in Eab. split; [by right|].
      intros [(_ & Hne & _)|H]; [congruence|exact H]. }
    apply bool_decide_eq_false in Eab.
    destruct (bool_decide (Some b ∈ ign)) eqn:Eig; simpl.
    { apply bool_decide_eq_true in Eig. split; [by right|].
      intros [(_ & _ & Hni & _)|H]; [contradiction|exact H]. }
    apply bool_decide_eq_false in Eig.
    destruct (arrow_xor (segment d a) (segment d b)) as [t|] eqn:Ex; simpl.
    + rewrite elem_of_cons. split.
      * intros [->|H]; [left|by right]. repeat split; eauto; congruence.
      * intros [(-> & _)|H]; [by left|by right].
    + split; [by right|].
      intros [(_ & _ & _ & Hs)|H]; [by destruct Hs|exact H].
Qed.

Lemma crosslist_lt d a ign arrows : forall n k,
  k ∈ (snd <$> crosslist d a ign n arrows) -> (n <= k)%nat.
Proof.
  intros n k H. apply crosslist_spec in H as (i & b & -> & _). lia.
Qed.

Lemma crosslist_NoDup d a ign arrows : forall n,
  NoDup (snd <$> crosslist d a ign n arrows).
Proof.
  induction arrows as [|b arrows IH]; intros n; simpl; [constructor|].
  destruct (_ || _); [apply IH|].
  destruct (arrow_xor _ _); [|apply IH].
  simpl. constructor; [|apply IH].
  intros H. apply crosslist_lt in H. lia.
Qed.

(** [crossed_arrows] returns positions in [self.Arrows]: a position is
    returned exactly when the arrow listed there is another arrow than the
    given one, is not to be ignored and is properly crossed by the given
    arrow; no position is returned twice; and for [None] the tuple is
    empty. *)
Theorem crossed_arrows_positions d (a : AId) (ign : list (option AId)) :
  (forall k, k ∈ crossed_arrows d (Some a) ign <->
             exists b, Arrows d !! k = Some b /\ b <> a /\ (Some b ∉ ign) /\
                       is_Some (arrow_xor (segment d a) (segment d b))) /\
  NoDup (crossed_arrows d (Some a) ign) /\
  crossed_arrows d None ign = [].
Proof.
  unfold crossed_arrows. split; [|split; [|reflexivity]].
  - intros k. rewrite sorted_perm, crosslist_spec. split.
    + intros (i & b & -> & H). exists b. exact H.
    + intros (b & H). exists k, b. split; [reflexivity|exact H].
  - rewrite sorted_perm. apply crosslist_NoDup.
Qed.

Lemma pair_leb_Qle x y : pair_leb x y = true -> (fst x <= fst y)%Q.
Proof.
  unfold pair_leb. destruct (fst x ?= fst y)%Q eqn:E; intros H.
  - apply Qeq_alt in E. rewrite E. apply Qle_refl.
  - apply Qlt_alt in E. by apply Qlt_le_weak.
  - discriminate.
Qed.

Lemma pair_leb_total x y : pair_leb x y = false -> pair_leb y x = true.
Proof.
  unfold pair_leb. destruct (fst x ?= fst y)%Q eqn:E; intros H.
  - apply Qeq_alt in E. assert (E' : (fst y ?= fst x)%Q = Eq).
    { apply Qeq_alt. by symmetry. }
    rewrite E'. apply Nat.leb_gt in H. apply Nat.leb_le. lia.
  - discriminate.
  - apply Qgt_alt in E. assert (E' : (fst y ?= fst x)%Q = Lt) by (by apply Qlt_alt).
    by rewrite E'.
Qed.

Lemma pair_leb_trans x y z :
  pair_leb x y = true -> pair_leb y z = true -> pair_leb x z = true.
Proof.
  unfold pair_leb.
  destruct (fst x ?= fst y)%Q eqn:E1; [| |discriminate];
    (destruct (fst y ?= fst z)%Q eqn:E2; [| |discriminate]); intros H1 H2.
  - apply Qeq_alt in E1, E2.
    assert (E : (fst x ?= fst z)%Q = Eq) by (apply Qeq_alt; by rewrite E1).
    rewrite E. apply Nat.leb_le in H1, H2. apply Nat.leb_le. lia.
  - apply Qeq_alt in E1. apply Qlt_alt in E2.
    assert (E : (fst x ?= fst z)%Q = Lt) by (apply Qlt_alt; by rewrite E1).
    by rewrite E.
  - apply Qlt_alt in E1. apply Qeq_alt in E2.
    assert (E : (fst x ?= fst z)%Q = Lt) by (apply Qlt_alt; by rewrite <- E2).
    by rewrite E.
  - apply Qlt_alt in E1, E2.
    assert (E : (fst x ?= fst z)%Q = Lt)
      by (apply Qlt_alt; by apply Qlt_trans with (fst y)).
    by rewrite E.
Qed.

Lemma insert_sorted_ordered x l :
  StronglySorted (fun u v => pair_leb u v = true) l ->
  StronglySorted (fun u v => pair_leb u v = true) (insert_sorted x l).
Proof.
  induction 1 as [|y l Hs IH Hall]; simpl.
  - repeat constructor.
  - destruct (pair_leb x y) eqn:E.
    + constructor; [by constructor|]. constructor; [exact E|].
      eapply Forall_impl; [exact Hall|]. intros z Hz. by eapply pair_leb_trans.
    + constructor; [exact IH|].
      rewrite insert_sorted_perm. constructor; [by apply pair_leb_total|exact Hall].
Qed.

Lemma sorted_ordered l : StronglySorted (fun u v => pair_leb u v = true) (sorted l).
Proof.
  induction l as [|x l IH]; simpl; [constructor|]. by apply insert_sorted_ordered.
Qed.

Lemma ordered_lookup (l : list (Q * nat)) :
  StronglySorted (fun u v => pair_leb u v = true) l ->
  forall i j x y, (i < j)%nat -> l !! i = Some x -> l !! j = Some y ->
                  pair_leb x y = true.
Proof.
  induction 1 as [|z l Hs IH Hall]; intros i j x y Hij Hi Hj.
  - by rewrite lookup_nil in Hi.
  - destruct j as [|j]; [lia|]. simpl in Hj. destruct i as [|i]; simpl in Hi.
    + injection Hi as ->. rewrite Forall_forall in Hall.
      apply Hall. eapply list_elem_of_lookup_2, Hj.
    + apply (IH i j); [lia|assumption..].
Qed.

Lemma crosslist_param d a ign arrows : forall n t k,
  (t, k) ∈ crosslist d a ign n arrows ->
  exists i b, k = (n + i)%nat /\ arrows !! i = Some b /\
              arrow_xor (segment d a) (segment d b) = Some t.
Proof.
  induction arrows as [|b arrows IH]; intros n t k; simpl.
  - intros H. by apply not_elem_of_nil in H.
  - assert (Hrest : (t, k) ∈ crosslist d a ign (S n) arrows ->
              exists i b', k = (n + i)%nat /\ (b :: arrows) !! i = Some b' /\
                           arrow_xor (segment d a) (segment d b') = Some t).
    { intros H. apply IH in H as (i & b' & -> & H). exists (S i), b'.
      split; [lia|exact H]. }
    destruct (_ || _); [exact Hrest|].
    destruct (arrow_xor (segment d a) (segment d b)) as [t'|] eqn:Ex; [|exact Hrest].
    intros H. apply elem_of_cons in H as [[= -> ->]|H]; [|by apply Hrest].
    exists 0%nat, b. split; [lia|]. split; [reflexivity|exact Ex].
Qed.

(** [crossed_arrows] lists the crossed arrows in order along the given
    arrow: of two returned positions, the earlier one belongs to an arrow
    that is met at a parameter that is not larger. *)
Theorem crossed_arrows_in_order d (a : AId) (ign : list (option AId))
    (i j k1 k2 : nat) (b1 b2 : AId) (t1 t2 : Q) :
  (i < j)%nat ->
  crossed_arrows d (Some a) ign !! i = Some k1 ->
  crossed_arrows d (Some a) ign !! j = Some k2 ->
  Arrows d !! k1 = Some b1 ->
  Arrows d !! k2 = Some b2 ->
  arrow_xor (segment d a) (segment d b1) = Some t1 ->
  arrow_xor (segment d a) (segment d b2) = Some t2 ->
  (t1 <= t2)%Q.
Proof.
  intros Hij H1 H2 Hb1 Hb2 Ht1 Ht2. unfold crossed_arrows in H1, H2.
  rewrite list_lookup_fmap in H1, H2.
  destruct (sorted _ !! i) as [[u1 n1]|] eqn:E1; [|discriminate].
  destruct (sorted _ !! j) as [[u2 n2]|] eqn:E2; [|discriminate].
  simpl in H1, H2. injection H1 as ->. injection H2 as ->.
  assert (Hin : forall t k i', sorted (crosslist d a ign 0 (Arrows d)) !! i' = Some (t, k) ->
            forall b t', Arrows d !! k = Some b ->
              arrow_xor (segment d a) (segment d b) = Some t' -> t = t').
  { intros t k i' Hl b t' Hb Ht. apply list_elem_of_lookup_2 in Hl.
    rewrite sorted_perm in Hl.
    apply crosslist_param in Hl as (i0 & b0 & -> & Hb0 & Hx). simpl in Hb.
    congruence. }
  rewrite <- (Hin _ _ _ E1 _ _ Hb1 Ht1), <- (Hin _ _ _ E2 _ _ Hb2 Ht2).
  pose proof (sorted_ordered (crosslist d a ign 0 (Arrows d))) as Hs.
  apply (pair_leb_Qle (u1, k1) (u2, k2)).
  exact (ordered_lookup _ Hs i j _ _ Hij E1 E2).
Qed.

(** ** The paths that the Reidemeister moves follow *)

Lemma chained_snoc d path z c :
  chained d path -> last path = Some z ->
  out_arrow (vertex d (aend (arrow d z))) = Some c ->
  chained d (path ++ [c]).
Proof.
  intros Hch Hlast Hout i b c' Hb Hc.
  destruct (decide (S i < length path)%nat) as [Hlt|Hge].
  - rewrite lookup_app_l in Hb by lia. rewrite lookup_app_l in Hc by lia. eauto.
  - assert (Hi : S i = length path).
    { apply lookup_lt_Some in Hc. rewrite length_app in Hc. simpl in Hc. lia. }
    rewrite lookup_app_l in Hb by lia.
    rewrite lookup_app_r in Hc by lia.
    replace (S i - length path)%nat with 0%nat in Hc by lia. simpl in Hc.
    injection Hc as <-.
    rewrite last_lookup in Hlast. replace (pred (length path)) with i in Hlast by lia.
    congruence.
Qed.

Lemma path_btwn_loop_spec d v2 fuel : forall path z res,
  last path = Some z ->
  chained d path ->
  (forall i b, path !! i = Some b -> (S i < length path)%nat ->
               vertex_eq (point d (aend (arrow d b))) (point d v2) = false) ->
  path_btwn_loop d v2 fuel path z = Val res ->
  path `prefix_of` res /\ chained d res /\
  (exists z', last res = Some z' /\
              vertex_eq (point d (aend (arrow d z'))) (point d v2) = true) /\
  (forall i b, res !! i = Some b -> (S i < length res)%nat ->
               vertex_eq (point d (aend (arrow d b))) (point d v2) = false) /\
  (length res <= length path + fuel)%nat.
Proof.
  induction fuel as [|fuel IH]; intros path z res Hlast Hch Hearly; simpl;
    destruct (vertex_eq (point d (aend (arrow d z))) (point d v2)) eqn:Ev.
  - intros [= <-]. repeat split; eauto. lia.
  - discriminate.
  - intros [= <-]. repeat split; eauto. lia.
  - destruct (out_arrow (vertex d (aend (arrow d z)))) as [c|] eqn:Eo; [|discriminate].
    intros H. apply IH in H as (Hpre & Hch' & Hend & Hearly' & Hlen).
    + split; [|split; [exact Hch'|split; [exact Hend|split; [exact Hearly'|]]]].
      * etrans; [|exact Hpre]. by apply prefix_app_r.
      * rewrite length_app in Hlen. simpl in Hlen. lia.
    + by rewrite last_snoc.
    + by eapply chained_snoc.
    + intros i b Hb Hi. rewrite length_app in Hi. simpl in Hi.
      destruct (decide (S i < length path)%nat) as [Hlt|Hge].
      * rewrite lookup_app_l in Hb by lia. eauto.
      * rewrite lookup_app_l in Hb by lia.
        rewrite last_lookup in Hlast.
        replace (pred (length path)) with i in Hlast by lia. congruence.
Qed.

Lemma path_btwn_loop_more_fuel d v2 fuel : forall fuel' path z res,
  (fuel <= fuel')%nat ->
  path_btwn_loop d v2 fuel path z = Val res ->
  path_btwn_loop d v2 fuel' path z = Val res.
Proof.
  induction fuel as [|fuel IH]; intros fuel' path z res Hle; simpl;
    destruct (vertex_eq (point d (aend (arrow d z))) (point d v2)) eqn:Ev;
    try discriminate.
  - intros H. destruct fuel'; simpl; by rewrite Ev.
  - intros H. destruct fuel'; simpl; by rewrite Ev.
  - destruct fuel' as [|fuel']; [lia|]. simpl. rewrite Ev.
    destruct (out_arrow _); [|discriminate]. apply IH. lia.
Qed.

(** [get_path_btwn_verts] follows the outgoing arrows from [v1]: a path
    that it returns starts with the outgoing arrow of [v1], every arrow is
    followed by the outgoing arrow of its end, its last arrow ends at a
    vertex that equals [v2] and no earlier arrow does; it is found within
    as many rounds as it has arrows after the first, and is the answer
    however many more rounds are allowed. *)
Theorem get_path_btwn_verts_chain d (fuel : nat) (v1 v2 : VId) (path : list AId) :
  get_path_btwn_verts d fuel v1 v2 = Val path ->
  (exists a, head path = Some a /\ out_arrow (vertex d v1) = Some a) /\
  chained d path /\
  (exists z, last path = Some z /\
             vertex_eq (point d (aend (arrow d z))) (point d v2) = true) /\
  (forall i b, path !! i = Some b -> (S i < length path)%nat ->
               vertex_eq (point d (aend (arrow d b))) (point d v2) = false) /\
  (length path <= S fuel)%nat /\
  (forall fuel', (fuel <= fuel')%nat -> get_path_btwn_verts d fuel' v1 v2 = Val path).
Proof.
  unfold get_path_btwn_verts.
  destruct (out_arrow (vertex d v1)) as [a|] eqn:Eo; [|discriminate].
  intros H. pose proof H as Hmore.
  apply path_btwn_loop_spec in H as (Hpre & Hch & Hend & Hearly & Hlen).
  - split; [|split; [exact Hch|split; [exact Hend|split; [exact Hearly|split; [exact Hlen|]]]]].
    + exists a. split; [|reflexivity].
      destruct Hpre as [k ->]. reflexivity.
    + intros fuel' Hle. by eapply path_btwn_loop_more_fuel.
  - reflexivity.
  - intros i b c Hb Hc. destruct i; simpl in Hc; by rewrite ?lookup_nil in Hc.
  - intros i b _ Hi. simpl in Hi. lia.
Qed.

Lemma arrow_path_loop_spec d target fuel : forall path res,
  path <> [] ->
  chained d path ->
  (forall i b, path !! i = Some b -> (S i < length path)%nat -> b <> target) ->
  arrow_path_loop d target fuel path = Val res ->
  path `prefix_of` res /\ chained d res /\ last res = Some target /\
  (forall i b, res !! i = Some b -> (S i < length res)%nat -> b <> target) /\
  (length res <= length path + fuel)%nat.
Proof.
  induction fuel as [|fuel IH]; intros path res Hne Hch Hearly; simpl;
    unfold arrow_in; destruct (bool_decide (target ∈ path)) eqn:Ein.
  1,3: intros [= <-]; apply bool_decide_eq_true in Ein;
       (split; [reflexivity|split; [exact Hch|split; [|split; [exact Hearly|lia]]]]);
       apply list_elem_of_lookup in Ein as [i Hi];
       destruct (decide (S i < length path)%nat) as [Hlt|Hge];
       [by destruct (Hearly i target Hi Hlt)|];
       rewrite last_lookup; apply lookup_lt_Some in Hi as Hi';
       by replace (pred (length path)) with i by lia.
  - discriminate.
  - apply bool_decide_eq_false in Ein.
    destruct (last path) as [z|] eqn:El; [|discriminate].
    destruct (out_arrow (vertex d (aend (arrow d z)))) as [c|] eqn:Eo; [|discriminate].
    intros H. apply IH in H as (Hpre & Hch' & Hlast & Hearly' & Hlen).
    + split; [|split; [exact Hch'|split; [exact Hlast|split; [exact Hearly'|]]]].
      * etrans; [|exact Hpre]. by apply prefix_app_r.
      * rewrite length_app in Hlen. simpl in Hlen. lia.
    + by destruct path.
    + by eapply chained_snoc.
    + intros i b Hb Hi. rewrite length_app in Hi. simpl in Hi.
      rewrite lookup_app_l in Hb by lia.
      intros ->. apply Ein. by eapply list_elem_of_lookup_2.
Qed.

(** [get_over_arrow_path] and [get_under_arrow_path] walk along the strand
    from one arrow of the crossing until the other one is met: the path
    returned starts with the first, every arrow is followed by the outgoing
    arrow of its end, and the other arrow of the crossing is its last arrow
    and occurs nowhere before. *)
Theorem get_arrow_paths_chain d (fuel : nat) (crossing : Crossing) (path : list AId) :
  (get_over_arrow_path d fuel crossing = Val path ->
     head path = Some (over crossing) /\ chained d path /\
     last path = Some (under crossing) /\
     (forall i b, path !! i = Some b -> (S i < length path)%nat -> b <> under crossing) /\
     (length path <= S fuel)%nat) /\
  (get_under_arrow_path d fuel crossing = Val path ->
     head path = Some (under crossing) /\ chained d path /\
     last path = Some (over crossing) /\
     (forall i b, path !! i = Some b -> (S i < length path)%nat -> b <> over crossing) /\
     (length path <= S fuel)%nat).
Proof.
  assert (Hone : forall x, chained d [x]).
  { intros x i b c Hb Hc. destruct i; simpl in Hc; by rewrite ?lookup_nil in Hc. }
  assert (Hearly : forall (x t : AId) i (b : AId),
            [x] !! i = Some b -> (S i < length [x])%nat -> b <> t).
  { intros x t i b _ Hi. simpl in Hi. lia. }
  split; intros H;
    apply arrow_path_loop_spec in H as (Hpre & Hch & Hlast & He & Hlen);
    try done; try apply Hone; try apply Hearly;
    (split; [destruct Hpre as [k ->]; reflexivity|done]).
Qed.

Lemma vertex_set_loop_spec d len rest : forall n v,
  v ∈ vertex_set_loop d n len rest <->
  exists j a, rest !! j = Some a /\
    ((v = aend (arrow d a) /\ ((n + j)%nat = 0%nat \/ (n + j)%nat <> (len - 1)%nat)) \/
     (v = astart (arrow d a) /\ (n + j)%nat <> 0%nat)).
Proof.
  induction rest as [|a rest IH]; intros n v; simpl.
  - split; [intros H; by apply not_elem_of_nil in H|].
    intros (j & a & H & _). by rewrite lookup_nil in H.
  - rewrite elem_of_app, IH. split.
    + intros [H|(j & b & Hb & H)].
      * exists 0%nat, a. split; [reflexivity|]. rewrite Nat.add_0_r.
        destruct (bool_decide (n = 0%nat)) eqn:E0.
        { apply bool_decide_eq_true in E0. apply list_elem_of_singleton in H. auto. }
        apply bool_decide_eq_false in E0.
        destruct (bool_decide (n = (len - 1)%nat)) eqn:E1.
        { apply list_elem_of_singleton in H. auto. }
        apply bool_decide_eq_false in E1.
        apply elem_of_cons in H as [->|H]; [auto|].
        apply list_elem_of_singleton in H. auto.
      * exists (S j), b. split; [exact Hb|].
        replace (n + S j)%nat with (S n + j)%nat by lia. exact H.
    + intros ([|j] & b & Hb & H).
      * left. simpl in Hb. injection Hb as <-. rewrite Nat.add_0_r in H.
        destruct (bool_decide (n = 0%nat)) eqn:E0.
        { apply bool_decide_eq_true in E0. apply list_elem_of_singleton.
          destruct H as [[-> _]|[_ ?]]; [reflexivity|lia]. }
        apply bool_decide_eq_false in E0.
        destruct (bool_decide (n = (len - 1)%nat)) eqn:E1.
        { apply bool_decide_eq_true in E1. apply list_elem_of_singleton.
          destruct H as [[_ [?|?]]|[-> _]]; [lia|lia|reflexivity]. }
        destruct H as [[-> _]|[-> _]]; [|apply elem_of_cons; by left].
        apply elem_of_cons. right. by apply list_elem_of_singleton.
      * right. exists j, b. split; [exact Hb|].
        replace (S n + j)%nat with (n + S j)%nat by lia. exact H.
Qed.

(** [get_vertex_set] collects, each once, the end of every arrow of the
    path but the last and the start of every arrow but the first.  For a
    path of one arrow the first test of the loop wins: the set is the end
    of that arrow, which is the vertex the path leads to. *)
Theorem get_vertex_set_members d (path : list AId) :
  (forall v, v ∈ get_vertex_set d path <->
     exists i a, path !! i = Some a /\
       ((v = aend (arrow d a) /\ (i = 0%nat \/ (S i < length path)%nat)) \/
        (v = astart (arrow d a) /\ i <> 0%nat))) /\
  NoDup (get_vertex_set d path) /\
  (forall a, get_vertex_set d [a] = [aend (arrow d a)]) /\
  get_vertex_set d [] = [].
Proof.
  unfold get_vertex_set. split; [|split; [apply NoDup_remove_dups|split; reflexivity]].
  intros v. rewrite elem_of_remove_dups, vertex_set_loop_spec. simpl.
  split; intros (i & a & Ha & H); exists i, a; (split; [exact Ha|]);
    apply lookup_lt_Some in Ha as Hlt;
    (destruct H as [[-> H]|[-> H]]; [left|right]; (split; [reflexivity|lia])).
Qed.

(** ** Taking an arrow out of the diagram *)

Lemma py_remove_eq_spec (a : AId) (l : list AId) :
  match py_remove (fun b => bool_decide (b = a)) l with
  | None => a ∉ l
  | Some l' => exists l1 l2, l = l1 ++ a :: l2 /\ l' = l1 ++ l2 /\ (a ∉ l1)
  end.
Proof.
  induction l as [|b l IH]; simpl; [apply not_elem_of_nil|].
  destruct (bool_decide (b = a)) eqn:E.
  - apply bool_decide_eq_true in E as ->. exists [], l.
    split; [reflexivity|]. split; [reflexivity|apply not_elem_of_nil].
  - apply bool_decide_eq_false in E.
    destruct (py_remove _ l) as [l'|]; simpl.
    + destruct IH as (l1 & l2 & -> & -> & Hni). exists (b :: l1), l2.
      split; [reflexivity|]. split; [reflexivity|].
      rewrite not_elem_of_cons. split; [congruence|exact Hni].
    + rewrite not_elem_of_cons. split; [congruence|exact IH].
Qed.

(** [destroy_arrow] raises [ValueError] for an arrow that is not listed and
    then has changed nothing.  For a listed arrow it returns: the first
    occurrence of the arrow is gone from [self.Arrows] and the other arrows
    stay in their order, the list of vertices is as before, the end vertex
    of the arrow has no incoming and its start vertex no outgoing arrow any
    more, and the crossings that are left are the former ones without the
    arrow, in their order. *)
Theorem destroy_arrow_spec d (a : AId) :
  (a ∉ Arrows d ->
   forall s, diagram s = d -> do_destroy_arrow a s = Raise ValueError s) /\
  (a ∈ Arrows d ->
   exists d' l1 l2,
     destroy_arrow a d = Some d' /\
     Arrows d = l1 ++ a :: l2 /\ Arrows d' = l1 ++ l2 /\ (a ∉ l1) /\
     Vertices d' = Vertices d /\
     in_arrow (vertex d' (aend (arrow d a))) = None /\
     out_arrow (vertex d' (astart (arrow d a))) = None /\
     Crossings d' = filter (fun c => negb (crossing_contains c a)) (Crossings d) /\
     (forall c, c ∈ Crossings d' -> crossing_contains c a = false)).
Proof.
  unfold do_destroy_arrow, destroy_arrow.
  pose proof (py_remove_eq_spec a (Arrows d)) as Hrm.
  destruct (py_remove _ (Arrows d)) as [l'|] eqn:Erm; split; intros Hin.
  - destruct Hrm as (l1 & l2 & H & _). exfalso. apply Hin. rewrite H.
    apply elem_of_app. right. apply elem_of_cons. by left.
  - destruct Hrm as (l1 & l2 & H1 & H2 & H3).
    eexists _, l1, l2. split; [reflexivity|].
    split; [exact H1|]. split; [exact H2|]. split; [exact H3|].
    split; [reflexivity|]. cbn [Crossings set_Crossings].
    change (arrow (set_Arrows l' d) a) with (arrow d a).
    change (arrow (set_vertex (aend (arrow d a)) (with_in_arrow None) (set_Arrows l' d)) a)
      with (arrow d a).
    split; [|split; [|split; [reflexivity|]]].
    + unfold vertex at 1. cbn [vstore set_Crossings]. fold (vertex (set_vertex (astart (arrow d a)) (with_out_arrow None)
            (set_vertex (aend (arrow d a)) (with_in_arrow None) (set_Arrows l' d))) (aend (arrow d a))).
      destruct (decide (astart (arrow d a) = aend (arrow d a))) as [E|E].
      * rewrite E, vertex_set_vertex_eq. simpl. by rewrite vertex_set_vertex_eq.
      * rewrite vertex_set_vertex_ne by done. by rewrite vertex_set_vertex_eq.
    + unfold vertex at 1. cbn [vstore set_Crossings]. fold (vertex (set_vertex (astart (arrow d a)) (with_out_arrow None)
            (set_vertex (aend (arrow d a)) (with_in_arrow None) (set_Arrows l' d))) (astart (arrow d a))).
      by rewrite vertex_set_vertex_eq.
    + intros c Hc. apply list_elem_of_filter in Hc as [Hc _].
      by destruct (crossing_contains c a).
  - intros s <-. by rewrite Erm.
  - contradiction.
Qed.

(** ** The mode keys *)

Lemma press_mode_key_drawn_ok k md :
  mode_display_ok md ->
  exists md', press_mode_key_drawn k md = Val md' /\ mode_display_ok md' /\
              fst md' = press_mode_key k (fst md) /\
              (mode_flag k (fst md') = negb (mode_flag k (fst md))) /\
              (forall k', k' <> k -> mode_flag k' (fst md') = false).
Proof.
  destruct md as [m drawn]. intros [[Hm Hd]|(k0 & Hm & Hd)]; simpl in Hm, Hd; subst.
  - eexists. split; [by destruct k|]. split; [right; exists k; by destruct k|].
    split; [by destruct k|]. split; [by destruct k|].
    intros k' Hk. by destruct k, k'.
  - destruct (decide (k0 = k)) as [->|Hne].
    + eexists. split; [by destruct k|]. split; [left; by destruct k|].
      split; [by destruct k|]. split; [by destruct k|].
      intros k' Hk. by destruct k, k'.
    + exists (with_mode_flag k true true (mkModes false false false false false false),
              [mode_label k]).
      split; [destruct k, k0; first [reflexivity|by destruct Hne]|].
      split; [right; by exists k|].
      split; [destruct k, k0; first [reflexivity|by destruct Hne]|].
      split; [destruct k, k0; first [reflexivity|by destruct Hne]|].
      intros k' Hk. destruct k, k0; first [by destruct Hne|by destruct k'].
Qed.

(** Whatever mode keys are pressed, the label on the canvas never gets out
    of step with the flags: [self.modes_draw[0]] is there whenever it is
    deleted, so no key raises; afterwards at most one mode is on, and its
    label, alone, is shown; [self.modes] tells whether one is on.  The key
    of a mode toggles that mode and switches every other mode off. *)
Theorem mode_keys_keep_label_in_step (ks : list ModeKey) (md : Modes * list string) :
  mode_display_ok md ->
  exists md',
    press_mode_keys ks md = Val md' /\
    mode_display_ok md' /\
    fst md' = fold_left (fun m k => press_mode_key k m) ks (fst md) /\
    (forall k k', mode_flag k (fst md') = true -> mode_flag k' (fst md') = true -> k = k') /\
    (forall k, mode_flag k (fst md') = true <-> snd md' = [mode_label k]) /\
    (modes_on (fst md') = true <-> exists k, mode_flag k (fst md') = true) /\
    (forall k md1, press_mode_key_drawn k md' = Val md1 ->
                   mode_flag k (fst md1) = negb (mode_flag k (fst md')) /\
                   forall k', k' <> k -> mode_flag k' (fst md1) = false).
Proof.
  revert md. induction ks as [|k ks IH]; intros md Hok.
  - exists md. split; [reflexivity|]. split; [exact Hok|]. split; [reflexivity|].
    destruct md as [m drawn].
    split; [|split; [|split]].
    + intros k k'. destruct Hok as [[Hm Hd]|(k0 & Hm & Hd)]; simpl in *; subst;
        [by destruct k|by destruct k, k', k0].
    + intros k. destruct Hok as [[Hm Hd]|(k0 & Hm & Hd)]; simpl in *; subst;
        [by destruct k|by destruct k, k0].
    + destruct Hok as [[Hm Hd]|(k0 & Hm & Hd)]; simpl in *; subst.
      * split; [discriminate|]. intros [k Hk]. by destruct k.
      * split; [|by destruct k0]. intros _. exists k0. by destruct k0.
    + intros k md1 H.
      destruct (press_mode_key_drawn_ok k (m, drawn) Hok) as (md2 & H2 & _ & _ & Hflip & Hoff).
      rewrite H in H2. injection H2 as <-. split; [exact Hflip|exact Hoff].
  - destruct (press_mode_key_drawn_ok k md Hok) as (md1 & H1 & Hok1 & Hm1 & _).
    destruct (IH md1 Hok1) as (md' & H & Hrest).
    exists md'. simpl. rewrite H1. split; [exact H|].
    rewrite <- Hm1. exact Hrest.
Qed.

(** ** Dropping a vertex in vertex mode *)

(** In vertex mode [end_dragging_state] compares the number of arrows that
    the two arrows of the dragged vertex cross with the length of the pair
    that [active_crossing_data] returns, which is 2.  So a drag that
    [verify_drag] lets through is still refused with [ValueError], the
    vertex staying where it was dropped and the editor in the state it was
    in, unless these arrows cross exactly two arrows in all. *)
Theorem vertex_mode_drop_needs_two_crossed s sv (active : VId) :
  vertex_mode (modes s) = true ->
  ActiveVertex s = Some active ->
  verify_drag s = Ret true sv ->
  (length (crossed_by_active active (settle_drag active sv)) <> 2%nat ->
   end_dragging_state s = Raise ValueError (settle_drag active sv) /\
   state (settle_drag active sv) = state s) /\
  (forall s', end_dragging_state s = Ret tt s' ->
              length (crossed_by_active active (settle_drag active sv)) = 2%nat).
Proof.
  intros Hvm Hact Hver.
  destruct (verify_drag_only_crossings s active Hact) as (s0 & Honly & Hres).
  assert (s0 = sv) as ->.
  { destruct Hres as [[b Hb]|[e He]]; rewrite Hver in *; [|discriminate].
    by apply Ret_inj in Hb. }
  assert (Hfacts : ActiveVertex sv = Some active /\ modes sv = modes s /\
                   state sv = state s).
  { destruct Honly as (cs & pts & ->). by rewrite <- Hact. }
  destruct Hfacts as (Hact' & Hmodes & Hstate).
  assert (Hmodes' : vertex_mode (modes (settle_drag active sv)) = true).
  { unfold settle_drag. destruct (lock_var sv); cbn; by rewrite Hmodes. }
  assert (Hstate' : state (settle_drag active sv) = state s).
  { unfold settle_drag. destruct (lock_var sv); cbn; exact Hstate. }
  unfold end_dragging_state. rewrite Hver. cbn [bind negb]. rewrite Hact'.
  fold (settle_drag active sv). fold (crossed_by_active active (settle_drag active sv)).
  rewrite Hmodes'. cbn [andb].
  destruct (bool_decide (length (crossed_by_active active (settle_drag active sv)) = 2%nat))
    eqn:E; cbn [negb].
  - apply bool_decide_eq_true in E. split; [intros Hne; contradiction|].
    intros _ _. exact E.
  - apply bool_decide_eq_false in E. split; [intros _; split; [reflexivity|exact Hstate']|].
    intros s' H. discriminate.
Qed.

(** ** Clicking a crossing twice *)

Lemma alter_twice_back (f g : Crossing -> Crossing) i (cs : list Crossing) c :
  cs !! i = Some c -> f (g c) = c -> alter f i (alter g i cs) = cs.
Proof.
  intros Hc Hfg. apply list_eq. intros j. destruct (decide (j = i)) as [->|Hne].
  - rewrite !list_lookup_alter_eq, Hc. simpl. by rewrite Hfg.
  - by rewrite !list_lookup_alter_ne.
Qed.

Lemma set_Crossings_same d : set_Crossings (Crossings d) d = d.
Proof. by destruct d. Qed.

(** A second shift-click on the same spot undoes the first: the virtual
    flag of the crossing is back, and nothing else in the diagram or among
    the hit points has changed. *)
Theorem shift_click_twice (p : Pt) s s1 s2 :
  shift_click p s = Ret tt s1 ->
  shift_click p s1 = Ret tt s2 ->
  diagram s2 = diagram s /\ CrossPoints s2 = CrossPoints s.
Proof.
  assert (Hskip : forall s0 s3, Ret tt s0 = Ret tt s3 ->
            shift_click p s0 = Ret tt s0 -> shift_click p s3 = Ret tt s2 ->
            diagram s2 = diagram s0 /\ CrossPoints s2 = CrossPoints s0).
  { intros s0 s3 H H0 H3. apply Ret_inj in H. subst s3. rewrite H0 in H3.
    apply Ret_inj in H3. by subst s2. }
  assert (Hact : forall s0 s3,
            style_var s0 <> style_smooth -> lock_var s0 = false ->
            (state s0 = start_state -> has_focus s0 = true) ->
            match crosspoint_index s0 p with
            | None => Ret tt s0
            | Some i =>
              match Crossings (diagram s0) !! i with
              | None => Raise IndexError s0
              | Some crossing =>
                Ret tt (on_diagram
                          (alter_crossing i
                             (with_is_virtual (negb (is_virtual crossing)))) s0)
              end
            end = Ret tt s3 ->
            shift_click p s3 = Ret tt s2 ->
            diagram s2 = diagram s0 /\ CrossPoints s2 = CrossPoints s0).
  { intros s0 s3 Hst Hl Hf H H3.
    assert (Hs3 : style_var s3 = style_var s0 /\ lock_var s3 = lock_var s0 /\
                  state s3 = state s0 /\ has_focus s3 = has_focus s0 /\
                  CrossPoints s3 = CrossPoints s0).
    { destruct (crosspoint_index s0 p);
        [destruct (Crossings (diagram s0) !! n); [|discriminate]|];
        apply Ret_inj in H; by subst s3. }
    destruct Hs3 as (Hst3 & Hl3 & Hs3 & Hf3 & Hcp3).
    unfold shift_click in H3. rewrite Hst3, Hl3, Hl, Hs3, Hf3 in H3.
    assert (Hinner :
      match crosspoint_index s3 p with
      | None => Ret tt s3
      | Some i =>
        match Crossings (diagram s3) !! i with
        | None => Raise IndexError s3
        | Some crossing =>
          Ret tt (on_diagram
                    (alter_crossing i
                       (with_is_virtual (negb (is_virtual crossing)))) s3)
        end
      end = Ret tt s2 \/
      match crosspoint_index (set_has_focus true s3) p with
      | None => Ret tt (set_has_focus true s3)
      | Some i =>
        match Crossings (diagram (set_has_focus true s3)) !! i with
        | None => Raise IndexError (set_has_focus true s3)
        | Some crossing =>
          Ret tt (on_diagram
                    (alter_crossing i
                       (with_is_virtual (negb (is_virtual crossing))))
                    (set_has_focus true s3))
        end
      end = Ret tt s2).
    { destruct (style_var s0); [|by destruct Hst|];
        (destruct (state s0) eqn:Es0; [rewrite (Hf eq_refl) in H3; by left|by right..]). }
    clear H3.
    unfold crosspoint_index in *.
    cbn [CrossPoints diagram set_has_focus] in Hinner. rewrite Hcp3 in Hinner.
    destruct (py_index (fun cp => vertex_eq cp p) (CrossPoints s0)) as [i|] eqn:Ei.
    - destruct (Crossings (diagram s0) !! i) as [c|] eqn:Ec; [|discriminate].
      apply Ret_inj in H. subst s3.
      cbn [diagram on_diagram set_diagram alter_crossing Crossings set_Crossings]
        in Hinner.
      rewrite list_lookup_alter_eq, Ec in Hinner. cbn [fmap option_fmap option_map] in Hinner.
      assert (Hback : alter (with_is_virtual
                               (negb (is_virtual
                                        (with_is_virtual (negb (is_virtual c)) c)))) i
                        (alter (with_is_virtual (negb (is_virtual c))) i
                               (Crossings (diagram s0))) = Crossings (diagram s0)).
      { apply (alter_twice_back _ _ i _ c Ec). destruct c; cbn.
        by rewrite negb_involutive. }
      destruct Hinner as [H|H]; apply Ret_inj in H; subst s2;
        cbn [diagram CrossPoints on_diagram set_diagram set_has_focus alter_crossing
             Crossings set_Crossings];
        (split; [|reflexivity]); unfold alter_crossing;
        cbn [Crossings set_Crossings]; rewrite Hback; by destruct (diagram s0).
    - apply Ret_inj in H. subst s3.
      destruct Hinner as [H|H]; apply Ret_inj in H; by subst s2. }
  intros H1 H2. unfold shift_click in H1.
  assert (Hsame : shift_click p s = Ret tt s1) by exact H1.
  destruct (style_var s) eqn:Est.
  2: { eapply Hskip; [exact H1| |exact H2]. unfold shift_click. by rewrite Est. }
  all: destruct (lock_var s) eqn:Elock;
    [eapply Hskip; [exact H1| |exact H2]; unfold shift_click; by rewrite Est, Elock|].
  all: destruct (state s) eqn:Es.
  all: try (destruct (has_focus s) eqn:Ef;
            [|eapply Hskip; [exact H1| |exact H2]; unfold shift_click;
              by rewrite Est, Elock, Es, Ef]).
  all: cbv beta iota zeta in H1.
  all: first
    [ apply (Hact s s1); [by rewrite Est|exact Elock|by intros _|exact H1|exact H2]
    | change (diagram s2 = diagram (set_has_focus true s) /\
              CrossPoints s2 = CrossPoints (set_has_focus true s));
      apply (Hact (set_has_focus true s) s1);
      [cbn; by rewrite Est|exact Elock|by intros _|exact H1|exact H2] ].
Qed.

Lemma single_click_on_crossing (fuel : nat) (p : Pt) s (i : nat) :
  style_var s <> style_smooth ->
  state s = start_state ->
  has_focus s = true ->
  lock_var s = false ->
  py_in (fun v => vertex_eq (point (diagram s) v) p) (Vertices (diagram s)) = false ->
  crosspoint_index s p = Some i ->
  r1_mode (modes s) = false ->
  r2_mode (modes s) = false ->
  single_click fuel p s = click_crossing p s.
Proof.
  intros Hstyle Hstate Hfocus Hlock Hvert Hidx Hr1 Hr2.
  pose proof (py_index_py_in _ _ _ Hidx) as Hin.
  unfold single_click. rewrite Hstate, Hfocus. cbn [negb].
  unfold click_start. rewrite Hvert, Hlock, Hin, Hr1, Hr2.
  destruct (style_var s); try congruence; reflexivity.
Qed.

(** Two plain clicks on a crossing that is not virtual, outside R1 and R2
    mode, swap over and under twice: the editor is exactly as it was.  On
    a virtual crossing the first click takes the flag off and the second
    swaps over and under. *)
Theorem plain_click_twice (fuel : nat) (p : Pt) s (i : nat) (c : Crossing) :
  style_var s <> style_smooth ->
  state s = start_state ->
  has_focus s = true ->
  lock_var s = false ->
  py_in (fun v => vertex_eq (point (diagram s) v) p) (Vertices (diagram s)) = false ->
  crosspoint_index s p = Some i ->
  Crossings (diagram s) !! i = Some c ->
  r1_mode (modes s) = false ->
  r2_mode (modes s) = false ->
  exists s1 s2,
    single_click fuel p s = Ret tt s1 /\
    single_click fuel p s1 = Ret tt s2 /\
    (is_virtual c = false -> s2 = s) /\
    (is_virtual c = true ->
     Crossings (diagram s2) !! i = Some (mkCrossing (under c) (over c) (cloc c) false) /\
     forall j, j <> i -> Crossings (diagram s2) !! j = Crossings (diagram s) !! j).
Proof.
  intros Hstyle Hstate Hfocus Hlock Hvert Hidx Hc Hr1 Hr2.
  set (f := if is_virtual c then with_is_virtual false else crossing_reverse).
  set (s1 := on_diagram (alter_crossing i f) s).
  assert (H1 : single_click fuel p s = Ret tt s1).
  { rewrite (single_click_on_crossing fuel p s i) by assumption.
    unfold click_crossing. rewrite Hidx, Hc. subst s1 f.
    by destruct (is_virtual c). }
  assert (Hc1 : Crossings (diagram s1) !! i = Some (f c)).
  { subst s1. cbn [diagram on_diagram set_diagram alter_crossing set_Crossings Crossings].
    by rewrite list_lookup_alter_eq, Hc. }
  assert (Hv1 : is_virtual (f c) = false).
  { subst f. destruct (is_virtual c) eqn:Ev; [reflexivity|exact Ev]. }
  set (s2 := on_diagram (alter_crossing i crossing_reverse) s1).
  assert (H2 : single_click fuel p s1 = Ret tt s2).
  { rewrite (single_click_on_crossing fuel p s1 i) by assumption.
    unfold click_crossing.
    change (crosspoint_index s1 p) with (crosspoint_index s p).
    rewrite Hidx, Hc1, Hv1. reflexivity. }
  exists s1, s2. split; [exact H1|]. split; [exact H2|].
  subst s2 s1 f.
  cbn [diagram on_diagram set_diagram alter_crossing set_Crossings Crossings].
  split; intros Ev; rewrite Ev.
  - unfold on_diagram, alter_crossing.
    cbn [diagram set_diagram set_Crossings Crossings].
    rewrite (alter_twice_back _ _ i _ c Hc) by (by destruct c).
    by destruct s as [[]].
  - split.
    + rewrite !list_lookup_alter_eq, Hc. reflexivity.
    + intros j Hj. rewrite !list_lookup_alter_ne by congruence. reflexivity.
Qed.

(** ** Starting a path *)

(** A click on empty canvas in the start state, away from every vertex,
    hit point and arrow.  If the spot is too near an arrow for a vertex,
    the canvas flashes and nothing else happens.  Otherwise one vertex is
    made there, without arrows, in the next colour of the palette, and is
    put at the end of the list of vertices; it is the active vertex of the
    drawing state that the editor is then in.  The other vertices, the
    arrows and the crossings are untouched. *)
Theorem click_on_empty_canvas (fuel : nat) (p : Pt) s :
  style_var s <> style_smooth ->
  state s = start_state ->
  has_focus s = true ->
  lock_var s = false ->
  py_in (fun v => vertex_eq (point (diagram s) v) p) (Vertices (diagram s)) = false ->
  py_in (fun cp => vertex_eq cp p) (CrossPoints s) = false ->
  clicked_on_arrow s p = false ->
  (generic_vertex s None p = false -> single_click fuel p s = Ret tt (alert s)) /\
  (generic_vertex s None p = true ->
   exists s',
     single_click fuel p s = Ret tt s' /\
     let v := fresh_vid (diagram s) in
     Vertices (diagram s') = Vertices (diagram s) ++ [v] /\
     (v ∉ dom (vstore (diagram s))) /\
     vertex (diagram s') v =
       mkVertex (fst p) (snd p) (fst (palette_new (palette s))) None None false 2 /\
     (forall w, w <> v -> vertex (diagram s') w = vertex (diagram s) w) /\
     astore (diagram s') = astore (diagram s) /\
     Arrows (diagram s') = Arrows (diagram s) /\
     Crossings (diagram s') = Crossings (diagram s) /\
     CrossPoints s' = CrossPoints s /\
     palette s' = snd (palette_new (palette s)) /\
     state s' = drawing_state /\
     ActiveVertex s' = Some v).
Proof.
  intros Hstyle Hstate Hfocus Hlock Hvert Hcp Harrow.
  assert (Hclick : single_click fuel p s = click_empty p s).
  { unfold single_click. rewrite Hstate, Hfocus. cbn [negb].
    unfold click_start. rewrite Hvert, Hlock, Hcp, Harrow.
    destruct (style_var s); try congruence; reflexivity. }
  rewrite Hclick. unfold click_empty. split; intros Hgen; rewrite Hgen; cbn [negb].
  - reflexivity.
  - eexists. split; [reflexivity|]. cbv zeta.
    unfold goto_drawing_state, new_vertex.
    cbn [diagram set_ActiveVertex set_palette set_diagram set_state fst snd
         set_Vertices Vertices Arrows Crossings astore CrossPoints palette state
         ActiveVertex].
    split; [reflexivity|].
    split; [apply (is_fresh (dom (vstore (diagram s))))|].
    split; [unfold vertex; cbn [vstore]; apply lookup_total_insert_eq|].
    split; [intros w Hw; unfold vertex; cbn [vstore];
            by apply lookup_total_insert_ne|].
    repeat split.
Qed.

(** ** Drawing an arrow *)

Lemma arrow_set_vertex v f d a : arrow (set_vertex v f d) a = arrow d a.
Proof. reflexivity. Qed.

Lemma fresh_vid_not_stored d v : is_Some (vstore d !! v) -> v <> fresh_vid d.
Proof.
  intros Hv ->. apply (is_fresh (dom (vstore d))). by apply elem_of_dom.
Qed.






(** ** Leaving the drawing state *)





(** ** Taking the last arrow back *)




(** ** The crossing detector *)

Lemma meets_update_crossings s a b c :
  meets (update_crossings (Some a) s) b c = meets s b c.
Proof. reflexivity. Qed.

(** One run of [update_crossings] for a listed arrow [a], on a diagram
    whose arrows are listed once and whose crossings are stored once per
    pair: afterwards [a] is joined by a stored crossing to another listed
    arrow exactly when the run found a crossing point of the two; the pairs
    without [a] are stored as before; still no pair is stored twice; and a
    second run for [a] changes no pair. *)
Theorem update_crossings_settles_arrow s (a : AId) :
  NoDup (Arrows (diagram s)) ->
  one_crossing_per_pair (Crossings (diagram s)) = true ->
  not_virtual (Crossings (diagram s)) ->
  let s' := update_crossings (Some a) s in
  let s'' := update_crossings (Some a) s' in
  one_crossing_per_pair (Crossings (diagram s')) = true /\
  not_virtual (Crossings (diagram s')) /\
  (forall y, y ∈ Arrows (diagram s) -> y <> a ->
             (pairs (Crossings (diagram s')) a y <-> meets s a y = true)) /\
  (forall x y, x <> a -> y <> a ->
               (pairs (Crossings (diagram s')) x y <-> pairs (Crossings (diagram s)) x y)) /\
  Arrows (diagram s') = Arrows (diagram s) /\
  Vertices (diagram s') = Vertices (diagram s) /\
  (forall x y, pairs (Crossings (diagram s'')) x y <-> pairs (Crossings (diagram s')) x y).
Proof.
  intros Hnd Hone Hvirt s' s''.
  destruct (update_crossings_spec s a Hnd Hone Hvirt) as (Hone' & Hvirt' & Hexp).
  fold s' in Hone', Hvirt', Hexp.
  assert (HA : Arrows (diagram s') = Arrows (diagram s)) by reflexivity.
  split; [exact Hone'|]. split; [exact Hvirt'|].
  split; [|split; [|split; [exact HA|split; [reflexivity|]]]].
  - intros y Hy Hne. rewrite Hexp. unfold expected.
    rewrite decide_True by done. reflexivity.
  - intros x y Hx Hy. rewrite Hexp. unfold expected.
    rewrite decide_False by (intros (? & _); congruence).
    rewrite decide_False by (intros (? & _); congruence). reflexivity.
  - assert (Hnd' : NoDup (Arrows (diagram s'))) by (by rewrite HA).
    destruct (update_crossings_spec s' a Hnd' Hone' Hvirt') as (_ & _ & Hexp').
    fold s'' in Hexp'. intros x y. rewrite Hexp'. unfold expected. rewrite HA.
    destruct (decide (x = a /\ y <> a /\ y ∈ Arrows (diagram s))) as [H1|H1].
    { rewrite Hexp. unfold expected. rewrite decide_True by exact H1.
      subst s'; by rewrite meets_update_crossings. }
    destruct (decide (y = a /\ x <> a /\ x ∈ Arrows (diagram s))) as [H2|H2];
      [|reflexivity].
    rewrite Hexp. unfold expected. rewrite decide_False by exact H1.
    rewrite decide_True by exact H2. subst s'; by rewrite meets_update_crossings.
Qed.

(** ** The verdict of [generic_arrow] *)

Lemma crossing_eq_refl (c : Crossing) : crossing_eq c c = true.
Proof.
  unfold crossing_eq. apply orb_true_iff. left.
  apply andb_true_iff. split; by apply bool_decide_eq_true_2.
Qed.

Lemma crossing_eq_sym (c c' : Crossing) : crossing_eq c c' = crossing_eq c' c.
Proof.
  unfold crossing_eq.
  rewrite (bool_decide_ext (over c = over c') (over c' = over c)) by (split; congruence).
  rewrite (bool_decide_ext (under c = under c') (under c' = under c)) by (split; congruence).
  rewrite (bool_decide_ext (over c = under c') (under c' = over c)) by (split; congruence).
  rewrite (bool_decide_ext (under c = over c') (over c' = under c)) by (split; congruence).
  destruct (bool_decide (over c' = over c)), (bool_decide (under c' = under c)),
    (bool_decide (under c' = over c)), (bool_decide (over c' = under c)); reflexivity.
Qed.

Lemma py_index_own (cs : list Crossing) : forall i c,
  one_crossing_per_pair cs = true -> cs !! i = Some c ->
  py_index (fun c' => crossing_eq c' c) cs = Some i.
Proof.
  induction cs as [|c0 cs IH]; intros i c Hone Hc; [by rewrite lookup_nil in Hc|].
  simpl in Hone. apply andb_true_iff in Hone as [Hc0 Hone].
  apply negb_true_iff in Hc0. simpl. destruct i as [|i]; simpl in Hc.
  - injection Hc as ->. by rewrite crossing_eq_refl.
  - destruct (crossing_eq c0 c) eqn:E.
    + exfalso. assert (Hin : py_in (fun c' => crossing_eq c' c0) cs = true).
      { unfold py_in. apply existsb_exists. exists c.
        split; [apply list_elem_of_In; by eapply list_elem_of_lookup_2|].
        by rewrite crossing_eq_sym. }
      congruence.
    + by rewrite (IH i c Hone Hc).
Qed.

Lemma generic_arrow_crossings_verdict s a (cs : list Crossing) : forall k,
  one_crossing_per_pair (Crossings (diagram s)) = true ->
  (length (Crossings (diagram s)) <= length (CrossPoints s))%nat ->
  Crossings (diagram s) = k ++ cs ->
  exists b, generic_arrow_crossings s a cs = Val b /\
    (b = true <->
     forall i c pt, cs !! i = Some c ->
                    CrossPoints s !! (length k + i)%nat = Some pt ->
                    crossing_contains c a = false ->
                    too_close (segment (diagram s) a) pt None = false).
Proof.
  induction cs as [|c cs IH]; intros k Hone Hlen Hk; simpl.
  - exists true. split; [reflexivity|]. split; [|reflexivity].
    intros _ i c pt H. by rewrite lookup_nil in H.
  - assert (Hc : Crossings (diagram s) !! length k = Some c).
    { rewrite Hk. rewrite lookup_app_r by lia. by rewrite Nat.sub_diag. }
    rewrite (py_index_own _ _ _ Hone Hc).
    destruct (CrossPoints s !! length k) as [pt|] eqn:Ept.
    2: { apply lookup_ge_None in Ept. apply lookup_lt_Some in Hc. lia. }
    destruct (IH (k ++ [c]) Hone Hlen) as (b & Hb & Hiff);
      [by rewrite <- app_assoc|].
    destruct (negb (crossing_contains c a) &&
              too_close (segment (diagram s) a) pt None) eqn:E.
    + exists false. split; [reflexivity|]. split; [discriminate|].
      intros H. apply andb_true_iff in E as [E1 E2]. apply negb_true_iff in E1.
      specialize (H 0%nat c pt eq_refl). rewrite Nat.add_0_r in H.
      specialize (H Ept E1). congruence.
    + exists b. split; [exact Hb|]. rewrite Hiff. rewrite length_app. simpl.
      split.
      * intros H [|i] c' pt' Hc' Hpt' Hnc.
        -- simpl in Hc'. injection Hc' as <-. rewrite Nat.add_0_r in Hpt'.
           rewrite Ept in Hpt'. injection Hpt' as <-.
           rewrite Hnc in E. simpl in E. exact E.
        -- simpl in Hc'. apply (H i c' pt' Hc'); [|exact Hnc].
           replace (length k + 1 + i)%nat with (length k + S i)%nat by lia. exact Hpt'.
      * intros H i c' pt' Hc' Hpt' Hnc. apply (H (S i) c' pt' Hc'); [|exact Hnc].
        replace (length k + S i)%nat with (length k + 1 + i)%nat by lia. exact Hpt'.
Qed.

(** When every stored crossing has its hit point and no pair of arrows is
    stored twice, [generic_arrow] never raises: it returns, and it returns
    [True] exactly when the arrow is too close to no listed vertex and to
    no hit point of a crossing of other arrows. *)
Theorem generic_arrow_verdict s (a : AId) :
  one_crossing_per_pair (Crossings (diagram s)) = true ->
  (length (Crossings (diagram s)) <= length (CrossPoints s))%nat ->
  exists b,
    generic_arrow s (Some a) = Val b /\
    (b = true <->
     (forall v, v ∈ Vertices (diagram s) ->
                too_close (segment (diagram s) a) (point (diagram s) v) None = false) /\
     (forall i c pt, Crossings (diagram s) !! i = Some c ->
                     CrossPoints s !! i = Some pt ->
                     crossing_contains c a = false ->
                     too_close (segment (diagram s) a) pt None = false)).
Proof.
  intros Hone Hlen. unfold generic_arrow.
  destruct (existsb _ (Vertices (diagram s))) eqn:Ev.
  - exists false. split; [reflexivity|]. split; [discriminate|].
    intros [H _]. apply existsb_exists in Ev as (v & Hv & Htc).
    apply list_elem_of_In in Hv. rewrite (H v Hv) in Htc. discriminate.
  - destruct (generic_arrow_crossings_verdict s a (Crossings (diagram s)) [] Hone Hlen
                eq_refl) as (b & Hb & Hiff).
    exists b. split; [exact Hb|]. rewrite Hiff. simpl. split.
    + intros H. split; [|exact H]. intros v Hv.
      destruct (too_close _ _ _) eqn:Htc; [|reflexivity].
      assert (existsb (fun v => too_close (segment (diagram s) a)
                                          (point (diagram s) v) None)
                      (Vertices (diagram s)) = true).
      { apply existsb_exists. exists v. split; [by apply list_elem_of_In|exact Htc]. }
      congruence.
    + intros [_ H]. exact H.
Qed.

(** ** Picking a vertex up *)

Lemma vertex_set_vdelta v z d w :
  point (set_vertex v (with_vdelta z) d) w = point d w /\
  in_arrow (vertex (set_vertex v (with_vdelta z) d) w) = in_arrow (vertex d w) /\
  out_arrow (vertex (set_vertex v (with_vdelta z) d) w) = out_arrow (vertex d w) /\
  vfrozen (vertex (set_vertex v (with_vdelta z) d) w) = vfrozen (vertex d w).
Proof.
  unfold point. destruct (decide (v = w)) as [->|Hne].
  - by rewrite vertex_set_vertex_eq.
  - by rewrite vertex_set_vertex_ne.
Qed.

Lemma freeze_and_attach_facts s0 (v : VId) (ai ao : option AId) :
  let s4 := match ai with
            | Some a => on_diagram (set_arrow a (with_afrozen true)) s0
            | None => s0
            end in
  let s5 := match ao with
            | Some a => on_diagram (set_arrow a (with_afrozen true)) s4
            | None => s4
            end in
  let s6 := if lock_var s5 then attach_cursor v s5 else s5 in
  state s6 = state s0 /\ ActiveVertex s6 = ActiveVertex s0 /\
  saved_crossing_data s6 = saved_crossing_data s0 /\
  cursor_attached s6 = (lock_var s0 || cursor_attached s0) /\
  Vertices (diagram s6) = Vertices (diagram s0) /\
  Arrows (diagram s6) = Arrows (diagram s0) /\
  Crossings (diagram s6) = Crossings (diagram s0) /\
  (forall w, point (diagram s6) w = point (diagram s0) w /\
             in_arrow (vertex (diagram s6) w) = in_arrow (vertex (diagram s0) w) /\
             out_arrow (vertex (diagram s6) w) = out_arrow (vertex (diagram s0) w) /\
             vfrozen (vertex (diagram s6) w) = vfrozen (vertex (diagram s0) w)).
Proof.
  intros s4 s5 s6.
  assert (H5 : lock_var s5 = lock_var s0 /\ state s5 = state s0 /\
               ActiveVertex s5 = ActiveVertex s0 /\
               saved_crossing_data s5 = saved_crossing_data s0 /\
               cursor_attached s5 = cursor_attached s0 /\
               Vertices (diagram s5) = Vertices (diagram s0) /\
               Arrows (diagram s5) = Arrows (diagram s0) /\
               Crossings (diagram s5) = Crossings (diagram s0) /\
               forall w, vertex (diagram s5) w = vertex (diagram s0) w).
  { subst s5 s4. destruct ai, ao; repeat split. }
  destruct H5 as (Hl & H1 & H2 & H3 & H4 & HV & HA & HC & Hv).
  subst s6. rewrite Hl. destruct (lock_var s0); cbn [orb].
  - unfold attach_cursor.
    cbn [state ActiveVertex saved_crossing_data cursor_attached diagram on_diagram
         set_diagram set_cursor_attached Vertices Arrows Crossings set_vertex].
    repeat split; try assumption.
    all: destruct (vertex_set_vdelta v 8 (diagram s5) w) as (E1 & E2 & E3 & E4).
    + rewrite E1. unfold point. by rewrite Hv.
    + by rewrite E2, Hv.
    + by rewrite E3, Hv.
    + by rewrite E4, Hv.
  - repeat split; try assumption; unfold point; by rewrite Hv.
Qed.

(** A click on a vertex in the start state, outside R3 mode, picks up the
    first listed vertex that equals the clicked spot.  Unless that vertex
    is isolated, the editor is then in its dragging state with this vertex
    active and frozen; the crossing signature of its two arrows is saved;
    its arrows are frozen; in locked mode the cursor is attached to it.
    No list changes and no vertex moves. *)
Theorem click_on_vertex_starts_drag (fuel : nat) (p : Pt) s (v : VId) :
  style_var s <> style_smooth ->
  state s = start_state ->
  has_focus s = true ->
  r3_mode (modes s) = false ->
  find_vertex s p = Some v ->
  is_Some (in_arrow (vertex (diagram s) v)) \/ is_Some (out_arrow (vertex (diagram s) v)) ->
  exists s',
    single_click fuel p s = Ret tt s' /\
    state s' = dragging_state /\
    ActiveVertex s' = Some v /\
    saved_crossing_data s' =
      Some (crossed_arrows (diagram s) (in_arrow (vertex (diagram s) v))
              [in_arrow (vertex (diagram s) v); out_arrow (vertex (diagram s) v)],
            crossed_arrows (diagram s) (out_arrow (vertex (diagram s) v))
              [in_arrow (vertex (diagram s) v); out_arrow (vertex (diagram s) v)]) /\
    cursor_attached s' = (lock_var s || cursor_attached s) /\
    Vertices (diagram s') = Vertices (diagram s) /\
    Arrows (diagram s') = Arrows (diagram s) /\
    Crossings (diagram s') = Crossings (diagram s) /\
    (forall w, point (diagram s') w = point (diagram s) w /\
               in_arrow (vertex (diagram s') w) = in_arrow (vertex (diagram s) w) /\
               out_arrow (vertex (diagram s') w) = out_arrow (vertex (diagram s) w)) /\
    vfrozen (vertex (diagram s') v) = true.
Proof.
  intros Hstyle Hstate Hfocus Hr3 Hfind Hlinked.
  assert (Hin : py_in (fun w => vertex_eq (point (diagram s) w) p)
                      (Vertices (diagram s)) = true).
  { unfold find_vertex in Hfind.
    destruct (py_index _ (Vertices (diagram s))) as [i|] eqn:Ei; [|discriminate].
    by eapply py_index_py_in. }
  assert (Hclick : single_click fuel p s = start_dragging p s).
  { unfold single_click. rewrite Hstate, Hfocus. cbn [negb].
    unfold click_start. rewrite Hin, Hr3.
    destruct (style_var s); try congruence; reflexivity. }
  rewrite Hclick. unfold start_dragging.
  change (find_vertex (set_state dragging_state s) p) with (find_vertex s p).
  rewrite Hfind.
  set (s2 := on_diagram (set_vertex v (with_vfrozen true))
               (set_ActiveVertex (Some v) (set_state dragging_state s))).
  assert (Hshape : same_shape (diagram s) (diagram s2)).
  { subst s2. cbn [diagram on_diagram set_diagram set_ActiveVertex set_state].
    split; [reflexivity|].
    assert (Hv : forall w,
              vx (vertex (set_vertex v (with_vfrozen true) (diagram s)) w) =
                vx (vertex (diagram s) w) /\
              vy (vertex (set_vertex v (with_vfrozen true) (diagram s)) w) =
                vy (vertex (diagram s) w) /\
              in_arrow (vertex (set_vertex v (with_vfrozen true) (diagram s)) w) =
                in_arrow (vertex (diagram s) w) /\
              out_arrow (vertex (set_vertex v (with_vfrozen true) (diagram s)) w) =
                out_arrow (vertex (diagram s) w)).
    { intros w. destruct (decide (v = w)) as [->|Hne].
      - by rewrite vertex_set_vertex_eq.
      - by rewrite vertex_set_vertex_ne. }
    split.
    - intros a. unfold segment, point. rewrite !arrow_set_vertex.
      destruct (Hv (astart (arrow (diagram s) a))) as (-> & -> & _).
      destruct (Hv (aend (arrow (diagram s) a))) as (-> & -> & _). reflexivity.
    - intros w. destruct (Hv w) as (_ & _ & -> & ->). by split. }
  assert (Hvs2 : forall w,
            point (diagram s2) w = point (diagram s) w /\
            in_arrow (vertex (diagram s2) w) = in_arrow (vertex (diagram s) w) /\
            out_arrow (vertex (diagram s2) w) = out_arrow (vertex (diagram s) w)).
  { intros w. subst s2. cbn [diagram on_diagram set_diagram set_ActiveVertex set_state].
    unfold point. destruct (decide (v = w)) as [->|Hne].
    - by rewrite vertex_set_vertex_eq.
    - by rewrite vertex_set_vertex_ne. }
  unfold active_crossing_data. change (ActiveVertex s2) with (Some v).
  cbn [lift_try bind].
  destruct (Hvs2 v) as (_ & Hiv & Hov). rewrite Hiv, Hov.
  rewrite <- !(crossed_arrows_same_shape (diagram s) (diagram s2)) by exact Hshape.
  set (data := (crossed_arrows (diagram s) _ _, crossed_arrows (diagram s) _ _)).
  cbn [diagram set_saved_crossing_data].
  rewrite Hiv, Hov.
  assert (Hfr : vfrozen (vertex (diagram s2) v) = true).
  { subst s2. cbn [diagram on_diagram set_diagram set_ActiveVertex set_state].
    by rewrite vertex_set_vertex_eq. }
  pose proof (freeze_and_attach_facts (set_saved_crossing_data (Some data) s2) v
                (in_arrow (vertex (diagram s) v)) (out_arrow (vertex (diagram s) v)))
    as Hfacts.
  cbv zeta in Hfacts.
  destruct Hfacts as (F1 & F2 & F3 & F4 & F5 & F6 & F7 & F8).
  destruct (in_arrow (vertex (diagram s) v)) as [ai|] eqn:Ei;
    destruct (out_arrow (vertex (diagram s) v)) as [ao|] eqn:Eo.
  4: { destruct Hlinked as [[? ?]|[? ?]]; discriminate. }
  all: eexists; split; [reflexivity|].
  all: split; [exact F1|]; split; [exact F2|]; split; [exact F3|];
       split; [exact F4|]; split; [exact F5|]; split; [exact F6|];
       split; [exact F7|]; split;
       [intros w; destruct (F8 w) as (E1 & E2 & E3 & _);
        destruct (Hvs2 w) as (G1 & G2 & G3);
        rewrite E1, E2, E3; by repeat split
       |destruct (F8 v) as (_ & _ & _ & E4); rewrite E4; exact Hfr].
Qed.

(** ** Splitting an arrow in vertex mode *)

Lemma last_filter_elem {A} (f : A -> bool) (l : list A) (x : A) :
  last (filter f l) = Some x -> x ∈ l /\ f x = true.
Proof.
  intros H. assert (Hx : x ∈ filter f l).
  { rewrite last_lookup in H. by eapply list_elem_of_lookup_2. }
  apply list_elem_of_filter in Hx as [Hf Hx]. split; [exact Hx|].
  by destruct (f x).
Qed.

Lemma vertex_set_vertex_if v f d w :
  vertex (set_vertex v f d) w = if decide (w = v) then f (vertex d w) else vertex d w.
Proof.
  destruct (decide (w = v)) as [->|Hne].
  - apply vertex_set_vertex_eq.
  - by apply vertex_set_vertex_ne.
Qed.

Lemma dom_set_vertex v f d :
  is_Some (vstore d !! v) -> dom (vstore (set_vertex v f d)) = dom (vstore d).
Proof.
  intros Hv. unfold set_vertex. cbn [vstore]. rewrite dom_insert_L.
  apply elem_of_dom in Hv. apply set_eq. intros x.
  rewrite elem_of_union, elem_of_singleton. split; [intros [->|?]; assumption|by right].
Qed.

Lemma stored_set_vertex v f d w :
  is_Some (vstore d !! w) -> is_Some (vstore (set_vertex v f d) !! w).
Proof.
  intros Hw. unfold set_vertex. cbn [vstore].
  destruct (decide (v = w)) as [->|Hne].
  - rewrite lookup_insert_eq. by eexists.
  - by rewrite lookup_insert_ne.
Qed.

Lemma new_arrow_spec (s e : VId) (c : Color) d :
  let a := fresh_aid d in
  fst (new_arrow s e c d) = a /\
  Vertices (snd (new_arrow s e c d)) = Vertices d /\
  Arrows (snd (new_arrow s e c d)) = Arrows d /\
  Crossings (snd (new_arrow s e c d)) = Crossings d /\
  astore (snd (new_arrow s e c d)) = <[a := mkArrow s e c false]> (astore d) /\
  (forall w, vertex (snd (new_arrow s e c d)) w =
             if decide (w = e)
             then with_in_arrow (Some a)
                    (if decide (w = s) then with_out_arrow (Some a) (vertex d w)
                     else vertex d w)
             else if decide (w = s) then with_out_arrow (Some a) (vertex d w)
                  else vertex d w).
Proof.
  intros a. unfold new_arrow. cbn [fst snd]. fold a.
  repeat split. intros w. rewrite !vertex_set_vertex_if. reflexivity.
Qed.

Lemma new_vertex_spec (p : Pt) (c : Color) d :
  let v := fresh_vid d in
  fst (new_vertex p c d) = v /\
  Vertices (snd (new_vertex p c d)) = Vertices d /\
  Arrows (snd (new_vertex p c d)) = Arrows d /\
  Crossings (snd (new_vertex p c d)) = Crossings d /\
  astore (snd (new_vertex p c d)) = astore d /\
  (forall w, vertex (snd (new_vertex p c d)) w =
             if decide (w = v) then mkVertex (fst p) (snd p) c None None false 2
             else vertex d w).
Proof.
  intros v. unfold new_vertex. cbn [fst snd]. fold v. repeat split.
  intros w. unfold vertex. cbn [vstore]. destruct (decide (w = v)) as [->|Hne].
  - apply lookup_total_insert_eq.
  - by apply lookup_total_insert_ne.
Qed.

Lemma destroy_arrow_stores (a : AId) d d' :
  destroy_arrow a d = Some d' ->
  astore d' = astore d /\ Vertices d' = Vertices d /\
  vstore d' = vstore (set_vertex (astart (arrow d a)) (with_out_arrow None)
                        (set_vertex (aend (arrow d a)) (with_in_arrow None) d)).
Proof.
  unfold destroy_arrow. destruct (py_remove _ _); [|discriminate].
  intros [= <-]. repeat split.
Qed.

(** In vertex mode a click on an arrow, away from vertices and hit points,
    puts a vertex on the arrow: the arrow that is hit (the last listed one,
    if several are) is taken off the list and destroyed, a vertex is made
    at the spot and listed, and two arrows in the colour of the old one,
    from its start to the new vertex and from the new vertex to its end,
    are made and listed last.  The editor stays in its start state. *)
Theorem vertex_mode_click_splits_arrow (fuel : nat) (p : Pt) s (sel : AId) :
  style_var s <> style_smooth ->
  state s = start_state ->
  has_focus s = true ->
  lock_var s = false ->
  py_in (fun v => vertex_eq (point (diagram s) v) p) (Vertices (diagram s)) = false ->
  py_in (fun cp => vertex_eq cp p) (CrossPoints s) = false ->
  vertex_mode (modes s) = true ->
  last (filter (fun a => too_close (segment (diagram s) a) p None)
               (Arrows (diagram s))) = Some sel ->
  is_Some (vstore (diagram s) !! astart (arrow (diagram s) sel)) ->
  is_Some (vstore (diagram s) !! aend (arrow (diagram s) sel)) ->
  let st := astart (arrow (diagram s) sel) in
  let en := aend (arrow (diagram s) sel) in
  let color := acolor (arrow (diagram s) sel) in
  let nv := fresh_vid (diagram s) in
  exists s' l1 l2 a1 a2,
    single_click fuel p s = Ret tt s' /\
    Arrows (diagram s) = l1 ++ sel :: l2 /\ (sel ∉ l1) /\
    Arrows (diagram s') = (l1 ++ l2) ++ [a1; a2] /\
    Vertices (diagram s') = Vertices (diagram s) ++ [nv] /\
    a1 <> a2 /\ (a1 ∉ dom (astore (diagram s))) /\ (a2 ∉ dom (astore (diagram s))) /\
    arrow (diagram s') a1 = mkArrow st nv color false /\
    arrow (diagram s') a2 = mkArrow nv en color false /\
    vertex (diagram s') nv = mkVertex (fst p) (snd p) color (Some a1) (Some a2) false 2 /\
    out_arrow (vertex (diagram s') st) = Some a1 /\
    in_arrow (vertex (diagram s') en) = Some a2 /\
    (forall w, w <> nv -> point (diagram s') w = point (diagram s) w) /\
    state s' = start_state /\ ActiveVertex s' = ActiveVertex s.
Proof.
  intros Hstyle Hstate Hfocus Hlock Hvert Hcp Hvm Hlast Hst Hen st en color nv.
  destruct (last_filter_elem _ _ _ Hlast) as [Hsel Hclose].
  assert (Harrow : clicked_on_arrow s p = true).
  { unfold clicked_on_arrow. apply existsb_exists. exists sel.
    split; [by apply list_elem_of_In|exact Hclose]. }
  assert (Hclick : single_click fuel p s = click_arrow p s).
  { unfold single_click. rewrite Hstate, Hfocus. cbn [negb].
    unfold click_start. rewrite Hvert, Hlock, Hcp, Harrow.
    destruct (style_var s); try congruence; reflexivity. }
  rewrite Hclick. unfold click_arrow. rewrite Hvm, Hlast.
  fold st. fold en. fold color.
  (* the arrow goes *)
  pose proof (py_remove_eq_spec sel (Arrows (diagram s))) as Hrm.
  unfold do_destroy_arrow.
  destruct (destroy_arrow sel (diagram s)) as [dA|] eqn:EdA.
  2: { unfold destroy_arrow in EdA.
       destruct (py_remove _ (Arrows (diagram s))); [discriminate|contradiction]. }
  destruct (destroy_arrow_stores sel (diagram s) dA EdA) as (HaA & HVA & HvA).
  fold st in HvA. fold en in HvA.
  assert (HAA : exists l1 l2, Arrows (diagram s) = l1 ++ sel :: l2 /\
                              Arrows dA = l1 ++ l2 /\ sel ∉ l1).
  { unfold destroy_arrow in EdA.
    destruct (py_remove _ (Arrows (diagram s))) as [l'|]; [|discriminate].
    destruct Hrm as (l1 & l2 & H1 & -> & H3). injection EdA as <-.
    by exists l1, l2. }
  destruct HAA as (l1 & l2 & HA & HAd & Hl1). clear Hrm.
  assert (HvA' : forall w, vertex dA w =
            vertex (set_vertex st (with_out_arrow None)
                      (set_vertex en (with_in_arrow None) (diagram s))) w).
  { intros w. unfold vertex. by rewrite HvA. }
  assert (Hnv : fresh_vid dA = nv).
  { unfold fresh_vid. rewrite HvA.
    rewrite dom_set_vertex by (by apply stored_set_vertex).
    by rewrite dom_set_vertex. }
  assert (Hnst : st <> nv) by (by apply fresh_vid_not_stored).
  assert (Hnen : en <> nv) by (by apply fresh_vid_not_stored).
  (* the new vertex and the two new arrows *)
  cbn [bind]. cbv zeta. cbn [diagram set_diagram].
  destruct (new_vertex_spec p color dA) as (Ev1 & Ev2 & Ev3 & Ev4 & Ev5 & Ev6).
  rewrite Hnv in Ev1, Ev6.
  set (rv := new_vertex p color dA) in *.
  destruct (new_arrow_spec st (fst rv) color (snd rv)) as (E11 & E12 & E13 & E14 & E15 & E16).
  set (r1 := new_arrow st (fst rv) color (snd rv)) in *.
  destruct (new_arrow_spec (fst rv) en color (snd r1)) as (E21 & E22 & E23 & E24 & E25 & E26).
  set (r2 := new_arrow (fst rv) en color (snd r1)) in *.
  set (a1 := fresh (dom (astore (diagram s)))).
  set (a2 := fresh (dom (<[a1 := mkArrow st nv color false]> (astore (diagram s))))).
  assert (Ha1 : fst r1 = a1).
  { rewrite E11. unfold fresh_aid. by rewrite Ev5, HaA. }
  assert (Hs1 : astore (snd r1) = <[a1 := mkArrow st nv color false]> (astore (diagram s))).
  { rewrite E15. unfold fresh_aid. by rewrite Ev5, HaA, Ev1. }
  assert (Ha2' : fst r2 = a2).
  { rewrite E21. unfold fresh_aid. by rewrite Hs1. }
  assert (Hs2 : astore (snd r2) =
                <[a2 := mkArrow nv en color false]>
                  (<[a1 := mkArrow st nv color false]> (astore (diagram s)))).
  { rewrite E25. unfold fresh_aid. by rewrite Hs1, Ev1. }
  assert (Ha12 : a1 <> a2).
  { intros E. apply (is_fresh (dom (<[a1 := mkArrow st nv color false]>
                                      (astore (diagram s))))).
    fold a2. rewrite <- E. apply elem_of_dom. rewrite lookup_insert_eq. by eexists. }
  assert (Ha2 : a2 ∉ dom (astore (diagram s))).
  { intros E. apply (is_fresh (dom (<[a1 := mkArrow st nv color false]>
                                      (astore (diagram s))))).
    fold a2. rewrite dom_insert. apply elem_of_union. by right. }
  (* the detector leaves vertices, arrows and lists alone *)
  set (sA := set_diagram
               (set_Arrows (Arrows (snd r2) ++ [fst r1; fst r2])
                  (set_Vertices (Vertices (snd r2) ++ [fst rv]) (snd r2)))
               (set_diagram dA s)).
  destruct (update_crossings_diagram (Some (fst r1)) sA) as (cs1 & Hd1 & Hs1').
  destruct (update_crossings_diagram (Some (fst r2)) (update_crossings (Some (fst r1)) sA))
    as (cs2 & Hd2 & Hs2').
  exists (update_crosspoints (update_crossings (Some (fst r2))
                                (update_crossings (Some (fst r1)) sA))), l1, l2, a1, a2.
  split; [reflexivity|]. split; [exact HA|]. split; [exact Hl1|].
  rewrite update_crosspoints_diagram, Hd2, Hd1.
  cbn [Arrows Vertices set_Crossings diagram set_diagram sA set_Arrows set_Vertices].
  split; [by rewrite E23, E13, Ev3, HAd, Ha1, Ha2'|].
  split; [by rewrite E22, E12, Ev2, HVA, Ev1|].
  split; [exact Ha12|]. split; [apply is_fresh|]. split; [exact Ha2|].
  assert (Harr : forall b, arrow (set_Crossings (fst (relocate_crosspoints
                     (set_Crossings cs2 (set_Crossings cs1 (diagram sA)))))
                     (set_Crossings cs2 (set_Crossings cs1 (diagram sA)))) b =
                   astore (snd r2) !!! b) by reflexivity.
  assert (Hvtx : forall w, vertex (set_Crossings (fst (relocate_crosspoints
                     (set_Crossings cs2 (set_Crossings cs1 (diagram sA)))))
                     (set_Crossings cs2 (set_Crossings cs1 (diagram sA)))) w =
                   vertex (snd r2) w) by reflexivity.
  unfold point. rewrite !Harr, !Hvtx, Hs2.
  split; [rewrite lookup_total_insert_ne by done; by rewrite lookup_total_insert_eq|].
  split; [by rewrite lookup_total_insert_eq|].
  assert (Hfinal : forall w, vertex (snd r2) w =
            if decide (w = en)
            then with_in_arrow (Some a2)
                   (if decide (w = nv) then with_out_arrow (Some a2) (vertex (snd r1) w)
                    else vertex (snd r1) w)
            else if decide (w = nv) then with_out_arrow (Some a2) (vertex (snd r1) w)
                 else vertex (snd r1) w).
  { intros w. rewrite E26, Ev1. unfold fresh_aid. by rewrite Hs1; fold a2. }
  assert (Hmid : forall w, vertex (snd r1) w =
            if decide (w = nv)
            then with_in_arrow (Some a1)
                   (if decide (w = st) then with_out_arrow (Some a1) (vertex (snd rv) w)
                    else vertex (snd rv) w)
            else if decide (w = st) then with_out_arrow (Some a1) (vertex (snd rv) w)
                 else vertex (snd rv) w).
  { intros w. rewrite E16, Ev1. unfold fresh_aid. by rewrite Ev5, HaA; fold a1. }
  split.
  { rewrite Hfinal, Hmid, Ev6.
    repeat (case_decide; try congruence). reflexivity. }
  split.
  { rewrite Hfinal, Hmid. repeat (case_decide; try congruence); reflexivity. }
  split.
  { rewrite Hfinal. repeat (case_decide; try congruence); reflexivity. }
  split; [|split; [rewrite Hs2', Hs1'; exact Hstate|by rewrite Hs2', Hs1']].
  intros w Hw. rewrite !Hvtx, !Hfinal, !Hmid, !Ev6, !HvA'.
  rewrite !vertex_set_vertex_if.
  repeat (case_decide; try congruence); reflexivity.
Qed.

(** ** Reflecting the diagram *)

Lemma crossing_reverse_twice (c : Crossing) : crossing_reverse (crossing_reverse c) = c.
Proof. by destruct c. Qed.

(** [reflect] turns every crossing over: what was over is under and the
    other way round, while the hit points, the virtual flags, the number
    and the order of the crossings and everything else in the editor stay.
    Reflecting twice gives the editor back as it was. *)
Theorem reflect_swaps_roles s :
  reflect (reflect s) = s /\
  length (Crossings (diagram (reflect s))) = length (Crossings (diagram s)) /\
  (forall i c, Crossings (diagram s) !! i = Some c ->
               Crossings (diagram (reflect s)) !! i =
                 Some (mkCrossing (under c) (over c) (cloc c) (is_virtual c))) /\
  (forall a, occurs_over (reflect s) a = occurs_under s a /\
             occurs_under (reflect s) a = occurs_over s a) /\
  (forall x y, joined (Crossings (diagram (reflect s))) x y =
               joined (Crossings (diagram s)) x y) /\
  Vertices (diagram (reflect s)) = Vertices (diagram s) /\
  Arrows (diagram (reflect s)) = Arrows (diagram s) /\
  CrossPoints (reflect s) = CrossPoints s.
Proof.
  split.
  { destruct s as [[vs ast V A C] cp av st sty lk hf m r2 r3 h sv ca cx cy pal log].
    unfold reflect, on_diagram, set_diagram, set_Crossings. cbn.
    replace (crossing_reverse <$> (crossing_reverse <$> C)) with C; [reflexivity|].
    apply list_eq. intros i. rewrite !list_lookup_fmap.
    destruct (C !! i); simpl; by rewrite ?crossing_reverse_twice. }
  unfold reflect.
  cbn [diagram on_diagram set_diagram Crossings set_Crossings Vertices Arrows CrossPoints].
  split; [by rewrite length_fmap|].
  split; [intros i c Hc; by rewrite list_lookup_fmap, Hc|].
  split.
  { intros a. unfold occurs_over, occurs_under.
    cbn [diagram on_diagram set_diagram Crossings set_Crossings].
    induction (Crossings (diagram s)) as [|c cs [IH1 IH2]]; [done|].
    rewrite fmap_cons. cbn [existsb]. rewrite IH1, IH2. done. }
  split; [|done].
  intros x y. unfold joined, py_in.
  induction (Crossings (diagram s)) as [|c cs IH]; [done|].
  rewrite fmap_cons. cbn [existsb]. rewrite IH. f_equal.
  unfold crossing_eq, crossing_reverse. cbn [over under].
  destruct (bool_decide (over c = x)), (bool_decide (under c = y)),
    (bool_decide (under c = x)), (bool_decide (over c = y)); reflexivity.
Qed.

(** ** Closing the window *)

Lemma warn_arcs_loop_spec d vs answers :
  warn_arcs_loop d vs answers =
  if existsb (is_endpoint d) vs
  then match answers with
       | retry :: rest => (retry, rest)
       | [] => (false, [])
       end
  else (false, answers).
Proof.
  induction vs as [|v vs IH]; simpl; [reflexivity|].
  destruct (is_endpoint d v); simpl; [|exact IH].
  by destruct answers as [|[] ?].
Qed.

(** [done] asks the user at most one question, and asks it exactly when the
    editor was made with [no_arcs] and some listed vertex is an open end.
    The window is destroyed unless such a question is answered with
    retry; in particular a diagram all of whose components are closed is
    never held back. *)
Theorem done_asks_at_most_once (no_arcs : bool) d (answers : list bool) :
  let asks := no_arcs && existsb (is_endpoint d) (Vertices d) in
  (asks = false ->
   warn_arcs no_arcs d answers = (false, answers) /\ done no_arcs d answers = true) /\
  (asks = true ->
   forall retry rest, answers = retry :: rest ->
     warn_arcs no_arcs d answers = (retry, rest) /\
     done no_arcs d answers = negb retry).
Proof.
  unfold done, warn_arcs. rewrite warn_arcs_loop_spec.
  destruct no_arcs; cbn [andb]; [|split; [done|discriminate]].
  destruct (existsb (is_endpoint d) (Vertices d)); split; try done.
  by intros _ retry rest ->.
Qed.

(** ** What [verify_drag] touches *)

(** [verify_drag] needs an active vertex and raises [AttributeError]
    without one.  With one it always comes back, by returning its verdict
    or by raising, and whatever the verdict it has changed nothing but the
    stored crossings and their hit points: vertices, arrows, lists, modes
    and the state of the editor are as before. *)
Theorem verify_drag_touches_only_crossings s :
  (ActiveVertex s = None -> verify_drag s = Raise AttributeError s) /\
  (forall active, ActiveVertex s = Some active ->
     exists s' cs pts,
       s' = set_CrossPoints pts (on_diagram (set_Crossings cs) s) /\
       ((exists b, verify_drag s = Ret b s') \/ (exists e, verify_drag s = Raise e s'))).
Proof.
  split.
  - intros H. unfold verify_drag. by rewrite H.
  - intros active H.
    destruct (verify_drag_only_crossings s active H) as (s' & (cs & pts & Hs') & Hres).
    by exists s', cs, pts.
Qed.

End MoreFacts.

(** * The editor at work on concrete diagrams *)

Import Scenario SpecModel.

(** Closed statements about concrete sessions are settled by running the
    editor; conjunctions are taken apart first, one evaluation per fact. *)
Ltac by_evaluation :=
  repeat lazymatch goal with |- _ /\ _ => split end; vm_compute; reflexivity.

(** C1, at a failing input.  Draw the figure eight and the arc across its
    first arrow; the two stored crossings are then exactly the two proper
    intersections.  Press 1 and click on the self-crossing at (200,200).
    R1 takes the branch of the under strand, although the arc crosses that
    strand, clears the loop, and puts in the arrows 5, from (0,0) to
    (200,200), and 6, without a round of [update_crossings] for either.
    Afterwards no crossing is stored, while arrow 5 and the arc, arrow 4,
    intersect properly. *)
Lemma r1_leaves_crossing_unrecorded :
  exists s',
    single_click 10 (pt 200 200) figure_eight_r1_mode = Ret tt s' /\
    crossings_match_geometry (diagram figure_eight_r1_mode) = true /\
    crossing_count figure_eight_r1_mode = 2%nat /\
    Arrows (diagram s') = [3; 4; 5; 6]%nat /\
    segment (diagram s') 5 = (pt 0 0, pt 200 200) /\
    segment (diagram s') 4 = (pt 40 160, pt 160 40) /\
    proper (diagram s') 5 4 = true /\
    proper (diagram s') 4 5 = true /\
    Crossings (diagram s') = [] /\
    crossings_match_geometry (diagram s') = false.
Proof.
  exists (after (single_click 10 (pt 200 200) figure_eight_r1_mode)).
  by_evaluation.
Qed.



(** C5 fails where [generic_arrow] fails.  The path that starts at (0,0) is
    closed onto the isolated vertex at (200,0), an open endpoint, straight
    through the vertex at (100,0).  The user is alerted, but the editor
    stays in its drawing state, and the pending arrow 0 stays on the list
    of arrows. *)
Lemma failed_meld_stays_in_drawing_state :
  exists s s',
    three_dots = Some s /\
    state s = drawing_state /\
    find_vertex s (pt 200 0) = Some 0%nat /\
    is_endpoint (diagram s) 0 = true /\
    Arrows (diagram s) = [] /\
    single_click 10 (pt 200 0) s = Ret tt s' /\
    ui_log s' = [Alert] /\
    state s' = drawing_state /\
    ActiveVertex s' = ActiveVertex s /\
    Arrows (diagram s') = [0%nat] /\
    generic_arrow s' (Some 0%nat) = Val false.
Proof.
  exists (the three_dots), (after (single_click 10 (pt 200 0) (the three_dots))).
  by_evaluation.
Qed.



(** C8 fails, whether the crossing set is read with or without the
    designations.  The strand after a shift-click on its crossing has the
    same geometry on file as before, yet its crossing is virtual and the
    recomputed one is not.  And the diagram that the R1 move above leaves
    behind stores no crossing, while the reload finds one between the
    arrows at positions 1 and 2. *)
Lemma reload_differs_from_original :
  (exists s1 s2 g,
      strand = Some s1 /\ strand_virtual = Some s2 /\
      save (diagram s1) = Some g /\ save (diagram s2) = Some g /\
      map (crossing_record (diagram s2)) (Crossings (diagram s2)) =
        [Some (1%nat, 0%nat, true)] /\
      map (crossing_record (diagram (reloaded s2 g)))
          (Crossings (diagram (reloaded s2 g))) =
        [Some (0%nat, 1%nat, false)]) /\
  (exists s g,
      figure_eight_r1 = Some s /\
      save (diagram s) = Some g /\
      Arrows (diagram s) !! 1%nat = Some 4%nat /\
      Arrows (diagram s) !! 2%nat = Some 5%nat /\
      joined (Crossings (diagram s)) 4 5 = false /\
      joined (Crossings (diagram (reloaded s g))) 1 2 = true).
Proof.
  split.
  - exists (the strand), (the strand_virtual),
           (default (mkSavedLink [] []) (save (diagram (the strand)))).
    by_evaluation.
  - exists (the figure_eight_r1),
           (default (mkSavedLink [] []) (save (diagram (the figure_eight_r1)))).
    by_evaluation.
Qed.

(** * The theorems at work on concrete diagrams

    Each theorem with a hypothesis is applied once to a session of the
    editor, so that its hypotheses are seen to hold of states the editor
    reaches. *)

(** [generic_arrow_none_passes] (C9) on the zigzag whose first vertex is
    being dragged: that vertex has no incoming arrow. *)
Lemma generic_arrow_none_passes_witness :
  ActiveVertex (the zigzag_dragging) = Some 0%nat /\
  in_arrow (vertex (diagram (the zigzag_dragging)) 0) = None /\
  generic_arrow (the zigzag_dragging) None = Val true /\
  let s3 := update_crosspoints
              (update_crossings
                 (out_arrow (vertex (diagram (the zigzag_dragging)) 0))
                 (the zigzag_dragging)) in
  verify_drag (the zigzag_dragging) =
  lift_try (generic_arrow s3 (out_arrow (vertex (diagram (the zigzag_dragging)) 0))) s3.
Proof.
  split; [vm_compute; reflexivity|].
  split; [vm_compute; reflexivity|].
  split.
  - apply (proj1 generic_arrow_none_passes).
  - apply (proj1 (proj2 generic_arrow_none_passes)); vm_compute; reflexivity.
Defined.

(** [plain_click_never_sets_virtual] (C10) on the strand, clicked on its
    one crossing at (100,25). *)
Lemma plain_click_never_sets_virtual_witness :
  Crossings (diagram (the strand)) !! 0%nat =
    Some (mkCrossing 1 0 (Some (pt 100 25)) false) /\
  exists s',
    single_click 10 (pt 100 25) (the strand) = Ret tt s' /\
    Crossings (diagram s') !! 0%nat =
      Some (mkCrossing 0 1 (Some (pt 100 25)) false).
Proof.
  split; [vm_compute; reflexivity|].
  destruct (plain_click_never_sets_virtual 10 (pt 100 25) (the strand) 0
              (mkCrossing 1 0 (Some (pt 100 25)) false))
    as (s' & Hclick & _ & Hflip & _);
    try (vm_compute; reflexivity).
  - vm_compute. discriminate.
  - exists s'. split; [exact Hclick | exact Hflip].
Defined.

(** [locked_drag_keeps_signature] (C3) on the zigzag with "Preserve
    diagram" ticked, its first vertex dragged to (10,10). *)
Lemma locked_drag_keeps_signature_witness :
  lock_var (the zigzag_locked_drag) = true /\
  ActiveVertex (the zigzag_locked_drag) = Some 0%nat /\
  exists s',
    final (move_active 10 10 (the zigzag_locked_drag)) = Some s' /\
    ((exists data, active_crossing_data s' = Val data /\
                   saved_crossing_data (the zigzag_locked_drag) = Some data) \/
     point (diagram s') 0 = point (diagram (the zigzag_locked_drag)) 0).
Proof.
  split; [vm_compute; reflexivity|].
  split; [vm_compute; reflexivity|].
  apply locked_drag_keeps_signature; vm_compute; reflexivity.
Defined.



(** [meld_needs_generic_arrow] (C5) on the three dots: the closing arrow
    from (0,0) to (200,0) runs through the vertex at (100,0). *)
Lemma meld_needs_generic_arrow_witness :
  let s := the three_dots in
  let r := set_up_arrow 2 (pt 200 0) (diagram s) in
  let s1 := set_diagram (snd r) (set_has_focus true s) in
  state s = drawing_state /\
  ActiveVertex s = Some 2%nat /\
  generic_arrow s1 (Some (snd (fst r))) = Val false /\
  single_click 10 (pt 200 0) s = Ret tt (alert s1) /\
  state (alert s1) = drawing_state.
Proof.
  intros s r s1.
  split; [vm_compute; reflexivity|].
  split; [vm_compute; reflexivity|].
  assert (Hg : generic_arrow s1 (Some (snd (fst r))) = Val false)
    by (vm_compute; reflexivity).
  split; [exact Hg|].
  destruct (meld_needs_generic_arrow 10 (pt 200 0) s 2) as (Hfail & _);
    try (vm_compute; reflexivity).
  - vm_compute. discriminate.
  - destruct (Hfail Hg) as (Hclick & Hstate & _).
    split; [exact Hclick | exact Hstate].
Defined.



(** [reload_reproduces_crossing_pairs] (C8) on the strand and the file
    written from it. *)
Lemma reload_reproduces_crossing_pairs_witness :
  let s := the strand in
  let g := mkSavedLink
             [(pt 100 (-100), "red"); (pt 100 100, "red"); (pt 0 0, "green");
              (pt 200 50, "green"); (pt 400 0, "green")]
             [(0, 1); (2, 3); (3, 4)]%nat in
  save (diagram s) = Some g /\
  proper_symmetric (diagram s) = true /\
  crossings_match_geometry (diagram s) = true /\
  (forall i j,
      joined (Crossings (diagram (reloaded s g))) i j = true <->
      exists a b, Arrows (diagram s) !! i = Some a /\
                  Arrows (diagram s) !! j = Some b /\
                  joined (Crossings (diagram s)) a b = true) /\
  Forall (fun c => is_virtual c = false) (Crossings (diagram (reloaded s g))).
Proof.
  intros s g.
  assert (Hsave : save (diagram s) = Some g) by (vm_compute; reflexivity).
  assert (Hsym : proper_symmetric (diagram s) = true) by (vm_compute; reflexivity).
  assert (Hgeo : crossings_match_geometry (diagram s) = true)
    by (vm_compute; reflexivity).
  assert (Hnd : NoDup (Arrows (diagram s)))
    by (apply (bool_decide_unpack (NoDup (Arrows (diagram s)))); vm_compute; exact I).
  split; [exact Hsave|]. split; [exact Hsym|]. split; [exact Hgeo|].
  exact (reload_reproduces_crossing_pairs s g Hsave Hnd Hsym Hgeo).
Defined.

(** * More of the editor, at work on concrete diagrams *)

Import MoreScenario.

(** The hypotheses of a theorem at a concrete session are settled by
    running the editor. *)
Ltac run_it := lazymatch goal with |- _ = _ => vm_compute; reflexivity end.

(** [oriented_path_of_fewer_arrows] on the zigzag: its whole path is
    accepted, so the path of its last and first arrow is. *)
Lemma oriented_path_of_fewer_arrows_witness :
  oriented_path (the zigzag) [0; 1; 2]%nat = true /\
  oriented_path (the zigzag) [2; 0]%nat = true.
Proof.
  assert (H : oriented_path (the zigzag) [0; 1; 2]%nat = true) by run_it.
  split; [exact H|].
  refine (proj1 (oriented_path_of_fewer_arrows (the zigzag) [0; 1; 2]%nat [2; 0]%nat _ H)).
  intros a Ha. rewrite !elem_of_cons in Ha. rewrite !elem_of_cons.
  destruct Ha as [Ha|[Ha|Ha]]; [right; right; left; exact Ha|left; exact Ha|].
  apply elem_of_nil in Ha. destruct Ha.
Defined.

(** [crossed_arrows_in_order] on the figure eight: its first arrow meets
    the arc, listed at position 4, a quarter of the way, and the arrow at
    position 2 half way. *)
Lemma crossed_arrows_in_order_witness :
  crossed_arrows (diagram (the figure_eight)) (Some 0%nat) [] = [4; 2]%nat /\
  (1 # 4 <= 1 # 2)%Q.
Proof.
  split; [run_it|].
  apply (crossed_arrows_in_order (diagram (the figure_eight)) 0 [] 0 1 4 2 4 2);
    first [lia | run_it].
Defined.

(** [get_path_btwn_verts_chain] on the zigzag, from its first to its last
    vertex. *)
Lemma get_path_btwn_verts_chain_witness :
  get_path_btwn_verts (diagram (the zigzag)) 10 0 3 = Val [0; 1; 2]%nat /\
  chained (diagram (the zigzag)) [0; 1; 2]%nat /\
  (forall fuel', (10 <= fuel')%nat ->
     get_path_btwn_verts (diagram (the zigzag)) fuel' 0 3 = Val [0; 1; 2]%nat).
Proof.
  assert (H : get_path_btwn_verts (diagram (the zigzag)) 10 0 3 = Val [0; 1; 2]%nat)
    by run_it.
  split; [exact H|].
  destruct (get_path_btwn_verts_chain (diagram (the zigzag)) 10 0 3 _ H)
    as (_ & Hch & _ & _ & _ & Hmore).
  split; [exact Hch|exact Hmore].
Defined.

(** [get_arrow_paths_chain] on the figure eight, from the over arrow of its
    self-crossing round to the under arrow. *)
Lemma get_arrow_paths_chain_witness :
  exists crossing path,
    Crossings (diagram (the figure_eight)) !! 0%nat = Some crossing /\
    get_over_arrow_path (diagram (the figure_eight)) 10 crossing = Val path /\
    head path = Some (over crossing) /\ last path = Some (under crossing).
Proof.
  exists (default (mkCrossing 0 0 None false)
            (Crossings (diagram (the figure_eight)) !! 0%nat)).
  eexists. split; [run_it|].
  assert (H : get_over_arrow_path (diagram (the figure_eight)) 10
                (default (mkCrossing 0 0 None false)
                   (Crossings (diagram (the figure_eight)) !! 0%nat)) =
              Val [2; 3; 0]%nat) by run_it.
  split; [exact H|].
  destruct (proj1 (get_arrow_paths_chain (diagram (the figure_eight)) 10 _ _) H)
    as (Hh & _ & Hl & _).
  split; [exact Hh|exact Hl].
Defined.

(** [destroy_arrow_spec] on the zigzag and its middle arrow. *)
Lemma destroy_arrow_spec_witness :
  exists d',
    destroy_arrow 1 (diagram (the zigzag)) = Some d' /\
    Arrows d' = [0; 2]%nat /\
    Vertices d' = Vertices (diagram (the zigzag)).
Proof.
  assert (Hin : (1%nat : AId) ∈ Arrows (diagram (the zigzag))).
  { apply (bool_decide_unpack (1%nat ∈ Arrows (diagram (the zigzag)))). vm_compute.
    exact I. }
  destruct (proj2 (destroy_arrow_spec (Palette:=Palette) (diagram (the zigzag)) 1) Hin)
    as (d' & l1 & l2 & Hd & HA & HA' & Hl1 & HV & _).
  exists d'. split; [exact Hd|]. split; [|exact HV].
  assert (E : Arrows <$> destroy_arrow 1 (diagram (the zigzag)) = Some [0; 2]%nat)
    by run_it.
  rewrite Hd in E. change (Some (Arrows d') = Some [0; 2]%nat) in E.
  injection E as E. exact E.
Defined.

(** [mode_keys_keep_label_in_step] from the editor as it is built, for the
    keys v, 1 and 1. *)
Lemma mode_keys_keep_label_in_step_witness :
  exists md',
    press_mode_keys [key_v; key_1; key_1]
      (mkModes false false false false false false, []) = Val md' /\
    mode_display_ok md'.
Proof.
  destruct (mode_keys_keep_label_in_step [key_v; key_1; key_1]
              (mkModes false false false false false false, []))
    as (md' & H & Hok & _).
  - left. split; reflexivity.
  - exists md'. split; [exact H|exact Hok].
Defined.

(** [vertex_mode_drop_needs_two_crossed] on the zigzag in vertex mode, its
    first vertex being dragged: the arrows at that vertex cross nothing, so
    the drop is refused. *)
Lemma vertex_mode_drop_needs_two_crossed_witness :
  let s := zigzag_dragging_vertex_mode in
  let sv := left_by (verify_drag s) in
  ActiveVertex s = Some 0%nat /\
  length (crossed_by_active 0 (settle_drag 0 sv)) = 0%nat /\
  end_dragging_state s = Raise ValueError (settle_drag 0 sv) /\
  state (settle_drag 0 sv) = dragging_state.
Proof.
  intros s sv.
  assert (Ha : ActiveVertex s = Some 0%nat) by run_it.
  assert (Hv : verify_drag s = Ret true sv) by run_it.
  assert (Hn : length (crossed_by_active 0 (settle_drag 0 sv)) = 0%nat) by run_it.
  split; [exact Ha|]. split; [exact Hn|].
  destruct (vertex_mode_drop_needs_two_crossed s sv 0) as (Hrefuse & _);
    [run_it | exact Ha | exact Hv |].
  destruct Hrefuse as (Hend & Hst).
  - rewrite Hn. discriminate.
  - split; [exact Hend|]. rewrite Hst. run_it.
Defined.

(** [shift_click_twice] on the strand, shift-clicked twice on its crossing
    at (100,25). *)
Lemma shift_click_twice_witness :
  let s := the strand in
  let s1 := after (shift_click (pt 100 25) s) in
  let s2 := after (shift_click (pt 100 25) s1) in
  shift_click (pt 100 25) s = Ret tt s1 /\
  shift_click (pt 100 25) s1 = Ret tt s2 /\
  diagram s2 = diagram s /\ CrossPoints s2 = CrossPoints s.
Proof.
  intros s s1 s2.
  assert (H1 : shift_click (pt 100 25) s = Ret tt s1) by run_it.
  assert (H2 : shift_click (pt 100 25) s1 = Ret tt s2) by run_it.
  split; [exact H1|]. split; [exact H2|].
  exact (shift_click_twice (pt 100 25) s s1 s2 H1 H2).
Defined.

(** [plain_click_twice] on the strand, clicked twice on its crossing at
    (100,25), which is not virtual. *)
Lemma plain_click_twice_witness :
  exists s1 s2,
    single_click 10 (pt 100 25) (the strand) = Ret tt s1 /\
    single_click 10 (pt 100 25) s1 = Ret tt s2 /\
    s2 = the strand.
Proof.
  destruct (plain_click_twice 10 (pt 100 25) (the strand) 0
              (mkCrossing 1 0 (Some (pt 100 25)) false))
    as (s1 & s2 & H1 & H2 & Hback & _);
    try run_it.
  - vm_compute. discriminate.
  - exists s1, s2. split; [exact H1|]. split; [exact H2|].
    apply Hback. reflexivity.
Defined.

(** [click_on_empty_canvas] on the editor as it is built, clicked at
    (10,10). *)
Lemma click_on_empty_canvas_witness :
  exists s',
    single_click 10 (pt 10 10) initial = Ret tt s' /\
    Vertices (diagram s') = [fresh_vid (diagram initial)] /\
    state s' = drawing_state /\
    ActiveVertex s' = Some (fresh_vid (diagram initial)).
Proof.
  destruct (click_on_empty_canvas 10 (pt 10 10) initial) as (_ & Hnew);
    try run_it.
  - vm_compute. discriminate.
  - destruct Hnew as (s' & Hclick & HV & _ & _ & _ & _ & _ & _ & _ & _ & Hst & Ha);
      [run_it|].
    exists s'. split; [exact Hclick|]. split; [exact HV|].
    split; [exact Hst|exact Ha].
Defined.





(** [update_crossings_settles_arrow] on the strand and the first arrow of its path,
    which passes over the arc. *)
Lemma update_crossings_settles_arrow_witness :
  let s := the strand in
  let s' := update_crossings (Some 1%nat) s in
  one_crossing_per_pair (Crossings (diagram s')) = true /\
  (forall y, y ∈ Arrows (diagram s) -> y <> 1%nat ->
             (pairs (Crossings (diagram s')) 1 y <-> meets s 1 y = true)) /\
  Arrows (diagram s') = Arrows (diagram s).
Proof.
  intros s s'.
  destruct (update_crossings_settles_arrow s 1) as (H1 & _ & H2 & _ & H3 & _).
  - apply (bool_decide_unpack (NoDup (Arrows (diagram s)))). vm_compute. exact I.
  - run_it.
  - unfold not_virtual.
    apply (bool_decide_unpack
             (Forall (fun c => is_virtual c = false) (Crossings (diagram s)))).
    vm_compute. exact I.
  - split; [exact H1|]. split; [exact H2|exact H3].
Defined.

(** [generic_arrow_verdict] on the strand and the first arrow of its path. *)
Lemma generic_arrow_verdict_witness :
  let s := the strand in
  one_crossing_per_pair (Crossings (diagram s)) = true /\
  (length (Crossings (diagram s)) <= length (CrossPoints s))%nat /\
  exists b, generic_arrow s (Some 1%nat) = Val b.
Proof.
  intros s.
  assert (H1 : one_crossing_per_pair (Crossings (diagram s)) = true) by run_it.
  assert (H2 : (length (Crossings (diagram s)) <= length (CrossPoints s))%nat)
    by (vm_compute; apply le_n).
  split; [exact H1|]. split; [exact H2|].
  destruct (generic_arrow_verdict s 1 H1 H2) as (b & Hb & _).
  exists b. exact Hb.
Defined.

(** [click_on_vertex_starts_drag] on the zigzag, clicked on its first
    vertex. *)
Lemma click_on_vertex_starts_drag_witness :
  let s := the zigzag in
  exists s',
    single_click 10 (pt 0 0) s = Ret tt s' /\
    state s' = dragging_state /\
    ActiveVertex s' = Some 0%nat /\
    Crossings (diagram s') = Crossings (diagram s) /\
    vfrozen (vertex (diagram s') 0) = true.
Proof.
  intros s.
  destruct (click_on_vertex_starts_drag 10 (pt 0 0) s 0)
    as (s' & Hclick & Hst & Hact & _ & _ & _ & _ & HC & _ & Hfr); try run_it.
  - vm_compute. discriminate.
  - right. apply (bool_decide_unpack (is_Some (out_arrow (vertex (diagram s) 0)))).
    vm_compute. exact I.
  - exists s'. split; [exact Hclick|]. split; [exact Hst|]. split; [exact Hact|].
    split; [exact HC|exact Hfr].
Defined.

(** [vertex_mode_click_splits_arrow] on the zigzag in vertex mode, clicked
    at (50,25), half way along its first arrow. *)
Lemma vertex_mode_click_splits_arrow_witness :
  let s := zigzag_vertex_mode in
  exists s' l1 l2 a1 a2,
    single_click 10 (pt 50 25) s = Ret tt s' /\
    Arrows (diagram s) = l1 ++ 0%nat :: l2 /\
    Arrows (diagram s') = (l1 ++ l2) ++ [a1; a2] /\
    Vertices (diagram s') = Vertices (diagram s) ++ [fresh_vid (diagram s)] /\
    a1 <> a2 /\
    state s' = start_state.
Proof.
  intros s.
  destruct (vertex_mode_click_splits_arrow 10 (pt 50 25) s 0)
    as (s' & l1 & l2 & a1 & a2 & Hclick & HA & _ & HA' & HV & Hne & _ & _ & _ & _ & _ &
        _ & _ & _ & Hst & _); try run_it.
  - vm_compute. discriminate.
  - apply (bool_decide_unpack
             (is_Some (vstore (diagram s) !! astart (arrow (diagram s) 0)))).
    vm_compute. exact I.
  - apply (bool_decide_unpack
             (is_Some (vstore (diagram s) !! aend (arrow (diagram s) 0)))).
    vm_compute. exact I.
  - exists s', l1, l2, a1, a2. split; [exact Hclick|]. split; [exact HA|].
    split; [exact HA'|]. split; [exact HV|]. split; [exact Hne|exact Hst].
Defined.
